(* ===== verification/_CoqProject ===== *)
-Q . S2P
Prelude.v
Utf8.v
JsNumber.v
JsDecimal.v
JsValue.v
JsonText.v
RecordStore.v
Handlers.v
Server.v
Processes.v
Service.v
DataFile.v
Wire.v
