(* ===== verification/Prelude.v ===== *)
(** * A verification development of the quiz-submission backend [src/server.js]

    ** The program

    [src/server.js] is an Express application with a flat-file store and
    three request handlers:
    - the record store: [readStudentData] (lines 22-30) reads [data.json]
      and returns [JSON.parse] of its text, or [[]] when reading or parsing
      throws; [writeStudentData] (lines 32-39) writes
      [JSON.stringify(data, null, 2)] back with [fs.writeFileSync] and logs
      an error instead of propagating it;
    - [POST /api/quiz/submit] (lines 44-62) checks [name], [email], [course]
      (truthy) and [score] (not [undefined]), loads the collection, pushes
      the body, saves, logs a line and answers 201 with the new length as
      [id];
    - [GET /api/admin/data] (lines 65-70) loads the collection, logs its
      [length] and answers 200 with [{students: allData}];
    - [POST /api/admin/login] (lines 74-90) compares [username] and
      [password] with [===] against ["admin"] and ["password123"];
    - the HTTP surface (lines 7-18): [cors()], [bodyParser.json()] and the
      router, which dispatch each request to a handler;
    - the start (lines 94-97): [app.listen(PORT)] prints two lines, then
      requests are served one at a time, each handler to completion.
    The handlers share no memory: they interact only through the file, as
    do several processes started on the same directory.

    ** The library, in dependency order

    - [Prelude] (this file): strings as lists of UTF-16 code units ([jstr]),
      the [js_scope] notation [⟪"..."⟫] for the source's ASCII literals, an
      error monad with [let!], the [jsdb] hints and the tactics [invc],
      [case_match_eq], [zbool].
    - [Utf8]: the UTF-8 codec Node.js applies to the data file: the
      encoder of [writeFileSync(..., 'utf8')] ([utf8_encode]) and the WHATWG
      decoder of [readFileSync(..., 'utf8')] ([utf8_decode]), a state
      machine over the bytes, with the bit arithmetic in the [bitdb]
      rewrite hints.
    - [JsNumber]: the JSON number grammar ([lex_number]) and the class
      [JsNumber] of the number operations the runtime performs
      (StringToNumber, Number::toString, ToBoolean, array lengths), with
      the laws [JsNumberLaws] ECMA-262 guarantees.
    - [JsDecimal]: an instance, exact decimals with the binary64 overflow
      and underflow thresholds, and the proof of its laws
      ([decimal_laws]), through the digit strings of [N].
    - [JsValue]: the values the handlers see ([jsval]): objects as property
      lists in [OrdinaryOwnPropertyKeys] order, kept by CreateDataProperty
      ([obj_define]); [!x], [typeof], [===], property reads with the
      inherited members of Node.js, [push] with its length bound, and the
      fallible ToString of template literals.
    - [JsonText]: [JSON.stringify] ([ser], QuoteJSONString with lone
      surrogates escaped) and [JSON.parse] (a parser on fuel, [2n + 2] for a
      text of [n] units, proved enough with [2n + 1]).
    - [RecordStore]: the file as [option jstr], [readStudentData] and
      [writeStudentData] with the outcomes the environment chooses (a write
      fails before opening, or after truncating with a prefix written); the
      class [RecordStore] and its laws [RecordStoreLaws] are the contract
      the handlers use, and [file_store_laws] proves the file meets it.
    - [Handlers]: the three handlers as functions of the store, the body
      and the I/O outcomes, returning the new store, the log lines and a
      response or an uncaught exception.
    - [Server]: [cors()], [bodyParser.json()] (strict), the router, the
      server as a step relation over requests ([step]), requests served in
      sequence ([serve_all], [serve_seq]) and a run of the process after
      [app.listen] ([server_run]).
    - [Processes]: several processes sharing [data.json], each submission
      split at its read and its write ([proc], [proc_step]), interleaved by
      [cstep].
    - [Service]: the abstract service the server implements, an
      append-only collection of valid records ([log_step]), the relation
      [refines] between a store and a collection (up to [json_equiv], the
      equivalence of values [JSON.stringify] cannot tell apart), a
      generic simulation diagram, and the invariant of interleaved
      processes ([run_ok]).
    - [DataFile]: [data.json] as bytes ([disk_file]), read and written
      through the codec, a write cut short leaving a prefix of the bytes;
      [disk_store_laws] proves it meets [RecordStoreLaws], so the theorems
      of the handlers, the server and the service hold of the file as it
      is on disk.
    - [Wire]: the exchange as bytes: a request's JSON body decoded by
      [bodyParser.json()], the headers Express, [cors()] and [res.json] set
      in Node's order, [Content-Length] and the weak [ETag], the final
      handler's HTML error page, the body withheld from [HEAD]
      ([serve_wire]).

    ** The theorems

    - Handlers: a valid submission is answered 201 with [id = n + 1] and
      appended (C1), an invalid one is answered
      400 without effect (C2); line 48 is the
      spec's validation rule on object bodies (C30);
      the error paths: a failed write still answers 201
      (C15), a write cut short loses the
      whole collection (C16,
      C17), a corrupt file is replaced
      (C18), non-array JSON makes the
      submission throw (C20), [null] makes the
      retrieval throw (C21), a field with an own
      [toString] makes the handler throw after saving
      (C22); retrieval and login
      (C31, C32).
    - Service: refinement of the abstract service by the server under
      reliable I/O, one request at a time (C3) and for
      whole runs, where the collection is append-only
      (C4); a submission is the abstract
      append and its id the record's position (C13);
      the retrieval sends the abstract collection (C12).
    - Server: submissions served in sequence are all kept, in order
      (C5); every reachable store holds an array,
      by induction on the steps (C8), so the retrieval
      always answers 200 there (C11); every body sent is
      JSON data (C9); a bad body is a 400
      (C25), a body over 100kb a 413
      (C26); only a submission writes
      (C27).
    - Processes and Service: two processes sharing the file lose an update
      (C23); every interleaving
      keeps the records the file started with, first and unchanged,
      followed by submitted records only (C24).
    - JsonText: [JSON.parse (JSON.stringify v) = jnorm v]
      (C6), printing what was read back gives
      the same text (C35).  JsValue:
      CreateDataProperty puts a key where [OrdinaryOwnPropertyKeys] lists
      it and reads back what it defined (C36); the number laws of
      [JsDecimal] ([decimal_laws]) are lemmas every theorem above uses.
    - Utf8 and DataFile: the codec gives back what it encoded, lone
      surrogates replaced (C33), and decodes any bytes to
      well-formed UTF-16 (C34); the byte-level file is the
      text file through the decoder (C14), the
      collection written to disk is read back as [jnorm] of it
      (C7), and a byte-order mark makes the file
      read as [[]] and be replaced (C19).
    - Wire: the client's [JSON.parse] of the bytes of every JSON answer
      gives back the value sent, [Content-Length] counting them
      (C10); every answer allows every origin, as the
      spec asks, and a preflight is a 204 (C28); a [HEAD] of the
      data is the [GET] answer without its body (C29).

    ** Bounds and fuel

    An array length stays below [2^32 - 1] ([max_array_length]); every
    theorem about a push assumes the collection is shorter, as any file
    the server writes is.  [JSON.parse] runs [parse_value] with
    [2 * length text + 2] units of fuel; [parse_value_fuel] shows
    that [2 * length text + 1] never runs out (each unit of fuel consumes a
    unit of text or enters one level of nesting) and that more fuel does
    not change the result.  [strip_zeros] in [JsDecimal] runs on the bit
    size of the significand, more than its number of trailing zeros.
    The
    hexadecimal digits of the [ETag]'s length run on [n + 1] units of
    fuel for [n], more than its number of digits.

    ** Not modelled

    The 53-bit rounding of numbers: [JsDecimal] keeps the decimal a
    lexeme denotes, within the binary64 range, so the theorems hold of any
    number type that meets [JsNumberLaws] and the rounding is the one
    thing the instance leaves out.  The console as a device: log lines are
    data, and what [console.error] prints of an error object (its stack,
    with file paths and line numbers of the running installation) is not
    a function of the program.  Of the HTTP surface ([Wire]): charsets
    other than UTF-8 (a 415, or the UTF-16 decoders of [iconv-lite]),
    compressed bodies, conditional requests ([If-None-Match] and the 304
    it can give), the [Date], [Connection] and [Keep-Alive] headers Node
    adds, the SHA-1 digest of the [ETag] and the error text of a page
    (both parameters); the TCP socket [app.listen] binds (its callback's
    output is modelled).
    Lines 1-5 only load the libraries the model stands for. *)

From Stdlib Require Export String Ascii.
From stdpp Require Export base list options.
From Stdlib Require Export ZArith Lia.
Export ListNotations.
Open Scope list_scope.
Open Scope Z_scope.

(** ** Code-unit strings *)

(** A JavaScript string is a sequence of UTF-16 code units, each an integer
    of width 16. *)
Abbreviation jstr := (list Z).

Definition unit_ok (c : Z) : Prop := 0 <= c < 65536.

Definition unit_okb (c : Z) : bool := (0 <=? c) && (c <? 65536).

(** A text all of whose elements are 16-bit code units. *)
Abbreviation bounded := (forallb unit_okb).

(** The code units of an ASCII literal of the source. *)
Definition units (s : string) : jstr :=
  map (fun a => Z.of_nat (nat_of_ascii a)) (list_ascii_of_string s).

Declare Scope js_scope.
Delimit Scope js_scope with js.
Notation "⟪ s ⟫" := (units s%string) (format "⟪ s ⟫") : js_scope.
Open Scope js_scope.

(** Code units the lexer and printer name. *)
Definition c_tab : Z := 9.
Definition c_lf : Z := 10.
Definition c_cr : Z := 13.
Definition c_space : Z := 32.
Definition c_quote : Z := 34.
Definition c_plus : Z := 43.
Definition c_comma : Z := 44.
Definition c_minus : Z := 45.
Definition c_dot : Z := 46.
Definition c_zero : Z := 48.
Definition c_colon : Z := 58.
Definition c_lbrack : Z := 91.
Definition c_bslash : Z := 92.
Definition c_rbrack : Z := 93.
Definition c_lbrace : Z := 123.
Definition c_rbrace : Z := 125.

Definition is_digit (c : Z) : bool := (48 <=? c) && (c <=? 57).

(** The halves of a surrogate pair. *)
Definition is_high (c : Z) : bool := (55296 <=? c) && (c <=? 56319).
Definition is_low (c : Z) : bool := (56320 <=? c) && (c <=? 57343).

(** ** Tactics and hints *)

Create HintDb jsdb.

Ltac invc H := inversion H; subst; clear H.

(** Case on the scrutinee of the first [match] or [if] of the goal,
    keeping its equation. *)
Ltac case_match_eq :=
  match goal with
  | |- context [match ?x with _ => _ end] =>
      let E := fresh "E" in destruct x eqn:E
  end.

(** Turn the boolean comparisons of [Z] in the context into propositions. *)
Ltac zbool :=
  repeat match goal with
  | H : (_ =? _)%Z = true |- _ => apply Z.eqb_eq in H
  | H : (_ =? _)%Z = false |- _ => apply Z.eqb_neq in H
  | H : (_ <=? _)%Z = true |- _ => apply Z.leb_le in H
  | H : (_ <=? _)%Z = false |- _ => apply Z.leb_gt in H
  | H : (_ <? _)%Z = true |- _ => apply Z.ltb_lt in H
  | H : (_ <? _)%Z = false |- _ => apply Z.ltb_ge in H
  | H : (_ && _) = true |- _ => apply andb_prop in H as [? ?]
  | H : (_ || _) = false |- _ => apply orb_false_elim in H as [? ?]
  end.

(** ** Generic lemmas *)

Lemma unit_okb_spec c : unit_okb c = true <-> 0 <= c < 65536.
Proof. unfold unit_okb. by rewrite andb_true_iff, Z.leb_le, Z.ltb_lt. Qed.

Lemma bounded_app a b : bounded (a ++ b) = bounded a && bounded b.
Proof. apply forallb_app. Qed.

Lemma units_app s1 s2 : units (s1 ++ s2) = units s1 ++ units s2.
Proof.
  unfold units. induction s1 as [|a s1 IH]; simpl; [done|]. by rewrite IH.
Qed.

Lemma units_bounded s : Forall unit_ok (units s).
Proof.
  unfold units, unit_ok. induction s as [|a s IH]; simpl; constructor; [|done].
  pose proof (nat_ascii_bounded a). lia.
Qed.
#[export] Hint Resolve units_bounded : jsdb.

Lemma is_digit_true c : is_digit c = true <-> 48 <= c <= 57.
Proof. unfold is_digit. rewrite andb_true_iff, !Z.leb_le. done. Qed.

(** A suffix is never longer than the list. *)
Definition suffix_of {A} (r s : list A) : Prop := exists p, s = p ++ r.

Lemma suffix_of_refl {A} (s : list A) : suffix_of s s.
Proof. by exists []. Qed.

Lemma suffix_of_cons {A} (r s : list A) (a : A) :
  suffix_of r s -> suffix_of r (a :: s).
Proof. intros [p ->]. by exists (a :: p). Qed.

Lemma suffix_of_trans {A} (r s t : list A) :
  suffix_of r s -> suffix_of s t -> suffix_of r t.
Proof. intros [p ->] [q ->]. exists (q ++ p). by rewrite app_assoc. Qed.

Lemma suffix_of_length {A} (r s : list A) : suffix_of r s -> (length r <= length s)%nat.
Proof. intros [p ->]. rewrite length_app. lia. Qed.

#[export] Hint Resolve suffix_of_refl suffix_of_cons : jsdb.

(** A [forallb] that fails names an element that fails, by its index. *)
Lemma forallb_lookup_false {A} (f : A -> bool) l :
  forallb f l = false -> exists i x, l !! i = Some x /\ f x = false.
Proof.
  induction l as [|x l IH]; simpl; [done|]. destruct (f x) eqn:Hx; simpl.
  - intros Hl. destruct (IH Hl) as (i & y & Hi & Hy). by exists (S i), y.
  - intros _. by exists 0%nat, x.
Qed.

Lemma forallb_lookup {A} (f : A -> bool) l i x :
  forallb f l = true -> l !! i = Some x -> f x = true.
Proof.
  intros Hl Hi. apply (proj1 (forallb_forall f l)); [done|]. apply list_elem_of_In. by eapply list_elem_of_lookup_2.
Qed.

(** [Array.prototype.join]: the parts separated by [sep]. *)
Fixpoint join (sep : jstr) (parts : list jstr) : jstr :=
  match parts with
  | [] => []
  | [x] => x
  | x :: rest => x ++ sep ++ join sep rest
  end.

(** ** An error monad for code that can throw *)

Definition ebind {E A B} (m : E + A) (k : A -> E + B) : E + B :=
  match m with inl e => inl e | inr a => k a end.

Notation "'let!' x ':=' m 'in' k" := (ebind m (fun x => k))
  (at level 10, x name, m at level 100, k at level 200) : js_scope.

Lemma ebind_inr {E A B} (a : A) (k : A -> E + B) : ebind (inr a) k = k a.
Proof. done. Qed.
#[export] Hint Rewrite @ebind_inr : jsdb.
