(* ===== verification/Utf8.v ===== *)
(** * The UTF-8 codec of the data file

    [readFileSync(DATA_FILE, 'utf8')] (line 24) decodes the bytes of the
    file into a string, and [writeFileSync(DATA_FILE, text, 'utf8')]
    (line 35) encodes the string into bytes.  Node.js does both in V8:
    - encoding ([utf8_encode]) goes through the code units: a high
      surrogate followed by a low one is one code point of four bytes, a
      lone surrogate is written as U+FFFD (EF BF BD), any other unit as the
      one to three bytes of its code point;
    - decoding ([utf8_decode]) is the decoder of the WHATWG Encoding
      standard: a state machine ([dstate]) that keeps the bytes still
      needed, the code point so far and the bounds of the next byte, emits
      U+FFFD for each maximal ill-formed subpart (the offending byte is
      then read again from the start state) and for a sequence cut short
      by the end, and emits a code point above U+FFFF as a surrogate pair.
      A byte-order mark is not removed: it decodes to U+FEFF.

    The theorems: decoding what was encoded gives the text with its lone
    surrogates replaced ([scrub]), so a text without lone surrogates
    ([no_lone]) comes back unchanged ([utf8_decode_encode],
    [utf8_roundtrip_exact]); the decoder only produces 16-bit units
    ([utf8_decode_bounded]).  [DataFile] states them of [data.json]. *)

From S2P Require Import Prelude.

Abbreviation bytes := (list Z).

(** ** Encoding *)

(** The bytes of a code point. *)
Definition enc_cp (cp : Z) : bytes :=
  if cp <? 128 then [cp]
  else if cp <? 2048 then [192 + Z.shiftr cp 6; 128 + Z.land cp 63]
  else if cp <? 65536 then
    [224 + Z.shiftr cp 12; 128 + Z.land (Z.shiftr cp 6) 63; 128 + Z.land cp 63]
  else
    [240 + Z.shiftr cp 18; 128 + Z.land (Z.shiftr cp 12) 63;
     128 + Z.land (Z.shiftr cp 6) 63; 128 + Z.land cp 63].

Definition replacement_char : Z := 65533.

(** [Buffer.from(s, 'utf8')]. *)
Fixpoint utf8_encode (s : jstr) : bytes :=
  match s with
  | [] => []
  | c :: t =>
      if is_high c then
        match t with
        | d :: t' =>
            if is_low d then enc_cp (65536 + Z.shiftl (c - 55296) 10 + (d - 56320)) ++ utf8_encode t'
            else enc_cp replacement_char ++ utf8_encode t
        | [] => enc_cp replacement_char
        end
      else if is_low c then enc_cp replacement_char ++ utf8_encode t
      else enc_cp c ++ utf8_encode t
  end.

(** ** Decoding *)

(** The code units of a code point. *)
Definition emit_cp (cp : Z) : jstr :=
  if cp <? 65536 then [cp]
  else [55296 + Z.shiftr (cp - 65536) 10; 56320 + Z.land (cp - 65536) 1023].

(** The decoder's state: at the start of a sequence, or with [left] bytes
    still needed, the code point [cp] so far, and the bounds of the next
    byte. *)
Inductive dstate := DStart | DCont (left : nat) (cp lower upper : Z).

(** A byte read at the start of a sequence: what is emitted, and the next
    state. *)
Definition dstart (b : Z) : jstr * dstate :=
  if b <=? 127 then ([b], DStart)
  else if (194 <=? b) && (b <=? 223) then ([], DCont 1 (Z.land b 31) 128 191)
  else if (224 <=? b) && (b <=? 239) then
    ([], DCont 2 (Z.land b 15) (if b =? 224 then 160 else 128) (if b =? 237 then 159 else 191))
  else if (240 <=? b) && (b <=? 244) then
    ([], DCont 3 (Z.land b 7) (if b =? 240 then 144 else 128) (if b =? 244 then 143 else 191))
  else ([replacement_char], DStart).

Fixpoint utf8_go (st : dstate) (bs : bytes) : jstr :=
  match bs with
  | [] => match st with DStart => [] | DCont _ _ _ _ => [replacement_char] end
  | b :: rest =>
      match st with
      | DStart => let '(out, st') := dstart b in out ++ utf8_go st' rest
      | DCont n cp lo hi =>
          if (lo <=? b) && (b <=? hi) then
            let cp' := Z.shiftl cp 6 + Z.land b 63 in
            match n with
            | S (S m) => utf8_go (DCont (S m) cp' 128 191) rest
            | _ => emit_cp cp' ++ utf8_go DStart rest
            end
          else replacement_char :: (let '(out, st') := dstart b in out ++ utf8_go st' rest)
      end
  end.

(** [buffer.toString('utf8')]. *)
Definition utf8_decode (bs : bytes) : jstr := utf8_go DStart bs.

(** ** Lone surrogates *)

(** The text with each lone surrogate replaced by U+FFFD. *)
Fixpoint scrub (s : jstr) : jstr :=
  match s with
  | [] => []
  | c :: t =>
      if is_high c then
        match t with
        | d :: t' => if is_low d then c :: d :: scrub t' else replacement_char :: scrub t
        | [] => [replacement_char]
        end
      else if is_low c then replacement_char :: scrub t
      else c :: scrub t
  end.

(** A text whose surrogates all come in pairs. *)
Fixpoint no_lone (s : jstr) : bool :=
  match s with
  | [] => true
  | c :: t =>
      if is_high c then
        match t with d :: t' => is_low d && no_lone t' | [] => false end
      else negb (is_low c) && no_lone t
  end.

(** ** Bit arithmetic *)

Create Rewrite HintDb bitdb.

Lemma shiftr_div x n : 0 <= n -> Z.shiftr x n = x / 2 ^ n.
Proof. apply Z.shiftr_div_pow2. Qed.

Lemma shiftl_mul x n : 0 <= n -> Z.shiftl x n = x * 2 ^ n.
Proof. apply Z.shiftl_mul_pow2. Qed.

Lemma land_mod x n : 0 <= n -> Z.land x (Z.ones n) = x mod 2 ^ n.
Proof. apply Z.land_ones. Qed.

Lemma land63 x : Z.land x 63 = x mod 64.
Proof. exact (land_mod x 6 ltac:(lia)). Qed.
Lemma land31 x : Z.land x 31 = x mod 32.
Proof. exact (land_mod x 5 ltac:(lia)). Qed.
Lemma land15 x : Z.land x 15 = x mod 16.
Proof. exact (land_mod x 4 ltac:(lia)). Qed.
Lemma land7 x : Z.land x 7 = x mod 8.
Proof. exact (land_mod x 3 ltac:(lia)). Qed.
Lemma land1023 x : Z.land x 1023 = x mod 1024.
Proof. exact (land_mod x 10 ltac:(lia)). Qed.
Lemma shiftr6 x : Z.shiftr x 6 = x / 64.
Proof. exact (shiftr_div x 6 ltac:(lia)). Qed.
Lemma shiftr10 x : Z.shiftr x 10 = x / 1024.
Proof. exact (shiftr_div x 10 ltac:(lia)). Qed.
Lemma shiftr12 x : Z.shiftr x 12 = x / 4096.
Proof. exact (shiftr_div x 12 ltac:(lia)). Qed.
Lemma shiftr18 x : Z.shiftr x 18 = x / 262144.
Proof. exact (shiftr_div x 18 ltac:(lia)). Qed.
Lemma shiftl6 x : Z.shiftl x 6 = x * 64.
Proof. exact (shiftl_mul x 6 ltac:(lia)). Qed.
Lemma shiftl10 x : Z.shiftl x 10 = x * 1024.
Proof. exact (shiftl_mul x 10 ltac:(lia)). Qed.

#[export] Hint Rewrite land63 land31 land15 land7 land1023 shiftr6 shiftr10 shiftr12 shiftr18
  shiftl6 shiftl10 : bitdb.

(** Settle the first [if] of the goal whose condition the arithmetic
    decides. *)
Ltac zdecide :=
  unfold is_high, is_low; rewrite ?andb_true_iff, ?orb_true_iff, ?Z.leb_le, ?Z.ltb_lt, ?Z.eqb_eq; lia.

Ltac settle_if :=
  match goal with
  | |- context [if ?c then _ else _] =>
      let E := fresh "E" in
      first
        [ assert (E : c = true) by zdecide
        | assert (E : c = false) by (apply not_true_iff_false; zdecide) ];
      rewrite E; clear E
  end.

(** ** Decoding what was encoded *)

(** A Unicode scalar value: a code point that is not a surrogate. *)
Definition scalar (cp : Z) : Prop := 0 <= cp < 1114112 /\ ~ (55296 <= cp <= 57343).

(** The decoder, one byte at a time. *)
Lemma go_ascii b rest : 0 <= b <= 127 -> utf8_go DStart (b :: rest) = b :: utf8_go DStart rest.
Proof. intros Hb. cbn [utf8_go]. unfold dstart. settle_if. done. Qed.

Lemma go_lead2 b rest : 194 <= b <= 223 -> utf8_go DStart (b :: rest) = utf8_go (DCont 1 (b mod 32) 128 191) rest.
Proof. intros Hb. cbn [utf8_go]. unfold dstart. autorewrite with bitdb. repeat settle_if. done. Qed.

Lemma go_lead3 b rest : 224 <= b <= 239 -> utf8_go DStart (b :: rest) =
  utf8_go (DCont 2 (b mod 16) (if b =? 224 then 160 else 128) (if b =? 237 then 159 else 191)) rest.
Proof. intros Hb. cbn [utf8_go]. unfold dstart. autorewrite with bitdb. repeat settle_if. done. Qed.

Lemma go_lead4 b rest : 240 <= b <= 244 -> utf8_go DStart (b :: rest) =
  utf8_go (DCont 3 (b mod 8) (if b =? 240 then 144 else 128) (if b =? 244 then 143 else 191)) rest.
Proof. intros Hb. cbn [utf8_go]. unfold dstart. autorewrite with bitdb. repeat settle_if. done. Qed.

Lemma go_more n cp lo hi b rest : lo <= b <= hi ->
  utf8_go (DCont (S (S n)) cp lo hi) (b :: rest) = utf8_go (DCont (S n) (cp * 64 + b mod 64) 128 191) rest.
Proof. intros Hb. cbn [utf8_go]. settle_if. by autorewrite with bitdb. Qed.

Lemma go_last cp lo hi b rest : lo <= b <= hi ->
  utf8_go (DCont 1 cp lo hi) (b :: rest) = emit_cp (cp * 64 + b mod 64) ++ utf8_go DStart rest.
Proof. intros Hb. cbn [utf8_go]. settle_if. by autorewrite with bitdb. Qed.

Lemma emit_bmp cp : 0 <= cp < 65536 -> emit_cp cp = [cp].
Proof. intros H. unfold emit_cp. by settle_if. Qed.

Lemma decode_enc_cp cp rest :
  scalar cp -> utf8_go DStart (enc_cp cp ++ rest) = emit_cp cp ++ utf8_go DStart rest.
Proof.
  intros [Hr Hs]. unfold enc_cp. autorewrite with bitdb.
  destruct (Z.ltb_spec cp 128); [|destruct (Z.ltb_spec cp 2048); [|destruct (Z.ltb_spec cp 65536)]];
    repeat settle_if; cbn [app].
  - rewrite go_ascii by lia. by rewrite emit_bmp by lia.
  - rewrite go_lead2, go_last by (Z.div_mod_to_equations; lia). f_equal. f_equal. Z.div_mod_to_equations; lia.
  - rewrite go_lead3 by (Z.div_mod_to_equations; lia).
    destruct (Z.eqb_spec (224 + cp / 4096) 224), (Z.eqb_spec (224 + cp / 4096) 237);
    (rewrite go_more, go_last by (Z.div_mod_to_equations; lia); f_equal; f_equal; Z.div_mod_to_equations; lia).
  - rewrite go_lead4 by (Z.div_mod_to_equations; lia).
    destruct (Z.eqb_spec (240 + cp / 262144) 240), (Z.eqb_spec (240 + cp / 262144) 244);
    (rewrite go_more, go_more, go_last by (Z.div_mod_to_equations; lia); f_equal; f_equal; Z.div_mod_to_equations; lia).
Qed.

Lemma emit_pair c d : is_high c = true -> is_low d = true ->
  emit_cp (65536 + (c - 55296) * 1024 + (d - 56320)) = [c; d].
Proof.
  unfold is_high, is_low. rewrite !andb_true_iff, !Z.leb_le. intros Hc Hd.
  unfold emit_cp. settle_if. autorewrite with bitdb. f_equal; [|f_equal]; Z.div_mod_to_equations; lia.
Qed.

Lemma enc_replacement rest : utf8_go DStart (enc_cp replacement_char ++ rest) = replacement_char :: utf8_go DStart rest.
Proof. rewrite decode_enc_cp; [done|]. unfold replacement_char, scalar. lia. Qed.

Lemma bounded_cons c t : bounded (c :: t) = unit_okb c && bounded t.
Proof. done. Qed.

Lemma utf8_decode_encode s : bounded s = true -> utf8_decode (utf8_encode s) = scrub s.
Proof.
  unfold utf8_decode. remember (length s) as n eqn:En. revert s En.
  induction n as [n IH] using lt_wf_ind. intros [|c t] En Hb; [done|].
  rewrite bounded_cons, andb_true_iff, unit_okb_spec in Hb. destruct Hb as [Hc Ht].
  cbn [utf8_encode scrub]. simpl length in En. destruct (is_high c) eqn:Hh.
  - destruct t as [|d t'].
    + rewrite <- (app_nil_r (enc_cp replacement_char)), enc_replacement. reflexivity.
    + destruct (is_low d) eqn:Hl.
      * rewrite shiftl10, decode_enc_cp, emit_pair by (done || (unfold scalar, is_high, is_low in *; zbool; lia)).
        rewrite bounded_cons, andb_true_iff in Ht. cbn [app]. simpl length in En.
        by rewrite (IH (length t') ltac:(lia) t' eq_refl (proj2 Ht)).
      * rewrite enc_replacement. f_equal. apply (IH (length (d :: t'))); [simpl in *; lia|done|done].
  - destruct (is_low c) eqn:Hl.
    + rewrite enc_replacement. f_equal. apply (IH (length t)); [lia|done|done].
    + rewrite decode_enc_cp by (unfold scalar, is_high, is_low in *; zbool; lia).
      rewrite emit_bmp by lia. cbn [app]. f_equal. apply (IH (length t)); [lia|done|done].
Qed.

(** ** Texts without lone surrogates *)

Lemma no_lone_scrub s : no_lone s = true -> scrub s = s.
Proof.
  remember (length s) as n eqn:En. revert s En.
  induction n as [n IH] using lt_wf_ind. intros [|c t] En Hs; [done|]. simpl length in En.
  cbn [no_lone scrub] in Hs |- *. destruct (is_high c).
  - destruct t as [|d t']; [done|]. apply andb_true_iff in Hs as [-> Ht]. simpl length in En.
    by rewrite (IH (length t') ltac:(lia) t' eq_refl Ht).
  - apply andb_true_iff in Hs as [Hl Ht]. apply negb_true_iff in Hl. rewrite Hl.
    by rewrite (IH (length t) ltac:(lia) t eq_refl Ht).
Qed.

Lemma no_lone_app a b : no_lone a = true -> no_lone b = true -> no_lone (a ++ b) = true.
Proof.
  intros Ha Hb. remember (length a) as n eqn:En. revert a En Ha.
  induction n as [n IH] using lt_wf_ind. intros [|c t] En Ha; [done|]. simpl length in En.
  cbn [no_lone app] in Ha |- *. destruct (is_high c).
  - destruct t as [|d t']; [done|]. cbn [app]. apply andb_true_iff in Ha as [-> Ht]. simpl length in En.
    exact (IH (length t') ltac:(lia) t' eq_refl Ht).
  - apply andb_true_iff in Ha as [-> Ht]. exact (IH (length t) ltac:(lia) t eq_refl Ht).
Qed.

Lemma not_surrogate c : ~ (55296 <= c <= 57343) -> is_high c = false /\ is_low c = false.
Proof. intros Hc. split; apply not_true_iff_false; zdecide. Qed.

Lemma no_lone_cons c t : ~ (55296 <= c <= 57343) -> no_lone (c :: t) = no_lone t.
Proof. intros Hc. destruct (not_surrogate c Hc) as [Hh Hl]. cbn [no_lone]. by rewrite Hh, Hl. Qed.

(** A text of 16-bit units whose surrogates come in pairs is written and
    read back unchanged. *)
Lemma utf8_roundtrip_exact s :
  bounded s = true -> no_lone s = true -> utf8_decode (utf8_encode s) = s.
Proof. intros Hb Hn. rewrite utf8_decode_encode by done. by apply no_lone_scrub. Qed.

(** ** The decoder produces 16-bit units *)

Definition byte_ok (b : Z) : bool := (0 <=? b) && (b <? 256).

(** The code point of a state fits the bytes still needed. *)
Definition dstate_ok (st : dstate) : Prop :=
  match st with
  | DStart => True
  | DCont n cp _ _ => 0 <= cp /\ match n with 1%nat => cp < 32768 | 2%nat => cp < 512 | 3%nat => cp < 8 | _ => False end
  end.

Lemma emit_cp_bounded cp : 0 <= cp < 2097152 -> bounded (emit_cp cp) = true.
Proof.
  intros Hc. unfold emit_cp. autorewrite with bitdb.
  destruct (Z.ltb_spec cp 65536); simpl; rewrite ?andb_true_r, ?andb_true_iff, ?unit_okb_spec;
    [|split]; Z.div_mod_to_equations; lia.
Qed.

Lemma dstart_ok b : byte_ok b = true -> bounded (dstart b).1 = true /\ dstate_ok (dstart b).2.
Proof.
  unfold byte_ok, dstart. rewrite andb_true_iff, Z.leb_le, Z.ltb_lt. intros Hb.
  autorewrite with bitdb. repeat case_match; cbn [fst snd dstate_ok bounded forallb];
    zbool; rewrite ?andb_true_r, ?unit_okb_spec; (split; [try done; lia|]); Z.div_mod_to_equations; lia.
Qed.

Lemma go_bounded bs : forall st, dstate_ok st -> forallb byte_ok bs = true -> bounded (utf8_go st bs) = true.
Proof.
  induction bs as [|b rest IH]; intros st Hst Hbs; [by destruct st|].
  cbn [forallb] in Hbs. apply andb_true_iff in Hbs as [Hb Hrest].
  destruct (dstart_ok b Hb) as [Ho Hs']. cbn [utf8_go]. destruct st as [|n cp lo hi].
  - destruct (dstart b) as [out st']. simpl in Ho, Hs'. by rewrite bounded_app, Ho, IH.
  - simpl in Hst. unfold byte_ok in Hb. zbool. autorewrite with bitdb. destruct ((lo <=? b) && (b <=? hi)).
    + destruct n as [|[|[|[|m]]]]; try (exfalso; destruct Hst as [_ Hf]; exact Hf).
      * rewrite bounded_app, IH, emit_cp_bounded; [done|Z.div_mod_to_equations; lia|done|done].
      * apply IH; [simpl; Z.div_mod_to_equations; lia|done].
      * apply IH; [simpl; Z.div_mod_to_equations; lia|done].
    + simpl. destruct (dstart b) as [out st']. simpl in Ho, Hs'. by rewrite bounded_app, Ho, IH.
Qed.

Lemma utf8_decode_bounded bs : forallb byte_ok bs = true -> bounded (utf8_decode bs) = true.
Proof. apply go_bounded. done. Qed.

(** ** The decoder produces well-formed UTF-16 *)

(** What a state still allows keeps every sequence it completes a Unicode
    scalar value: after [ED] the next byte is at most [9F], so no
    surrogate; after [F0] at least [90] and after [F4] at most [8F], so
    from U+10000 to U+10FFFF. *)
Definition dstate_wf (st : dstate) : Prop :=
  match st with
  | DStart => True
  | DCont n cp lo hi =>
      128 <= lo /\ hi <= 191 /\ 0 <= cp /\
      match n with
      | 1%nat => cp < 17408 /\ ~ (864 <= cp <= 895)
      | 2%nat => cp < 272 /\ (cp = 13 -> hi <= 159)
      | 3%nat => (cp < 4 \/ (cp = 4 /\ hi <= 143)) /\ (cp = 0 -> 144 <= lo)
      | _ => False
      end
  end.

Lemma emit_cp_no_lone cp : 0 <= cp < 1114112 -> ~ (55296 <= cp <= 57343) -> no_lone (emit_cp cp) = true.
Proof.
  intros Hc Hs. unfold emit_cp. autorewrite with bitdb. destruct (Z.ltb_spec cp 65536); cbv iota beta.
  - by rewrite no_lone_cons.
  - assert (0 <= (cp - 65536) / 1024 < 1024 /\ 0 <= (cp - 65536) mod 1024 < 1024) as [Hq Hr]
      by (split; Z.div_mod_to_equations; lia).
    assert (Hh : is_high (55296 + (cp - 65536) / 1024) = true) by zdecide.
    assert (Hl : is_low (56320 + (cp - 65536) mod 1024) = true) by zdecide.
    cbn [no_lone]. by rewrite Hh, Hl.
Qed.

Lemma dstart_wf b : byte_ok b = true -> no_lone (dstart b).1 = true /\ dstate_wf (dstart b).2.
Proof.
  unfold byte_ok, dstart. rewrite andb_true_iff, Z.leb_le, Z.ltb_lt. intros Hb.
  autorewrite with bitdb. repeat case_match; cbn [fst snd dstate_wf]; zbool;
    (split; [rewrite ?no_lone_cons by (unfold replacement_char; lia); done|]);
    Z.div_mod_to_equations; lia.
Qed.

Lemma go_no_lone bs : forall st, dstate_wf st -> forallb byte_ok bs = true -> no_lone (utf8_go st bs) = true.
Proof.
  induction bs as [|b rest IH]; intros st Hst Hbs.
  { destruct st; [done|]. cbn [utf8_go]. by rewrite no_lone_cons by (unfold replacement_char; lia). }
  cbn [forallb] in Hbs. apply andb_true_iff in Hbs as [Hb Hrest].
  destruct (dstart_wf b Hb) as [Ho Hs']. cbn [utf8_go]. destruct st as [|n cp lo hi].
  - destruct (dstart b) as [out st']. simpl in Ho, Hs'. apply no_lone_app; [done|by apply IH].
  - simpl in Hst. unfold byte_ok in Hb. zbool. autorewrite with bitdb.
    destruct ((lo <=? b) && (b <=? hi)) eqn:Eb.
    + apply andb_true_iff in Eb as [Hlo Hhi]. zbool.
      destruct n as [|[|[|[|m]]]]; try (exfalso; destruct Hst as (_ & _ & _ & Hf); exact Hf).
      * apply no_lone_app; [apply emit_cp_no_lone; Z.div_mod_to_equations; lia|by apply IH].
      * apply IH; [simpl; Z.div_mod_to_equations; lia|done].
      * apply IH; [simpl; Z.div_mod_to_equations; lia|done].
    + rewrite no_lone_cons by (unfold replacement_char; lia).
      destruct (dstart b) as [out st']. simpl in Ho, Hs'. apply no_lone_app; [done|by apply IH].
Qed.

Lemma utf8_decode_no_lone bs : forallb byte_ok bs = true -> no_lone (utf8_decode bs) = true.
Proof. apply go_no_lone. done. Qed.

(** ** The encoder writes bytes *)

Lemma enc_cp_bytes cp : 0 <= cp < 1114112 -> forallb byte_ok (enc_cp cp) = true.
Proof.
  intros Hc. unfold enc_cp, byte_ok. autorewrite with bitdb.
  destruct (Z.ltb_spec cp 128); [|destruct (Z.ltb_spec cp 2048); [|destruct (Z.ltb_spec cp 65536)]];
    cbn [forallb]; rewrite ?andb_true_r, ?andb_true_iff, ?Z.leb_le, ?Z.ltb_lt;
    repeat split; Z.div_mod_to_equations; lia.
Qed.

Lemma utf8_encode_bytes s : bounded s = true -> forallb byte_ok (utf8_encode s) = true.
Proof.
  remember (length s) as n eqn:En. revert s En.
  induction n as [n IH] using lt_wf_ind. intros [|c t] En Hs; [done|]. simpl length in En.
  rewrite bounded_cons, andb_true_iff, unit_okb_spec in Hs. destruct Hs as [Hc Ht].
  assert (Hr : forallb byte_ok (enc_cp replacement_char) = true) by (apply enc_cp_bytes; unfold replacement_char; lia).
  cbn [utf8_encode]. destruct (is_high c) eqn:Hh.
  - destruct t as [|d t']; [done|]. simpl length in En.
    rewrite bounded_cons, andb_true_iff, unit_okb_spec in Ht. destruct Ht as [Hd Ht'].
    destruct (is_low d) eqn:Hl; rewrite forallb_app.
    + rewrite enc_cp_bytes, (IH (length t') ltac:(lia) t' eq_refl Ht'); [done|].
      unfold is_high, is_low in *. rewrite shiftl10. zbool. lia.
    + rewrite Hr. apply (IH (length (d :: t'))); [simpl; lia|done|].
      rewrite bounded_cons, Ht', andb_true_r. by apply unit_okb_spec.
  - destruct (is_low c); rewrite forallb_app; [rewrite Hr|rewrite enc_cp_bytes by lia];
      exact (IH (length t) ltac:(lia) t eq_refl Ht).
Qed.

(** ** The byte-order mark *)

(** EF BB BF decodes to U+FEFF, which is kept. *)
Lemma utf8_decode_bom bs : utf8_decode (239 :: 187 :: 191 :: bs) = 65279 :: utf8_decode bs.
Proof.
  unfold utf8_decode. rewrite go_lead3 by lia. cbn -[utf8_go].
  rewrite go_more by lia. rewrite go_last by lia. reflexivity.
Qed.

Lemma encode_ascii c t : 0 <= c < 128 -> utf8_encode (c :: t) = c :: utf8_encode t.
Proof. intros Hc. cbn [utf8_encode]. settle_if. settle_if. unfold enc_cp. settle_if. done. Qed.
