(* ===== verification/JsNumber.v ===== *)
(** * JavaScript numbers, as far as the server's runtime uses them

    The server never computes with numbers: it stores the [score] and
    [maxScore] it receives, reads [allData.length], and prints numbers in
    its log lines and through [JSON.stringify].  What the runtime does with
    them is
    - [JSON.parse] recognises the JSON number grammar ([lex_number] below)
      and converts the lexeme with StringToNumber, rounding to a double;
    - [JSON.stringify] and template literals print with [Number::toString];
      a non-finite number is printed by [JSON.stringify] as [null];
    - [!x] is [ToBoolean]: false exactly for [+0], [-0] and [NaN];
    - an array length is the number [𝔽(n)].

    The class [JsNumber] gathers these operations, [JsNumberLaws] the
    guarantees ECMA-262 gives about them (the printed form of a finite
    number is a JSON number lexeme that reads back to a number with the same
    printed form).  [JsDecimal] gives an instance. *)

From S2P Require Import Prelude.

(** ** The JSON number grammar, as [JSON.parse] scans it

    [-? (0 | [1-9][0-9]* ) (. [0-9]+)? ([eE] [+-]? [0-9]+)?]: each lexer
    returns the lexeme it consumed and the rest of the text, or [None] for
    a syntax error. *)

Fixpoint take_digits (s : jstr) : jstr * jstr :=
  match s with
  | c :: t =>
      if is_digit c then let '(ds, r) := take_digits t in (c :: ds, r)
      else ([], s)
  | [] => ([], [])
  end.

Definition lex_int (s : jstr) : option (jstr * jstr) :=
  match s with
  | c :: t =>
      if c =? c_zero then Some ([c], t)
      else if is_digit c then let '(ds, r) := take_digits t in Some (c :: ds, r)
      else None
  | [] => None
  end.

Definition lex_frac (s : jstr) : option (jstr * jstr) :=
  match s with
  | c :: t =>
      if c =? c_dot then
        match take_digits t with
        | ([], _) => None
        | (ds, r) => Some (c :: ds, r)
        end
      else Some ([], s)
  | [] => Some ([], [])
  end.

Definition is_exp_mark (c : Z) : bool := (c =? 101) || (c =? 69).

Definition lex_exp (s : jstr) : option (jstr * jstr) :=
  match s with
  | c :: t =>
      if is_exp_mark c then
        let '(sg, t') :=
          match t with
          | d :: t'' => if (d =? c_plus) || (d =? c_minus) then ([d], t'') else ([], t)
          | [] => ([], [])
          end in
        match take_digits t' with
        | ([], _) => None
        | (ds, r) => Some (c :: sg ++ ds, r)
        end
      else Some ([], s)
  | [] => Some ([], [])
  end.

Definition lex_number (s : jstr) : option (jstr * jstr) :=
  let '(sg, s1) :=
    match s with
    | c :: t => if c =? c_minus then ([c], t) else ([], s)
    | [] => ([], [])
    end in
  match lex_int s1 with
  | None => None
  | Some (i, s2) =>
      match lex_frac s2 with
      | None => None
      | Some (f, s3) =>
          match lex_exp s3 with
          | None => None
          | Some (x, s4) => Some (sg ++ i ++ f ++ x, s4)
          end
      end
  end.

(** A text is a JSON number lexeme when the lexer consumes all of it. *)
Definition is_json_number (t : jstr) : bool :=
  match lex_number t with
  | Some (_, []) => true
  | _ => false
  end.

(** ** The interface *)

Class JsNumber := {
  num : Type;
  num_eq_dec :: EqDecision num;
  (** StringToNumber of a JSON number lexeme ([JSON.parse]) *)
  num_of_text : jstr -> num;
  (** [Number::toString(x)] in radix 10 *)
  num_to_string : num -> jstr;
  num_is_finite : num -> bool;
  (** [ToBoolean] of a number *)
  num_truthy : num -> bool;
  (** the number [𝔽(n)], used for array lengths *)
  num_of_nat : nat -> num
}.

(** The decimal digits of a natural number, most significant first. *)
Fixpoint uint_units (d : Decimal.uint) : jstr :=
  match d with
  | Decimal.Nil => []
  | Decimal.D0 d => 48 :: uint_units d
  | Decimal.D1 d => 49 :: uint_units d
  | Decimal.D2 d => 50 :: uint_units d
  | Decimal.D3 d => 51 :: uint_units d
  | Decimal.D4 d => 52 :: uint_units d
  | Decimal.D5 d => 53 :: uint_units d
  | Decimal.D6 d => 54 :: uint_units d
  | Decimal.D7 d => 55 :: uint_units d
  | Decimal.D8 d => 56 :: uint_units d
  | Decimal.D9 d => 57 :: uint_units d
  end.

Definition N_digits (n : N) : jstr := uint_units (N.to_uint n).

(** The largest array length: [2^32 - 1]. *)
Definition max_array_length : Z := 2 ^ 32 - 1.

Class JsNumberLaws `{JsNumber} := {
  (** The printed form of a finite number is a JSON number lexeme. *)
  num_print_lexeme : forall n,
    num_is_finite n = true -> is_json_number (num_to_string n) = true;
  (** Reading the printed form back gives a finite number printed the same
      way (ECMA-262, Number::toString, note on round trips). *)
  num_reparse_finite : forall n,
    num_is_finite n = true -> num_is_finite (num_of_text (num_to_string n)) = true;
  num_reparse_print : forall n,
    num_is_finite n = true ->
    num_to_string (num_of_text (num_to_string n)) = num_to_string n;
  (** Array lengths are printed as their decimal digits. *)
  num_of_nat_print : forall k,
    Z.of_nat k <= max_array_length -> num_to_string (num_of_nat k) = N_digits (N.of_nat k)
}.

(** ** The lexer reads a complete lexeme followed by a delimiter exactly *)

(** [rest] cannot continue a number lexeme that ended before it. *)
Definition num_stop (rest : jstr) : Prop :=
  match rest with
  | [] => True
  | c :: _ => is_digit c = false /\ c <> c_dot /\ is_exp_mark c = false
  end.

Lemma take_digits_split s : (take_digits s).1 ++ (take_digits s).2 = s.
Proof.
  induction s as [|c t IH]; simpl; [done|].
  destruct (is_digit c); [|done]. destruct (take_digits t). simpl in *. by rewrite IH.
Qed.

Lemma take_digits_app s ds r rest :
  take_digits s = (ds, r) -> (r = [] -> num_stop rest) ->
  take_digits (s ++ rest) = (ds, r ++ rest).
Proof.
  revert ds r. induction s as [|c t IH]; intros ds r H Hr; simpl in *.
  - invc H. destruct rest as [|c rest]; [done|]. simpl.
    destruct (Hr eq_refl) as [-> _]. done.
  - destruct (is_digit c) eqn:Ed.
    + destruct (take_digits t) as [ds' r'] eqn:Et. invc H.
      by rewrite (IH ds' r eq_refl Hr).
    + by invc H.
Qed.

Lemma lex_int_app s i r rest :
  lex_int s = Some (i, r) -> (r = [] -> num_stop rest) ->
  lex_int (s ++ rest) = Some (i, r ++ rest).
Proof.
  destruct s as [|c t]; simpl; [done|]. intros H Hr.
  destruct (c =? c_zero); [by invc H|].
  destruct (is_digit c); [|done].
  destruct (take_digits t) as [ds r'] eqn:Et. invc H.
  by rewrite (take_digits_app _ _ _ _ Et Hr).
Qed.

Lemma lex_frac_app s f r rest :
  lex_frac s = Some (f, r) -> (r = [] -> num_stop rest) ->
  lex_frac (s ++ rest) = Some (f, r ++ rest).
Proof.
  destruct s as [|c t]; simpl; intros H Hr.
  - invc H. destruct rest as [|c rest]; [done|]. simpl.
    destruct (Hr eq_refl) as (_ & Hd & _). by rewrite (proj2 (Z.eqb_neq _ _) Hd).
  - destruct (c =? c_dot); [|by invc H].
    destruct (take_digits t) as [ds r'] eqn:Et. destruct ds as [|d ds]; [done|].
    invc H. by rewrite (take_digits_app _ _ _ _ Et Hr).
Qed.

Lemma lex_exp_app s x r rest :
  lex_exp s = Some (x, r) -> (r = [] -> num_stop rest) ->
  lex_exp (s ++ rest) = Some (x, r ++ rest).
Proof.
  destruct s as [|c t]; simpl; intros H Hr.
  - invc H. destruct rest as [|c rest]; [done|]. simpl.
    destruct (Hr eq_refl) as (_ & _ & ->). done.
  - destruct (is_exp_mark c); [|by invc H].
    destruct t as [|d t]; simpl in *; [done|].
    destruct ((d =? c_plus) || (d =? c_minus)).
    + destruct (take_digits t) as [ds r'] eqn:Et. destruct ds as [|e ds]; [done|].
      invc H. by rewrite (take_digits_app _ _ _ _ Et Hr).
    + destruct (take_digits (d :: t)) as [ds r'] eqn:Et. destruct ds as [|e ds]; [done|].
      invc H. change (d :: t ++ rest) with ((d :: t) ++ rest).
      by rewrite (take_digits_app _ _ _ _ Et Hr).
Qed.

Lemma lex_number_app s l r rest :
  lex_number s = Some (l, r) -> (r = [] -> num_stop rest) ->
  lex_number (s ++ rest) = Some (l, r ++ rest).
Proof.
  unfold lex_number. intros H Hr.
  assert (Hsg : forall sg s1,
    match s with c :: t => if c =? c_minus then ([c], t) else ([], s) | [] => ([], []) end = (sg, s1) ->
    match s ++ rest with c :: t => if c =? c_minus then ([c], t) else ([], s ++ rest) | [] => ([], []) end
      = (sg, s1 ++ rest)).
  { intros sg s1. destruct s as [|c t]; simpl; [by intros [= <- <-]|].
    destruct (c =? c_minus); by intros [= <- <-]. }
  destruct (match s with c :: t => _ | [] => _ end) as [sg s1] eqn:E1.
  rewrite (Hsg _ _ eq_refl).
  destruct (lex_int s1) as [[i s2]|] eqn:E2; [|done].
  destruct (lex_frac s2) as [[f s3]|] eqn:E3; [|done].
  destruct (lex_exp s3) as [[x s4]|] eqn:E4; [|done]. invc H.
  assert (H3 : s3 = [] -> num_stop rest).
  { intros ->. simpl in E4. invc E4. auto. }
  assert (H2 : s2 = [] -> num_stop rest).
  { intros ->. simpl in E3. invc E3. auto. }
  rewrite (lex_int_app _ _ _ _ E2 H2), (lex_frac_app _ _ _ _ E3 H3),
    (lex_exp_app _ _ _ _ E4 Hr). done.
Qed.

Lemma take_digits_eq s ds r : take_digits s = (ds, r) -> s = ds ++ r.
Proof. intros E. pose proof (take_digits_split s) as H. by rewrite E in H. Qed.

Lemma lex_int_split s i r : lex_int s = Some (i, r) -> s = i ++ r.
Proof.
  destruct s as [|c t]; simpl; [done|].
  destruct (c =? c_zero); [by intros [= <- <-]|]. destruct (is_digit c); [|done].
  destruct (take_digits t) eqn:E. intros [= <- <-]. by rewrite (take_digits_eq _ _ _ E).
Qed.

Lemma lex_frac_split s f r : lex_frac s = Some (f, r) -> s = f ++ r.
Proof.
  destruct s as [|c t]; simpl; [by intros [= <- <-]|].
  destruct (c =? c_dot) eqn:Ec; [|by intros [= <- <-]]. zbool. subst.
  destruct (take_digits t) as [[|d ds] r'] eqn:E; [done|].
  intros [= <- <-]. by rewrite (take_digits_eq _ _ _ E).
Qed.

Lemma lex_exp_split s x r : lex_exp s = Some (x, r) -> s = x ++ r.
Proof.
  destruct s as [|c t]; simpl; [by intros [= <- <-]|].
  destruct (is_exp_mark c); [|by intros [= <- <-]].
  destruct t as [|d t]; [done|].
  destruct ((d =? c_plus) || (d =? c_minus)).
  - destruct (take_digits t) as [[|e ds] r'] eqn:E; [done|].
    intros [= <- <-]. by rewrite (take_digits_eq _ _ _ E).
  - destruct (take_digits (d :: t)) as [[|e ds] r'] eqn:E; [done|].
    intros [= <- <-]. by rewrite (take_digits_eq _ _ _ E).
Qed.

Lemma lex_number_split s l r : lex_number s = Some (l, r) -> s = l ++ r.
Proof.
  unfold lex_number.
  assert (Hs : forall sg s1,
    match s with c :: t => if c =? c_minus then ([c], t) else ([], s) | [] => ([], []) end
      = (sg, s1) -> s = sg ++ s1).
  { intros sg s1. destruct s as [|c t]; [by intros [= <- <-]|].
    destruct (c =? c_minus); by intros [= <- <-]. }
  destruct (match s with c :: t => _ | [] => _ end) as [sg s1] eqn:E1.
  destruct (lex_int s1) as [[i s2]|] eqn:E2; [|done].
  destruct (lex_frac s2) as [[f s3]|] eqn:E3; [|done].
  destruct (lex_exp s3) as [[x s4]|] eqn:E4; [|done].
  intros [= <- <-].
  rewrite (Hs _ _ eq_refl), (lex_int_split _ _ _ E2), (lex_frac_split _ _ _ E3),
    (lex_exp_split _ _ _ E4). by rewrite !app_assoc.
Qed.

(** A lexeme followed by a delimiter is read back exactly. *)
Lemma lex_number_lexeme t rest :
  is_json_number t = true -> num_stop rest -> lex_number (t ++ rest) = Some (t, rest).
Proof.
  unfold is_json_number. destruct (lex_number t) as [[l [|c r]]|] eqn:E; try done.
  intros _ Hr. pose proof (lex_number_split _ _ _ E) as Ht. rewrite app_nil_r in Ht. subst l.
  exact (lex_number_app _ _ _ _ E (fun _ => Hr)).
Qed.

(** A lexeme is made of the ASCII units of the grammar only. *)
Definition num_char (c : Z) : bool :=
  is_digit c || (c =? c_minus) || (c =? c_plus) || (c =? c_dot) || is_exp_mark c.

Lemma take_digits_chars s : forallb num_char (take_digits s).1 = true.
Proof.
  induction s as [|c t IH]; simpl; [done|].
  destruct (is_digit c) eqn:Ed; [|done]. destruct (take_digits t). simpl in *.
  by rewrite IH, andb_true_r; unfold num_char; rewrite Ed.
Qed.

Lemma num_char_digit c : is_digit c = true -> num_char c = true.
Proof. unfold num_char. by intros ->. Qed.

Lemma lex_number_chars s l r : lex_number s = Some (l, r) -> forallb num_char l = true.
Proof.
  unfold lex_number.
  destruct (match s with c :: t => _ | [] => _ end) as [sg s1] eqn:E1.
  assert (Hsg : forallb num_char sg = true).
  { destruct s as [|c t]; [by invc E1|]. destruct (c =? c_minus) eqn:Ec; invc E1; [|done].
    simpl. unfold num_char. by rewrite Ec, !orb_true_r. }
  destruct (lex_int s1) as [[i s2]|] eqn:E2; [|done].
  destruct (lex_frac s2) as [[f s3]|] eqn:E3; [|done].
  destruct (lex_exp s3) as [[x s4]|] eqn:E4; [|done].
  intros [= <- _]. rewrite !forallb_app, Hsg. simpl.
  assert (Hi : forallb num_char i = true).
  { destruct s1 as [|c t]; simpl in E2; [done|].
    destruct (c =? c_zero) eqn:Ec; [invc E2; simpl; unfold num_char, is_digit; zbool; subst; done|].
    destruct (is_digit c) eqn:Ed; [|done]. destruct (take_digits t) eqn:Et. invc E2.
    pose proof (take_digits_chars t) as H; rewrite Et in H. simpl. by rewrite num_char_digit. }
  assert (Hf : forallb num_char f = true).
  { destruct s2 as [|c t]; simpl in E3; [by invc E3|].
    destruct (c =? c_dot) eqn:Ec; [|by invc E3].
    destruct (take_digits t) as [[|d ds] r'] eqn:Et; [done|]. invc E3.
    pose proof (take_digits_chars t) as H; rewrite Et in H. simpl in *. rewrite H, andb_true_r.
    unfold num_char. by rewrite Ec, !orb_true_r. }
  assert (Hx : forallb num_char x = true).
  { destruct s3 as [|c t]; simpl in E4; [by invc E4|].
    destruct (is_exp_mark c) eqn:Ec; [|by invc E4].
    assert (Hc : num_char c = true) by (unfold num_char; by rewrite Ec, !orb_true_r).
    destruct t as [|d t]; [done|].
    destruct ((d =? c_plus) || (d =? c_minus)) eqn:Ed.
    - destruct (take_digits t) as [[|e ds] r'] eqn:Et; [done|]. invc E4.
      pose proof (take_digits_chars t) as H; rewrite Et in H. simpl in *. rewrite Hc, H, andb_true_r.
      unfold num_char. apply orb_true_iff in Ed as [Ed|Ed]; rewrite Ed, ?orb_true_r; done.
    - destruct (take_digits (d :: t)) as [[|e ds] r'] eqn:Et; [done|]. invc E4.
      pose proof (take_digits_chars (d :: t)) as H; rewrite Et in H. simpl in *. by rewrite Hc, H. }
  by rewrite Hi, Hf, Hx.
Qed.

Lemma num_char_ascii c : num_char c = true -> 0 <= c < 128.
Proof. unfold num_char, is_exp_mark, is_digit. intros H. repeat (apply orb_true_iff in H as [H|H]); zbool; unfold c_minus, c_plus, c_dot in *; lia. Qed.
