(* ===== verification/JsDecimal.v ===== *)
(** * JavaScript numbers as exact decimals in the double range

    [decimal_number] is an instance of [JsNumber] in which a number is
    an exact decimal [±m·10^e], [±Infinity] or [NaN]: StringToNumber
    ([dnum_of_text]) overflows to [±Infinity] and underflows to [0] at the
    binary64 thresholds, but the 53-bit rounding of the significand is not
    modelled, so [0.1 + 0.2]-like rounding never shows (the server never
    computes with numbers).  Number::toString ([dnum_to_string]) follows
    ECMA-262 6.1.6.1.20, steps 6 to 10.

    The second half proves the laws [JsNumberLaws] for it
    ([decimal_laws]): the printed form of a finite number is a JSON number
    lexeme, reading it back gives a number printed the same way, and an
    array length is printed as its decimal digits.  The proofs go through
    the digit strings of [N] ([N_digits], the Standard Library's
    [N.to_uint]) and a decomposition of every printed form into the
    integer, fraction and exponent parts of the JSON number grammar.

    The instance and its laws are not declared as instances: a file uses
    them with [Existing Instance] where it evaluates concrete values. *)

From Stdlib Require Import DecimalN.
From S2P Require Import Prelude JsNumber.



(** A number is finite with a sign, a significand [m] and an exponent [e]
    (its value is [±m·10^e]), infinite with a sign, or [NaN]. *)
Inductive dnum :=
| DFin (neg : bool) (m : N) (e : Z)
| DInf (neg : bool)
| DNaN.

#[export] Instance dnum_eq_dec : EqDecision dnum.
Proof. solve_decision. Defined.

(** Values at or above [2^1024 - 2^970] round to [Infinity] in binary64;
    values at or below [2^-1075] round to zero. *)
Definition overflow_bound : Z := 2 ^ 1024 - 2 ^ 970.

Definition ndigits (m : N) : Z := Z.of_nat (length (N_digits m)).

Definition overflows (m : N) (e : Z) : bool :=
  let k := ndigits m in
  if e + k <=? 308 then false
  else if 309 <=? e then true
  else if 0 <=? e then overflow_bound <=? Z.of_N m * 10 ^ e
  else overflow_bound * 10 ^ (- e) <=? Z.of_N m.

Definition underflows (m : N) (e : Z) : bool :=
  let k := ndigits m in
  if -322 <=? e + k then false
  else if e + k <=? -324 then true
  else Z.of_N m * 2 ^ 1075 <=? 10 ^ (- e).

(** Strip the trailing zeros of the significand. *)
Fixpoint strip_zeros (fuel : nat) (m : N) (e : Z) : N * Z :=
  match fuel with
  | O => (m, e)
  | S f =>
      if (m =? 0)%N then (0%N, 0)
      else if (m mod 10 =? 0)%N then strip_zeros f (m / 10)%N (e + 1)
      else (m, e)
  end.

(** Rounding an exact decimal to the number it denotes. *)
Definition dround (neg : bool) (m : N) (e : Z) : dnum :=
  let '(m', e') := strip_zeros (N.to_nat (N.size m)) m e in
  if (m' =? 0)%N then DFin neg 0 0
  else if overflows m' e' then DInf neg
  else if underflows m' e' then DFin neg 0 0
  else DFin neg m' e'.

(** The values [dround] produces. *)
Definition dcanon (d : dnum) : bool :=
  match d with
  | DFin _ m e =>
      if (m =? 0)%N then e =? 0
      else negb (m mod 10 =? 0)%N && negb (overflows m e) && negb (underflows m e)
  | _ => true
  end.

(** The value of the digits of a lexeme part. *)
Definition digits_value (ds : jstr) : N :=
  fold_left (fun acc d => acc * 10 + Z.to_N (d - c_zero))%N ds 0%N.

(** Split a JSON number lexeme into sign, significand and exponent. *)
Definition decode_number (t : jstr) : bool * N * Z :=
  let '(neg, t1) :=
    match t with
    | c :: r => if c =? c_minus then (true, r) else (false, t)
    | [] => (false, [])
    end in
  let '(ip, t2) := take_digits t1 in
  let '(fp, t3) :=
    match t2 with
    | c :: r => if c =? c_dot then take_digits r else ([], t2)
    | [] => ([], [])
    end in
  let x :=
    match t3 with
    | c :: r =>
        if is_exp_mark c then
          match r with
          | d :: r' =>
              if d =? c_minus then - Z.of_N (digits_value r')
              else if d =? c_plus then Z.of_N (digits_value r')
              else Z.of_N (digits_value r)
          | [] => 0
          end
        else 0
    | [] => 0
    end in
  (neg, digits_value (ip ++ fp), x - Z.of_nat (length fp)).

Definition dnum_of_text (t : jstr) : dnum :=
  let '(neg, m, e) := decode_number t in dround neg m e.

Definition zeros (k : nat) : jstr := repeat c_zero k.

Definition exp_part (x : Z) : jstr :=
  101 :: (if 0 <=? x then c_plus else c_minus) :: N_digits (Z.abs_N x).

(** Number::toString, steps 6 to 10, for [m·10^e] with [m > 0]: [ds] are
    the digits, [k] their count and [n] the position of the point. *)
Definition pos_to_string (m : N) (e : Z) : jstr :=
  let ds := N_digits m in
  let k := Z.of_nat (length ds) in
  let n := e + k in
  if (k <=? n) && (n <=? 21) then ds ++ zeros (Z.to_nat (n - k))
  else if (0 <? n) && (n <=? 21) then
    take (Z.to_nat n) ds ++ c_dot :: drop (Z.to_nat n) ds
  else if (-6 <? n) && (n <=? 0) then c_zero :: c_dot :: zeros (Z.to_nat (- n)) ++ ds
  else
    match ds with
    | [d] => d :: exp_part (n - 1)
    | d :: rest => d :: c_dot :: rest ++ exp_part (n - 1)
    | [] => []
    end.

Definition dnum_to_string (d : dnum) : jstr :=
  match d with
  | DNaN => ⟪"NaN"⟫
  | DInf false => ⟪"Infinity"⟫
  | DInf true => ⟪"-Infinity"⟫
  | DFin neg m e =>
      if (m =? 0)%N then ⟪"0"⟫
      else (if neg then [c_minus] else []) ++ pos_to_string m e
  end.

Definition dnum_truthy (d : dnum) : bool :=
  match d with
  | DFin _ m _ => negb (m =? 0)%N
  | DInf _ => true
  | DNaN => false
  end.

Definition dnum_is_finite (d : dnum) : bool :=
  match d with DFin _ _ _ => true | _ => false end.


(** *** Every rounded value is canonical *)

Lemma strip_zeros_nz f m e :
  (m < 2 ^ N.of_nat f)%N ->
  (strip_zeros f m e).1 <> 0%N -> ((strip_zeros f m e).1 mod 10 <> 0)%N.
Proof.
  revert m e. induction f as [|f IH]; intros m e Hm; simpl.
  - intros Hnz. exfalso. apply Hnz. simpl in Hm. lia.
  - destruct (m =? 0)%N eqn:E0; [done|].
    destruct (m mod 10 =? 0)%N eqn:E10.
    + apply IH. apply N.eqb_neq in E0. apply N.eqb_eq in E10.
      rewrite Nat2N.inj_succ, N.pow_succ_r' in Hm. 
      apply (N.Div0.div_lt_upper_bound m 10); lia.
    + intros _. simpl. by apply N.eqb_neq.
Qed.

Lemma dround_canon neg m e : dcanon (dround neg m e) = true.
Proof.
  unfold dround.
  pose proof (strip_zeros_nz (N.to_nat (N.size m)) m e) as Hs.
  rewrite N2Nat.id in Hs. specialize (Hs (N.size_gt m)).
  destruct (strip_zeros _ m e) as [m' e']. simpl in Hs.
  destruct (m' =? 0)%N eqn:E0; [done|].
  destruct (overflows m' e') eqn:Eo; [done|].
  destruct (underflows m' e') eqn:Eu; [done|].
  simpl. rewrite E0, Eo, Eu. apply N.eqb_neq in E0.
  specialize (Hs E0). apply N.eqb_neq in Hs. by rewrite Hs.
Qed.

(** *** The instance *)

Definition dec : Type := { d : dnum | dcanon d = true }.

#[export] Instance dec_eq_dec : EqDecision dec.
Proof. apply _. Defined.

Definition dec_round (neg : bool) (m : N) (e : Z) : dec :=
  exist _ (dround neg m e) (dround_canon neg m e).

Definition dec_of_text (t : jstr) : dec :=
  let '(neg, m, e) := decode_number t in dec_round neg m e.

Definition decimal_number : JsNumber := {|
  num := dec;
  num_of_text := dec_of_text;
  num_to_string d := dnum_to_string (proj1_sig d);
  num_is_finite d := dnum_is_finite (proj1_sig d);
  num_truthy d := dnum_truthy (proj1_sig d);
  num_of_nat k := dec_round false (N.of_nat k) 0
|}.


(** ** Digit strings and the laws *)

(** ** Digit strings *)

Definition digit_step (acc : N) (d : Z) : N := (acc * 10 + Z.to_N (d - c_zero))%N.

Lemma digits_value_fold l : digits_value l = fold_left digit_step l 0%N.
Proof. done. Qed.

Lemma fold_digit_step l x :
  fold_left digit_step l x = (x * 10 ^ N.of_nat (length l) + fold_left digit_step l 0)%N.
Proof.
  revert x. induction l as [|d l IH]; intros x; simpl; [lia|].
  rewrite (IH (digit_step x d)), (IH (digit_step 0 d)). unfold digit_step.
  rewrite Nat2N.inj_succ, N.pow_succ_r'. lia.
Qed.

Lemma digits_value_app a b :
  digits_value (a ++ b) = (digits_value a * 10 ^ N.of_nat (length b) + digits_value b)%N.
Proof. rewrite !digits_value_fold, fold_left_app. apply fold_digit_step. Qed.

Lemma digits_value_zeros j : digits_value (zeros j) = 0%N.
Proof.
  rewrite digits_value_fold. unfold zeros. induction j as [|j IH]; [done|].
  simpl. rewrite fold_digit_step, IH. unfold digit_step. simpl. lia.
Qed.

Lemma uint_units_acc d acc :
  fold_left digit_step (uint_units d) (Npos acc) = Npos (Pos.of_uint_acc d acc).
Proof.
  revert acc. induction d; intros acc; simpl; [done|..]; rewrite <- IHd; f_equal;
    unfold digit_step; simpl; lia.
Qed.

Lemma uint_units_value d : digits_value (uint_units d) = N.of_uint d.
Proof.
  rewrite digits_value_fold. induction d; simpl; try done; apply uint_units_acc.
Qed.

Lemma N_digits_value m : digits_value (N_digits m) = m.
Proof. unfold N_digits. by rewrite uint_units_value, DecimalN.Unsigned.of_to. Qed.

Definition digits_ok (ds : jstr) : bool := forallb is_digit ds.

Lemma uint_units_digits d : digits_ok (uint_units d) = true.
Proof. induction d; simpl; by rewrite ?IHd. Qed.

(** The digit string read back as a [Decimal.uint]. *)
Definition digit_of (c : Z) (u : Decimal.uint) : Decimal.uint :=
  if c =? 48 then Decimal.D0 u else if c =? 49 then Decimal.D1 u
  else if c =? 50 then Decimal.D2 u else if c =? 51 then Decimal.D3 u
  else if c =? 52 then Decimal.D4 u else if c =? 53 then Decimal.D5 u
  else if c =? 54 then Decimal.D6 u else if c =? 55 then Decimal.D7 u
  else if c =? 56 then Decimal.D8 u else Decimal.D9 u.

Fixpoint to_uint (ds : jstr) : Decimal.uint :=
  match ds with [] => Decimal.Nil | c :: r => digit_of c (to_uint r) end.

Lemma digit_cases c : is_digit c = true ->
  c = 48 \/ c = 49 \/ c = 50 \/ c = 51 \/ c = 52 \/ c = 53 \/ c = 54 \/ c = 55 \/ c = 56 \/ c = 57.
Proof. rewrite is_digit_true. lia. Qed.

Lemma to_uint_units ds : digits_ok ds = true -> uint_units (to_uint ds) = ds.
Proof.
  induction ds as [|c r IH]; simpl; [done|]. rewrite andb_true_iff. intros [Hc Hr].
  destruct (digit_cases c Hc) as [->|[->|[->|[->|[->|[->|[->|[->|[->| ->]]]]]]]]];
    simpl; by rewrite IH.
Qed.

(** A digit string without a leading zero is the decimal form of its value. *)
Lemma N_digits_of_value c r :
  digits_ok (c :: r) = true -> c <> 48 -> N_digits (digits_value (c :: r)) = c :: r.
Proof.
  intros Hd Hc. rewrite <- (to_uint_units _ Hd) at 1. rewrite uint_units_value.
  unfold N_digits. rewrite DecimalN.Unsigned.to_of.
  assert (Hc' : is_digit c = true) by (simpl in Hd; by apply andb_true_iff in Hd as [? _]).
  replace (Decimal.unorm (to_uint (c :: r))) with (to_uint (c :: r)); [by apply to_uint_units|].
  destruct (digit_cases c Hc') as [->|[->|[->|[->|[->|[->|[->|[->|[->| ->]]]]]]]]]; done.
Qed.

Lemma unorm_head d :
  Decimal.unorm d = Decimal.zero \/
  exists c r, uint_units (Decimal.unorm d) = c :: r /\ c <> 48.
Proof.
  unfold Decimal.unorm. induction d; simpl; try (right; eexists _, _; split; [done|lia]).
  all: first [by left | exact IHd].
Qed.

(** The decimal form of a positive number starts with a non-zero digit. *)
Lemma N_digits_head m : m <> 0%N -> exists c r, N_digits m = c :: r /\ c <> 48 /\ is_digit c = true.
Proof.
  intros Hm. unfold N_digits.
  assert (E : N.to_uint m = Decimal.unorm (N.to_uint m)).
  { rewrite <- DecimalN.Unsigned.to_of. by rewrite DecimalN.Unsigned.of_to. }
  destruct (unorm_head (N.to_uint m)) as [Hz|(c & r & Hu & Hc)].
  - exfalso. apply Hm. rewrite <- (DecimalN.Unsigned.of_to m), E, Hz. done.
  - exists c, r. rewrite E, Hu. split_and!; [done|done|].
    pose proof (uint_units_digits (Decimal.unorm (N.to_uint m))) as Hd. rewrite Hu in Hd.
    simpl in Hd. by apply andb_true_iff in Hd as [? _].
Qed.

(** ** The parts of a printed number

    A printed number is [sg ++ i ++ f ++ x]: a sign, an integer part, a
    fraction part and an exponent part of the JSON number grammar. *)

Definition int_ok (i : jstr) : Prop :=
  i = [c_zero] \/ exists c r, i = c :: r /\ c <> 48 /\ digits_ok (c :: r) = true.

Definition frac_ok (f : jstr) : Prop :=
  f = [] \/ exists fd, f = c_dot :: fd /\ fd <> [] /\ digits_ok fd = true.

Definition exp_ok (x : jstr) : Prop :=
  x = [] \/ exists s xd, x = 101 :: s :: xd /\ (s = c_plus \/ s = c_minus) /\ xd <> [] /\
    digits_ok xd = true.

Definition exp_value (x : jstr) : Z :=
  match x with
  | _ :: s :: xd => if s =? c_minus then - Z.of_N (digits_value xd) else Z.of_N (digits_value xd)
  | _ => 0
  end.

Definition nondigit_start (r : jstr) : bool :=
  match r with [] => true | c :: _ => negb (is_digit c) end.

Lemma take_digits_ok ds r :
  digits_ok ds = true -> nondigit_start r = true -> take_digits (ds ++ r) = (ds, r).
Proof.
  induction ds as [|c ds IH]; simpl.
  - intros _. destruct r as [|c r]; simpl; [done|]. by destruct (is_digit c).
  - rewrite andb_true_iff. intros [-> Hds] Hr. by rewrite IH.
Qed.

Lemma int_ok_digits i : int_ok i -> digits_ok i = true /\ exists c r, i = c :: r /\ is_digit c = true.
Proof.
  intros [->|(c & r & -> & _ & Hd)]; [split; [done|]; by eexists _, _|].
  split; [done|]. exists c, r. split; [done|]. simpl in Hd. by apply andb_true_iff in Hd as [? _].
Qed.

Lemma frac_exp_start f x : frac_ok f -> exp_ok x -> nondigit_start (f ++ x) = true.
Proof. by intros [->|(fd & -> & _)] [->|(s & xd & -> & _)]. Qed.

Lemma exp_start x : exp_ok x -> nondigit_start x = true.
Proof. by intros [->|(s & xd & -> & _)]. Qed.

Lemma lex_exp_ok x : exp_ok x -> lex_exp x = Some (x, []).
Proof.
  intros [->|(s & xd & -> & Hs & Hne & Hd)]; [done|]. simpl.
  assert (Hsg : (s =? c_plus) || (s =? c_minus) = true) by (destruct Hs as [-> | ->]; done).
  rewrite Hsg. rewrite <- (app_nil_r xd), take_digits_ok by done.
  destruct xd; [done|]. by rewrite app_nil_r.
Qed.

Lemma lex_frac_ok f x : frac_ok f -> exp_ok x -> lex_frac (f ++ x) = Some (f, x).
Proof.
  intros [->|(fd & -> & Hne & Hd)] Hx.
  - destruct Hx as [->|(s & xd & -> & _)]; done.
  - simpl. rewrite take_digits_ok by (done || by apply exp_start). by destruct fd.
Qed.

Lemma lex_int_ok i r : int_ok i -> nondigit_start r = true -> lex_int (i ++ r) = Some (i, r).
Proof.
  intros [->|(c & t & -> & Hc & Hd)] Hr; [done|]. simpl in Hd |- *.
  apply andb_true_iff in Hd as [Hcd Ht]. apply Z.eqb_neq in Hc.
  change c_zero with 48. rewrite Hc, Hcd. by rewrite take_digits_ok.
Qed.

Lemma sign_split (sg s : jstr) :
  (sg = [] \/ sg = [c_minus]) -> (forall c t, s = c :: t -> c <> c_minus) ->
  match sg ++ s with c :: t => if c =? c_minus then ([c], t) else ([], sg ++ s) | [] => ([], []) end
    = (sg, s).
Proof.
  intros [-> | ->] Hs; [|done]. simpl. destruct s as [|c t]; [done|].
  specialize (Hs c t eq_refl). by rewrite (proj2 (Z.eqb_neq _ _) Hs).
Qed.

(** The printed forms are lexemes. *)
Lemma lex_number_parts sg i f x :
  (sg = [] \/ sg = [c_minus]) -> int_ok i -> frac_ok f -> exp_ok x ->
  lex_number (sg ++ i ++ f ++ x) = Some (sg ++ i ++ f ++ x, []).
Proof.
  intros Hsg Hi Hf Hx. unfold lex_number.
  destruct (int_ok_digits i Hi) as [Hid (c & r & Ei & Hc)].
  rewrite sign_split by (done || (rewrite Ei; intros ? ? [= <- _]; apply is_digit_true in Hc;
    unfold c_minus; lia)).
  rewrite lex_int_ok by (done || by apply frac_exp_start).
  by rewrite lex_frac_ok, lex_exp_ok.
Qed.

(** The decomposition [StringToNumber] makes of the printed forms. *)
Lemma decode_number_parts sg i f x :
  (sg = [] \/ sg = [c_minus]) -> int_ok i -> frac_ok f -> exp_ok x ->
  decode_number (sg ++ i ++ f ++ x) =
    (bool_decide (sg = [c_minus]), digits_value (i ++ tail f), exp_value x - Z.of_nat (length (tail f))).
Proof.
  intros Hsg Hi Hf Hx. unfold decode_number.
  destruct (int_ok_digits i Hi) as [Hid (c & r & Ei & Hc)].
  assert (Hneg : match sg ++ i ++ f ++ x with
                 | c :: r => if c =? c_minus then (true, r) else (false, sg ++ i ++ f ++ x)
                 | [] => (false, []) end = (bool_decide (sg = [c_minus]), i ++ f ++ x)).
  { destruct Hsg as [-> | ->]; [|done]. rewrite Ei. simpl.
    apply is_digit_true in Hc. rewrite (proj2 (Z.eqb_neq c c_minus)); [done|unfold c_minus; lia]. }
  rewrite Hneg. rewrite take_digits_ok by (done || by apply frac_exp_start).
  destruct Hf as [->|(fd & -> & Hne & Hfd)].
  - destruct Hx as [->|(s & xd & -> & Hs & _)]; simpl; [by rewrite app_nil_r|].
    rewrite app_nil_r. destruct Hs as [-> | ->]; done.
  - simpl. rewrite take_digits_ok by (done || by apply exp_start).
    destruct Hx as [->|(s & xd & -> & Hs & _)]; [done|]. simpl.
    destruct Hs as [-> | ->]; done.
Qed.

(** ** Number::toString prints the parts of the grammar *)

Lemma digits_ok_app a b : digits_ok (a ++ b) = digits_ok a && digits_ok b.
Proof. apply forallb_app. Qed.

Lemma digits_ok_zeros j : digits_ok (zeros j) = true.
Proof. unfold zeros. induction j; simpl; by rewrite ?IHj. Qed.

Lemma digits_ok_take n l : digits_ok l = true -> digits_ok (take n l) = true.
Proof. intros H. rewrite <- (take_drop n l), digits_ok_app in H. by apply andb_true_iff in H as [? _]. Qed.

Lemma digits_ok_drop n l : digits_ok l = true -> digits_ok (drop n l) = true.
Proof. intros H. rewrite <- (take_drop n l), digits_ok_app in H. by apply andb_true_iff in H as [_ ?]. Qed.

Lemma N_digits_ok m : digits_ok (N_digits m) = true.
Proof. apply uint_units_digits. Qed.

Lemma N_digits_nonempty m : N_digits m <> [].
Proof.
  destruct (decide (m = 0%N)) as [->|Hm]; [done|].
  by destruct (N_digits_head m Hm) as (c & r & -> & _).
Qed.

Lemma exp_part_ok y : exp_ok (exp_part y) /\ exp_value (exp_part y) = y.
Proof.
  unfold exp_part. split.
  - right. eexists _, _. split_and!; [done| |apply N_digits_nonempty|apply N_digits_ok].
    case_match; [left|right]; done.
  - simpl. rewrite N_digits_value. destruct (0 <=? y) eqn:E; zbool; simpl; lia.
Qed.

(** Each printed form of [m·10^e] with [m > 0] is [i ++ f ++ x] with
    digits [i ++ tail f] of value [m·10^j] and the exponent shifted by
    [j] (the zeros printed after the digits of an integer). *)
Lemma pos_to_string_parts m e :
  m <> 0%N ->
  exists i f x j, pos_to_string m e = i ++ f ++ x /\ int_ok i /\ frac_ok f /\ exp_ok x /\
    digits_value (i ++ tail f) = (m * 10 ^ N.of_nat j)%N /\
    exp_value x - Z.of_nat (length (tail f)) = e - Z.of_nat j.
Proof.
  intros Hm. destruct (N_digits_head m Hm) as (c & r & Eds & Hc & Hcd).
  pose proof (N_digits_ok m) as Hok. pose proof (N_digits_value m) as Hv.
  rewrite Eds in Hok, Hv. simpl in Hok. apply andb_true_iff in Hok as [_ Hr].
  unfold pos_to_string. rewrite Eds. cbn zeta. set (k := Z.of_nat (length (c :: r))).
  assert (Hk : k = Z.of_nat (S (length r))) by done.
  destruct ((k <=? e + k) && (e + k <=? 21)) eqn:E1; [|destruct ((0 <? e + k) && (e + k <=? 21)) eqn:E2;
    [|destruct ((-6 <? e + k) && (e + k <=? 0)) eqn:E3]]; zbool.
  - exists (c :: r ++ zeros (Z.to_nat (e + k - k))), [], [], (Z.to_nat (e + k - k)).
    split_and!; [by rewrite !app_nil_r|right; eexists _, _; split_and!; try done|by left|by left| |].
    + simpl. by rewrite Hcd, digits_ok_app, Hr, digits_ok_zeros.
    + simpl. rewrite app_nil_r, app_comm_cons, digits_value_app, digits_value_zeros, Hv.
      unfold zeros. rewrite repeat_length. lia.
    + simpl. lia.
  - destruct (Z.to_nat (e + k)) as [|p] eqn:En; [lia|].
    assert (Hp : (p < length r)%nat) by (apply andb_false_iff in E1 as [E1|E1]; zbool; lia).
    exists (c :: take p r), (c_dot :: drop p r), [], 0%nat.
    split_and!; [by rewrite app_nil_r|right; eexists _, _; split_and!; try done| |by left| |].
    + simpl. by rewrite Hcd, digits_ok_take.
    + right. eexists. split_and!; [done| |by apply digits_ok_drop].
      intros Hd. apply (f_equal length) in Hd. rewrite length_drop in Hd. simpl in Hd. lia.
    + simpl tail. rewrite <- app_comm_cons, take_drop, Hv. lia.
    + simpl. rewrite length_drop. lia.
  - exists [c_zero], (c_dot :: zeros (Z.to_nat (- (e + k))) ++ c :: r), [], 0%nat.
    split_and!; [by rewrite app_nil_r|by left| |by left| |].
    + right. eexists. split_and!; [done|by destruct (zeros _)|].
      rewrite digits_ok_app, digits_ok_zeros. simpl. by rewrite Hcd, Hr.
    + simpl tail. rewrite (digits_value_app [c_zero]), digits_value_app, digits_value_zeros, Hv.
      change (digits_value [c_zero]) with 0%N. lia.
    + simpl tail. rewrite length_app. unfold zeros. rewrite repeat_length. simpl. lia.
  - destruct r as [|d rest].
    + destruct (exp_part_ok (e + k - 1)) as [Hx Hxv].
      exists [c], [], (exp_part (e + k - 1)), 0%nat.
      split_and!; [done|right; exists c, []; split_and!; try done; simpl; by rewrite Hcd|by left|done| |].
      * simpl. rewrite Hv. lia.
      * rewrite Hxv. simpl in Hk |- *. lia.
    + destruct (exp_part_ok (e + k - 1)) as [Hx Hxv].
      exists [c], (c_dot :: d :: rest), (exp_part (e + k - 1)), 0%nat.
      split_and!; [done|right; exists c, []; split_and!; try done; simpl; by rewrite Hcd| |done| |].
      * right. eexists. by split_and!.
      * cbn [tail app]. rewrite Hv. lia.
      * rewrite Hxv. simpl in Hk |- *. lia.
Qed.

(** ** Rounding gives back a canonical number *)

Lemma strip_zeros_mul f m e j :
  m <> 0%N -> (m mod 10 <> 0)%N -> (j < f)%nat ->
  strip_zeros f (m * 10 ^ N.of_nat j) (e - Z.of_nat j) = (m, e).
Proof.
  revert f. induction j as [|j IH]; intros [|f] Hm Hmod Hf; try lia; simpl.
  - rewrite N.mul_1_r, Z.sub_0_r. by rewrite (proj2 (N.eqb_neq _ _) Hm), (proj2 (N.eqb_neq _ _) Hmod).
  - assert (E : (m * 10 ^ N.of_nat (S j) = m * 10 ^ N.of_nat j * 10)%N)
      by (rewrite Nat2N.inj_succ, N.pow_succ_r'; lia).
    rewrite E. rewrite (proj2 (N.eqb_neq _ _)) by lia. rewrite N.Div0.mod_mul. simpl.
    rewrite N.div_mul by lia. replace (e - Z.of_nat (S j) + 1) with (e - Z.of_nat j) by lia.
    apply IH; [done|done|lia].
Qed.

Lemma size_mul_pow m j : m <> 0%N -> (j < N.to_nat (N.size (m * 10 ^ N.of_nat j)))%nat.
Proof.
  intros Hm. pose proof (N.size_gt (m * 10 ^ N.of_nat j)) as Hs.
  assert (H2 : (2 ^ N.of_nat j <= 10 ^ N.of_nat j)%N) by (apply N.pow_le_mono_l; lia).
  assert (Hlt : (2 ^ N.of_nat j < 2 ^ N.size (m * 10 ^ N.of_nat j))%N) by nia.
  apply N.pow_lt_mono_r_iff in Hlt; [|lia]. lia.
Qed.

Lemma dround_mul neg m e j :
  dcanon (DFin neg m e) = true -> m <> 0%N ->
  dround neg (m * 10 ^ N.of_nat j) (e - Z.of_nat j) = DFin neg m e.
Proof.
  intros Hc Hm. simpl in Hc. rewrite (proj2 (N.eqb_neq _ _) Hm) in Hc.
  rewrite !andb_true_iff, !negb_true_iff in Hc. destruct Hc as [[Hmod Ho] Hu].
  apply N.eqb_neq in Hmod. unfold dround.
  rewrite strip_zeros_mul by (done || by apply size_mul_pow).
  by rewrite (proj2 (N.eqb_neq _ _) Hm), Ho, Hu.
Qed.

(** ** The laws *)

Lemma sign_ok (neg : bool) : (if neg then [c_minus] else []) = [] \/ (if neg then [c_minus] else []) = [c_minus].
Proof. destruct neg; auto. Qed.

(** A non-zero finite number is read back exactly from its printed form. *)
Lemma dnum_reparse_nz neg m e :
  dcanon (DFin neg m e) = true -> m <> 0%N ->
  dnum_of_text (dnum_to_string (DFin neg m e)) = DFin neg m e /\
  is_json_number (dnum_to_string (DFin neg m e)) = true.
Proof.
  intros Hc Hm. simpl. rewrite (proj2 (N.eqb_neq _ _) Hm).
  destruct (pos_to_string_parts m e Hm) as (i & f & x & j & -> & Hi & Hf & Hx & Hv & He).
  split.
  - unfold dnum_of_text. rewrite decode_number_parts by (done || apply sign_ok).
    rewrite Hv, He. replace (bool_decide _) with neg by (destruct neg; by compute).
    by apply dround_mul.
  - unfold is_json_number. by rewrite lex_number_parts by (done || apply sign_ok).
Qed.

Lemma dnum_reparse_all d :
  dcanon d = true -> dnum_is_finite d = true ->
  dnum_is_finite (dnum_of_text (dnum_to_string d)) = true /\
  dnum_to_string (dnum_of_text (dnum_to_string d)) = dnum_to_string d /\
  is_json_number (dnum_to_string d) = true.
Proof.
  destruct d as [neg m e| |]; try done. intros Hc _.
  destruct (decide (m = 0%N)) as [->|Hm].
  - simpl in Hc |- *. by apply Z.eqb_eq in Hc as ->.
  - destruct (dnum_reparse_nz neg m e Hc Hm) as [-> ?]. done.
Qed.

(** Number::toString then StringToNumber: the printed form of a finite
    number is a JSON number lexeme, and it reads back as a finite number
    printed the same way. *)
Lemma dnum_reparse d :
  dcanon d = true -> dnum_is_finite d = true ->
  dnum_is_finite (dnum_of_text (dnum_to_string d)) = true /\
  dnum_to_string (dnum_of_text (dnum_to_string d)) = dnum_to_string d /\
  is_json_number (dnum_to_string d) = true.
Proof. apply dnum_reparse_all. Qed.

Lemma dec_of_text_val t : proj1_sig (dec_of_text t) = dnum_of_text t.
Proof. unfold dec_of_text, dnum_of_text. by destruct (decode_number t) as [[? ?] ?]. Qed.

Lemma strip_zeros_value f m e m' e' :
  strip_zeros f m e = (m', e') -> m <> 0%N ->
  exists j, m = (m' * 10 ^ N.of_nat j)%N /\ e' = e + Z.of_nat j /\ m' <> 0%N.
Proof.
  revert m e. induction f as [|f IH]; intros m e Hs Hm; simpl in Hs.
  - invc Hs. exists 0%nat. split_and!; [lia|lia|done].
  - rewrite (proj2 (N.eqb_neq _ _) Hm) in Hs.
    destruct (m mod 10 =? 0)%N eqn:E.
    + apply N.eqb_eq in E. pose proof (N.Div0.div_mod m 10) as Hd. rewrite E in Hd.
      destruct (IH _ _ Hs ltac:(lia)) as (j & Hj & He & Hm').
      exists (S j). split_and!; [|lia|done]. rewrite Nat2N.inj_succ, N.pow_succ_r'. lia.
    + invc Hs. exists 0%nat. split_and!; [lia|lia|done].
Qed.

Lemma digits_value_lower c r :
  digits_ok (c :: r) = true -> c <> 48 -> (10 ^ N.of_nat (length r) <= digits_value (c :: r))%N.
Proof.
  intros Hd Hc. change (c :: r) with ([c] ++ r). rewrite (digits_value_app [c] r).
  simpl in Hd. apply andb_true_iff in Hd as [Hcd _]. apply is_digit_true in Hcd.
  assert (H1 : (1 <= digits_value [c])%N) by (unfold digits_value, c_zero; simpl; lia). nia.
Qed.

Lemma dnum_of_nat_digits k :
  Z.of_nat k <= max_array_length ->
  dnum_to_string (dround false (N.of_nat k) 0) = N_digits (N.of_nat k).
Proof.
  intros Hk. destruct (decide (k = 0%nat)) as [->|Hk0]; [done|].
  unfold dround. destruct (strip_zeros _ _ _) as [m' e'] eqn:Es.
  destruct (strip_zeros_value _ _ _ _ _ Es ltac:(lia)) as (j & Hj & -> & Hm').
  destruct (N_digits_head m' Hm') as (c & r & Eds & Hc & Hcd).
  pose proof (N_digits_ok m') as Hok. pose proof (N_digits_value m') as Hv. rewrite Eds in Hok, Hv.
  pose proof (digits_value_lower c r Hok Hc) as Hlow. rewrite Hv in Hlow.
  assert (Hlen : (length r + j < 10)%nat).
  { assert (H : (10 ^ N.of_nat (length r + j) < 10 ^ 10)%N).
    { rewrite Nat2N.inj_add, N.pow_add_r. unfold max_array_length in Hk. nia. }
    apply N.pow_lt_mono_r_iff in H; lia. }
  rewrite (proj2 (N.eqb_neq _ _) Hm').
  unfold overflows, underflows, ndigits. rewrite Eds. simpl length.
  rewrite (proj2 (Z.leb_le _ _)) by lia. rewrite (proj2 (Z.leb_le (-322) _)) by lia.
  simpl. rewrite (proj2 (N.eqb_neq _ _) Hm'). unfold pos_to_string. rewrite Eds. cbn zeta.
  rewrite (proj2 (Z.leb_le _ _)), (proj2 (Z.leb_le _ 21)) by (simpl length; lia). simpl andb.
  cbv iota. rewrite Hj, <- Hv.
  replace (Z.to_nat (0 + Z.of_nat j + Z.of_nat (length (c :: r)) - Z.of_nat (length (c :: r)))) with j by lia.
  assert (E : (digits_value (c :: r) * 10 ^ N.of_nat j)%N = digits_value ((c :: r) ++ zeros j))
    by (rewrite digits_value_app, digits_value_zeros; unfold zeros; rewrite repeat_length; lia).
  rewrite E, <- app_comm_cons. symmetry. apply N_digits_of_value; [|done].
  rewrite app_comm_cons, digits_ok_app, Hok. apply digits_ok_zeros.
Qed.

(** An array length, at most [2^32 - 1], is printed by Number::toString
    as its decimal digits. *)
Lemma dnum_of_nat_print k :
  Z.of_nat k <= max_array_length ->
  dnum_to_string (dround false (N.of_nat k) 0) = N_digits (N.of_nat k).
Proof. apply dnum_of_nat_digits. Qed.

Lemma decimal_laws : @JsNumberLaws decimal_number.
Proof.
  split; cbn [num num_of_text num_to_string num_is_finite num_of_nat decimal_number].
  - intros [d Hd] Hf. exact (proj2 (proj2 (dnum_reparse_all d Hd Hf))).
  - intros [d Hd] Hf. rewrite dec_of_text_val. exact (proj1 (dnum_reparse_all d Hd Hf)).
  - intros [d Hd] Hf. rewrite dec_of_text_val. exact (proj1 (proj2 (dnum_reparse_all d Hd Hf))).
  - intros k Hk. exact (dnum_of_nat_digits k Hk).
Qed.


(** ** The laws on concrete numbers *)

Lemma dnum_reparse_witness :
  dcanon (DFin false 25 (-8)) = true /\ dnum_is_finite (DFin false 25 (-8)) = true /\
  dnum_to_string (DFin false 25 (-8)) = ⟪"2.5e-7"⟫ /\
  (dnum_is_finite (dnum_of_text (dnum_to_string (DFin false 25 (-8)))) = true /\
   dnum_to_string (dnum_of_text (dnum_to_string (DFin false 25 (-8)))) =
     dnum_to_string (DFin false 25 (-8)) /\
   is_json_number (dnum_to_string (DFin false 25 (-8))) = true).
Proof. split_and!; [reflexivity..|]. apply dnum_reparse; reflexivity. Defined.

Lemma dnum_of_nat_print_witness :
  Z.of_nat 1200 <= max_array_length /\
  dnum_to_string (dround false (N.of_nat 1200) 0) = N_digits (N.of_nat 1200).
Proof.
  split; [unfold max_array_length; lia|]. apply dnum_of_nat_print. unfold max_array_length. lia.
Defined.
