(* ===== verification/JsValue.v ===== *)
(** * JavaScript values as the server manipulates them

    [readStudentData] returns whatever [JSON.parse] builds, the request body
    is what [bodyParser.json()] built with [JSON.parse], and the handlers
    read properties of both, test them with [!], [typeof] and [===], and
    push onto the array read from the file.  This file models those values
    and operators:
    - [jsval]: the JSON values ([null], booleans, numbers, strings, arrays,
      objects), [undefined], and [JBuiltin name] for a built-in method found
      on a prototype (the only functions a property read can return here);
    - objects are property lists in the order [OrdinaryOwnPropertyKeys]
      enumerates them: array-index keys ascending, then the other keys in
      insertion order; [obj_define] is [CreateDataProperty], which
      [JSON.parse] uses for every member;
    - [js_truthy] is [ToBoolean] ([!x], line 48), [js_typeof] is [typeof]
      (line 48), [js_eq_lit] is [===] against a string literal (line 78),
      [get_prop] is a property read, [array_push] is
      [Array.prototype.push] (line 53), [js_to_string] is the [ToString] a
      template literal applies (lines 56 and 67), which throws on an object
      with an own [toString].
    The theorems: [obj_define] keeps the property order canonical, adds a
    new key where [OrdinaryOwnPropertyKeys] lists it (an index among the
    indices, another key last) and reads back what it defined. *)

From S2P Require Import Prelude JsNumber JsDecimal.

Section Values.
Context `{NM : JsNumber}.

#[warnings="-register-all"]
Inductive jsval :=
| JUndefined
| JNull
| JBool (b : bool)
| JNum (n : num)
| JStr (s : jstr)
| JArr (xs : list jsval)
| JObj (ps : list (jstr * jsval))
| JBuiltin (name : jstr).

(** The induction principle with hypotheses for the elements of arrays and
    the values of objects. *)
Definition jsval_ind' (P : jsval -> Prop)
  (fu : P JUndefined) (fn : P JNull) (fb : forall b, P (JBool b))
  (fnum : forall n, P (JNum n)) (fs : forall s, P (JStr s))
  (fa : forall xs, Forall P xs -> P (JArr xs))
  (fo : forall ps, Forall (fun kv => P kv.2) ps -> P (JObj ps))
  (fbi : forall s, P (JBuiltin s)) : forall v, P v :=
  fix go v :=
    match v with
    | JUndefined => fu
    | JNull => fn
    | JBool b => fb b
    | JNum n => fnum n
    | JStr s => fs s
    | JArr xs => fa xs ((fix gol xs : Forall P xs :=
        match xs with [] => List.Forall_nil _ | x :: xs' => List.Forall_cons _ _ _ (go x) (gol xs') end) xs)
    | JObj ps => fo ps ((fix gop ps : Forall (fun kv => P kv.2) ps :=
        match ps with
        | [] => List.Forall_nil _
        | kv :: ps' => List.Forall_cons _ _ _ (go kv.2) (gop ps')
        end) ps)
    | JBuiltin s => fbi s
    end.

Fixpoint jsval_eqb (x y : jsval) : bool :=
  match x, y with
  | JUndefined, JUndefined | JNull, JNull => true
  | JBool a, JBool b => Bool.eqb a b
  | JNum a, JNum b => bool_decide (a = b)
  | JStr a, JStr b | JBuiltin a, JBuiltin b => bool_decide (a = b)
  | JArr xs, JArr ys =>
      (fix go xs ys :=
        match xs, ys with
        | [], [] => true
        | a :: xs', b :: ys' => jsval_eqb a b && go xs' ys'
        | _, _ => false
        end) xs ys
  | JObj ps, JObj qs =>
      (fix go ps qs :=
        match ps, qs with
        | [], [] => true
        | (k1, a) :: ps', (k2, b) :: qs' => bool_decide (k1 = k2) && jsval_eqb a b && go ps' qs'
        | _, _ => false
        end) ps qs
  | _, _ => false
  end.

Lemma jsval_eqb_eq x y : jsval_eqb x y = true <-> x = y.
Proof.
  revert y. induction x as [| | b | n | s | xs IH | ps IH | s] using jsval_ind';
    intros [| | b' | n' | s' | ys | qs | s']; simpl;
    rewrite ?Bool.eqb_true_iff, ?bool_decide_eq_true; try naive_solver congruence.
  - revert ys. induction IH as [|x xs Hx Hxs IHxs]; intros [|y ys]; simpl; try naive_solver.
    rewrite andb_true_iff, Hx, IHxs. naive_solver congruence.
  - revert qs. induction IH as [|[k x] ps Hx Hps IHps]; intros [|[k' y] qs]; simpl; try naive_solver.
    rewrite !andb_true_iff, bool_decide_eq_true, Hx, IHps. naive_solver congruence.
Qed.

#[export] Instance jsval_eq_dec : EqDecision jsval.
Proof.
  intros x y. destruct (jsval_eqb x y) eqn:E.
  - left. by apply jsval_eqb_eq.
  - right. intros Hxy. apply jsval_eqb_eq in Hxy. congruence.
Defined.

(** ** Operators *)

(** [ToBoolean] *)
Definition js_truthy (v : jsval) : bool :=
  match v with
  | JUndefined | JNull => false
  | JBool b => b
  | JNum n => num_truthy n
  | JStr s => negb (bool_decide (s = []))
  | JArr _ | JObj _ | JBuiltin _ => true
  end.

(** [typeof] *)
Definition js_typeof (v : jsval) : jstr :=
  match v with
  | JUndefined => ⟪"undefined"⟫
  | JNull | JArr _ | JObj _ => ⟪"object"⟫
  | JBool _ => ⟪"boolean"⟫
  | JNum _ => ⟪"number"⟫
  | JStr _ => ⟪"string"⟫
  | JBuiltin _ => ⟪"function"⟫
  end.

(** [v === "lit"]: true only for a string with the same code units. *)
Definition js_eq_lit (v : jsval) (lit : jstr) : bool :=
  match v with
  | JStr s => bool_decide (s = lit)
  | _ => false
  end.

(** ** Property keys and the order of an object's properties *)

(** The value of a string of decimal digits. *)
Definition digits_Z (ds : jstr) : Z :=
  fold_left (fun acc d => acc * 10 + (d - c_zero)) ds 0.

(** A key is an array index when it is the canonical decimal form of an
    integer below [2^32 - 1]: digits only, no leading zero. *)
Definition array_index (k : jstr) : option Z :=
  match k with
  | [] => None
  | c :: rest =>
      if forallb is_digit k && (bool_decide (rest = []) || negb (c =? c_zero))
      then let i := digits_Z k in if i <? max_array_length then Some i else None
      else None
  end.

Definition is_index (k : jstr) : bool := bool_decide (is_Some (array_index k)).

(** Insert a new array-index key [k] with value [i] among the index keys,
    which come first, in ascending order. *)
Fixpoint insert_index (i : Z) (k : jstr) (v : jsval) (ps : list (jstr * jsval))
    : list (jstr * jsval) :=
  match ps with
  | [] => [(k, v)]
  | (k', v') :: rest =>
      match array_index k' with
      | Some j => if i <? j then (k, v) :: ps else (k', v') :: insert_index i k v rest
      | None => (k, v) :: ps
      end
  end.

(** [CreateDataProperty(O, k, v)] on an ordinary object: an existing key
    keeps its position and takes the new value; a new index key goes into
    the ascending run of index keys; any other new key goes last. *)
Definition obj_define (k : jstr) (v : jsval) (ps : list (jstr * jsval))
    : list (jstr * jsval) :=
  if existsb (fun kv => bool_decide (kv.1 = k)) ps
  then map (fun kv => if bool_decide (kv.1 = k) then (k, v) else kv) ps
  else match array_index k with
       | Some i => insert_index i k v ps
       | None => ps ++ [(k, v)]
       end.

(** The order invariant: index keys first, strictly ascending, and no key
    twice. *)
Fixpoint index_order (prev : Z) (ps : list (jstr * jsval)) : bool :=
  match ps with
  | [] => true
  | (k, _) :: rest =>
      match array_index k with
      | Some i => (prev <? i) && index_order i rest
      | None => forallb (fun kv => negb (is_index kv.1)) rest
      end
  end.

Definition obj_canon (ps : list (jstr * jsval)) : bool :=
  index_order (-1) ps && bool_decide (NoDup (map fst ps)).

(** ** Property reads *)

(** The members [Object.prototype] has in Node.js. *)
Definition object_proto_members : list jstr :=
  map units ["constructor"; "__defineGetter__"; "__defineSetter__";
    "hasOwnProperty"; "__lookupGetter__"; "__lookupSetter__"; "isPrototypeOf";
    "propertyIsEnumerable"; "toString"; "valueOf"; "__proto__"; "toLocaleString"]%string.

(** The members of [Array.prototype]. *)
Definition array_proto_members : list jstr :=
  map units ["at"; "concat"; "copyWithin"; "entries"; "every"; "fill"; "filter";
    "find"; "findIndex"; "findLast"; "findLastIndex"; "flat"; "flatMap";
    "forEach"; "includes"; "indexOf"; "join"; "keys"; "lastIndexOf"; "map";
    "pop"; "push"; "reduce"; "reduceRight"; "reverse"; "shift"; "slice";
    "some"; "sort"; "splice"; "toLocaleString"; "toReversed"; "toSorted";
    "toSpliced"; "toString"; "unshift"; "values"; "with"]%string.

(** The members of [String.prototype]. *)
Definition string_proto_members : list jstr :=
  map units ["anchor"; "at"; "big"; "blink"; "bold"; "charAt"; "charCodeAt";
    "codePointAt"; "concat"; "endsWith"; "fixed"; "fontcolor"; "fontsize";
    "includes"; "indexOf"; "isWellFormed"; "italics"; "lastIndexOf"; "link";
    "localeCompare"; "match"; "matchAll"; "normalize"; "padEnd"; "padStart";
    "repeat"; "replace"; "replaceAll"; "search"; "slice"; "small"; "split";
    "startsWith"; "strike"; "sub"; "substr"; "substring"; "sup";
    "toLocaleLowerCase"; "toLocaleUpperCase"; "toLowerCase"; "toString";
    "toUpperCase"; "toWellFormed"; "trim"; "trimEnd"; "trimLeft"; "trimRight";
    "trimStart"; "valueOf"]%string.

(** The members of [Number.prototype] and [Boolean.prototype]. *)
Definition number_proto_members : list jstr :=
  map units ["toExponential"; "toFixed"; "toLocaleString"; "toPrecision";
    "toString"; "valueOf"]%string.
Definition boolean_proto_members : list jstr :=
  map units ["toString"; "valueOf"]%string.

Definition inherited (members : list jstr) (k : jstr) : jsval :=
  if bool_decide (k ∈ members ++ object_proto_members) then JBuiltin k else JUndefined.

Fixpoint assoc (k : jstr) (ps : list (jstr * jsval)) : option jsval :=
  match ps with
  | [] => None
  | (k', v) :: rest => if bool_decide (k' = k) then Some v else assoc k rest
  end.

(** [v[k]]: [None] is the TypeError of reading a property of [null] or
    [undefined]. *)
Definition get_prop (v : jsval) (k : jstr) : option jsval :=
  match v with
  | JUndefined | JNull => None
  | JObj ps => Some (default (inherited [] k) (assoc k ps))
  | JArr xs =>
      if bool_decide (k = ⟪"length"⟫) then Some (JNum (num_of_nat (length xs)))
      else match array_index k with
           | Some i => Some (default JUndefined (xs !! Z.to_nat i))
           | None => Some (inherited array_proto_members k)
           end
  | JStr s =>
      if bool_decide (k = ⟪"length"⟫) then Some (JNum (num_of_nat (length s)))
      else match array_index k with
           | Some i => Some (default JUndefined ((fun c => JStr [c]) <$> s !! Z.to_nat i))
           | None => Some (inherited string_proto_members k)
           end
  | JNum _ => Some (inherited number_proto_members k)
  | JBool _ => Some (inherited boolean_proto_members k)
  | JBuiltin _ => Some JUndefined
  end.

(** ** Abrupt completions *)

Inductive js_error :=
| TypeError | RangeError | SyntaxError
(** the error [raw-body] raises for a request body over the body parser's
    limit, an [http-errors] error with status 413 *)
| PayloadTooLargeError.

#[export] Instance js_error_eq_dec : EqDecision js_error.
Proof. solve_decision. Defined.

(** [allData.push(x)]: [allData] must be an array (any other value has no
    callable [push]: TypeError); the new length must stay an array length,
    else the final [Set(O, "length")] throws a RangeError. *)
Definition array_push (v x : jsval) : js_error + jsval :=
  match v with
  | JArr xs =>
      if Z.of_nat (length xs) <? max_array_length then inr (JArr (xs ++ [x]))
      else inl RangeError
  | _ => inl TypeError
  end.

(** [ToString], as a template literal applies it to the values it prints
    (lines 56 and 67).  An object is converted by OrdinaryToPrimitive with
    hint string: its [toString], then its [valueOf].  A JSON object that
    has an own [toString] has a value there that is not callable, and the
    inherited [valueOf] returns the object itself, so the conversion throws
    a TypeError; otherwise the inherited [Object.prototype.toString] gives
    ["[object Object]"].  An array is converted by [Array.prototype.join],
    which prints [undefined] and [null] elements as empty strings. *)
Fixpoint js_to_string (v : jsval) : js_error + jstr :=
  match v with
  | JUndefined => inr ⟪"undefined"⟫
  | JNull => inr ⟪"null"⟫
  | JBool true => inr ⟪"true"⟫
  | JBool false => inr ⟪"false"⟫
  | JNum n => inr (num_to_string n)
  | JStr s => inr s
  | JArr xs =>
      let! parts :=
        (fix go (xs : list jsval) : js_error + list jstr :=
           match xs with
           | [] => inr []
           | x :: rest =>
               let! p := match x with JUndefined | JNull => inr [] | _ => js_to_string x end in
               let! ps := go rest in
               inr (p :: ps)
           end) xs in
      inr (join [c_comma] parts)
  | JObj ps => if bool_decide (is_Some (assoc ⟪"toString"⟫ ps)) then inl TypeError
               else inr ⟪"[object Object]"⟫
  | JBuiltin k => inr (⟪"function "⟫ ++ k ++ ⟪"() { [native code] }"⟫)
  end.

(** ** Array-index keys *)

Lemma digits_fold ds a :
  fold_left (fun acc d => acc * 10 + (d - c_zero)) ds a = a * 10 ^ Z.of_nat (length ds) + digits_Z ds.
Proof.
  unfold digits_Z. revert a. induction ds as [|d ds IH]; intros a; simpl; [lia|].
  rewrite IH, (IH (0 * 10 + (d - c_zero))). rewrite Nat2Z.inj_succ, Z.pow_succ_r by lia. lia.
Qed.

Lemma digits_Z_cons d ds : digits_Z (d :: ds) = (d - c_zero) * 10 ^ Z.of_nat (length ds) + digits_Z ds.
Proof. unfold digits_Z at 1. simpl. rewrite digits_fold. lia. Qed.

Lemma digits_Z_bound ds :
  forallb is_digit ds = true -> 0 <= digits_Z ds < 10 ^ Z.of_nat (length ds).
Proof.
  induction ds as [|d ds IH]; simpl; [done|]. rewrite andb_true_iff, is_digit_true.
  intros [Hd Hds]. specialize (IH Hds). rewrite digits_Z_cons.
  rewrite Nat2Z.inj_succ, Z.pow_succ_r by lia. unfold c_zero. nia.
Qed.

Lemma digits_Z_inj ds1 ds2 :
  length ds1 = length ds2 -> forallb is_digit ds1 = true -> forallb is_digit ds2 = true ->
  digits_Z ds1 = digits_Z ds2 -> ds1 = ds2.
Proof.
  revert ds2. induction ds1 as [|d1 ds1 IH]; intros [|d2 ds2]; simpl; try done.
  rewrite !andb_true_iff, !is_digit_true, !digits_Z_cons.
  intros [= Hlen] [Hd1 H1] [Hd2 H2] Hv.
  pose proof (digits_Z_bound _ H1). pose proof (digits_Z_bound _ H2).
  rewrite <- Hlen in *. set (P := 10 ^ Z.of_nat (length ds1)) in *.
  assert (d1 = d2) as <- by (unfold c_zero in *; nia).
  f_equal. apply IH; auto. lia.
Qed.

(** An index key is canonical: a key of two digits or more has no leading
    zero, so its value is at least [10^(n-1)]. *)
Lemma array_index_spec k i :
  array_index k = Some i ->
  forallb is_digit k = true /\ digits_Z k = i /\ 0 <= i < max_array_length /\
  ((2 <= length k)%nat -> 10 ^ (Z.of_nat (length k) - 1) <= i).
Proof.
  destruct k as [|c rest]; [done|]. unfold array_index.
  destruct (forallb is_digit (c :: rest)) eqn:Ed; [|done].
  destruct (bool_decide (rest = []) || negb (c =? c_zero)) eqn:Ez; [|done].
  simpl andb. destruct (digits_Z (c :: rest) <? max_array_length) eqn:Eb; [|done].
  intros [= <-]. zbool. pose proof (digits_Z_bound _ Ed) as Hb.
  repeat split; try done; try lia.
  intros Hl. destruct rest as [|c' rest]; [simpl in Hl; lia|].
  simpl in Ez. apply negb_true_iff in Ez. zbool.
  simpl in Ed. apply andb_true_iff in Ed as [Hc Hr]. apply is_digit_true in Hc.
  rewrite digits_Z_cons. pose proof (digits_Z_bound (c' :: rest) Hr).
  replace (Z.of_nat (length (c :: c' :: rest)) - 1) with (Z.of_nat (length (c' :: rest)))
    by (simpl; lia).
  unfold c_zero in *. nia.
Qed.

Lemma array_index_inj k1 k2 i :
  array_index k1 = Some i -> array_index k2 = Some i -> k1 = k2.
Proof.
  intros H1 H2.
  destruct (array_index_spec _ _ H1) as (D1 & V1 & B1 & L1).
  destruct (array_index_spec _ _ H2) as (D2 & V2 & B2 & L2).
  apply digits_Z_inj; [|done|done|congruence].
  pose proof (digits_Z_bound _ D1). pose proof (digits_Z_bound _ D2).
  assert (length k1 <> 0)%nat by (destruct k1; done).
  assert (length k2 <> 0)%nat by (destruct k2; done).
  destruct (Nat.lt_total (length k1) (length k2)) as [Hlt|[Heq|Hgt]]; [|done|].
  - specialize (L2 ltac:(lia)).
    pose proof (Z.pow_le_mono_r 10 (Z.of_nat (length k1)) (Z.of_nat (length k2) - 1)
      ltac:(lia) ltac:(lia)). lia.
  - specialize (L1 ltac:(lia)).
    pose proof (Z.pow_le_mono_r 10 (Z.of_nat (length k2)) (Z.of_nat (length k1) - 1)
      ltac:(lia) ltac:(lia)). lia.
Qed.

(** ** [obj_define] keeps objects canonical *)

Lemma index_order_keys prev ps qs :
  map fst ps = map fst qs -> index_order prev ps = index_order prev qs.
Proof.
  revert prev qs. induction ps as [|[k v] ps IH]; intros prev [|[k' v'] qs]; simpl; try done.
  intros [= <- Hk]. destruct (array_index k).
  - by rewrite (IH _ _ Hk).
  - clear IH. revert qs Hk. induction ps as [|[a x] ps IHp]; intros [|[b y] qs]; simpl; try done.
    intros [= <- Hk]. by rewrite (IHp _ Hk).
Qed.

Lemma insert_index_perm i k v ps : insert_index i k v ps ≡ₚ (k, v) :: ps.
Proof.
  induction ps as [|[k' v'] ps IH]; simpl; [done|].
  destruct (array_index k'); [|done]. destruct (i <? z); [done|].
  rewrite IH. constructor.
Qed.

Lemma insert_index_order prev i k v ps :
  array_index k = Some i -> prev < i -> k ∉ map fst ps ->
  index_order prev ps = true -> index_order prev (insert_index i k v ps) = true.
Proof.
  intros Hk. revert prev. induction ps as [|[k' v'] ps IH]; intros prev Hp Hn Ho; simpl.
  - rewrite Hk. apply andb_true_iff. split; [by apply Z.ltb_lt|done].
  - simpl in Ho. destruct (array_index k') as [j|] eqn:Hj.
    + apply andb_true_iff in Ho as [Hpj Ho]. apply Z.ltb_lt in Hpj.
      destruct (i <? j) eqn:Hij; simpl; rewrite ?Hk, ?Hj.
      * zbool. rewrite !andb_true_iff, !Z.ltb_lt. done.
      * zbool. assert (j <> i).
        { intros ->. apply Hn. rewrite (array_index_inj k k' i Hk Hj). simpl. constructor. }
        rewrite ?Hj, andb_true_iff, Z.ltb_lt. split; [done|].
        apply IH; [lia| |done]. intros Hin. apply Hn. by right.
    + simpl. rewrite Hk, Hj, andb_true_iff, Z.ltb_lt. done.
Qed.

Lemma append_index_order prev k v ps :
  array_index k = None -> index_order prev ps = true ->
  index_order prev (ps ++ [(k, v)]) = true.
Proof.
  intros Hk. revert prev. induction ps as [|[k' v'] ps IH]; intros prev Ho; simpl.
  - by rewrite Hk.
  - simpl in Ho. destruct (array_index k').
    + apply andb_true_iff in Ho as [-> Ho]. by apply IH.
    + rewrite forallb_app, Ho. simpl. unfold is_index. rewrite Hk.
      by rewrite bool_decide_false by (by intros []).
Qed.

Lemma obj_define_keys_present k v ps :
  existsb (fun kv => bool_decide (kv.1 = k)) ps = true ->
  map fst (obj_define k v ps) = map fst ps.
Proof.
  unfold obj_define. intros ->. rewrite map_map.
  apply map_ext. intros [k' v']. by case_bool_decide; subst.
Qed.

Lemma existsb_key_false (k : jstr) (ps : list (jstr * jsval)) :
  existsb (fun kv => bool_decide (kv.1 = k)) ps = false -> k ∉ map fst ps.
Proof.
  intros H Hin. apply list_elem_of_In, in_map_iff in Hin as ([k' v'] & Hk & Hin).
  simpl in Hk. subst k'.
  assert (existsb (fun kv => bool_decide (kv.1 = k)) ps = true) as Ht.
  { apply existsb_exists. exists (k, v'). split; [done|]. by apply bool_decide_true. }
  congruence.
Qed.

Lemma obj_define_keeps_canon k v ps :
  obj_canon ps = true -> obj_canon (obj_define k v ps) = true.
Proof.
  unfold obj_canon. rewrite !andb_true_iff, !bool_decide_eq_true. intros [Ho Hd].
  destruct (existsb (fun kv => bool_decide (kv.1 = k)) ps) eqn:Ex.
  - rewrite (index_order_keys _ _ ps (obj_define_keys_present _ v _ Ex)),
      (obj_define_keys_present _ v _ Ex). done.
  - pose proof (existsb_key_false _ _ Ex) as Hn. unfold obj_define. rewrite Ex.
    destruct (array_index k) as [i|] eqn:Hk.
    + split.
      * apply insert_index_order; try done. pose proof (array_index_spec _ _ Hk). lia.
      * rewrite (insert_index_perm i k v ps). simpl. by constructor.
    + split; [by apply append_index_order|].
      rewrite map_app. apply NoDup_app. split; [done|]. split; [|apply NoDup_singleton].
      intros x Hx Hx'. apply list_elem_of_singleton in Hx'. subst. done.
Qed.

(** Reading a key after defining it gives the defined value; other keys
    are unchanged. *)
Lemma assoc_insert_index k' i k v ps :
  k ∉ map fst ps -> assoc k' (insert_index i k v ps) = if bool_decide (k = k') then Some v else assoc k' ps.
Proof.
  intros Hn. induction ps as [|[a x] ps IH]; simpl; [done|].
  destruct (array_index a); [destruct (i <? z)|]; simpl; try done.
  rewrite IH by (intros Hin; apply Hn; by right).
  repeat case_bool_decide; subst; try done. exfalso. apply Hn. by left.
Qed.

Lemma assoc_replace k' k v ps :
  assoc k' (map (fun kv => if bool_decide (kv.1 = k) then (k, v) else kv) ps) =
  if bool_decide (k = k') && existsb (fun kv => bool_decide (kv.1 = k)) ps
  then Some v else assoc k' ps.
Proof.
  induction ps as [|[a x] ps IH]; simpl; [by rewrite andb_false_r|].
  rewrite IH. clear IH.
  destruct (bool_decide (a = k)) eqn:Eak; apply bool_decide_eq_true in Eak || apply bool_decide_eq_false in Eak;
    subst; simpl; repeat case_bool_decide; subst; simpl in *; try done; try congruence.
  all: by rewrite ?andb_true_r, ?orb_true_r, ?bool_decide_true in *.
Qed.

(** After CreateDataProperty(k, v), reading [k] gives [v] and every other
    key reads as before. *)
Lemma assoc_obj_define k' k v ps :
  assoc k' (obj_define k v ps) = if bool_decide (k = k') then Some v else assoc k' ps.
Proof.
  unfold obj_define. destruct (existsb _ ps) eqn:Ex.
  - rewrite assoc_replace, Ex, andb_true_r. done.
  - pose proof (existsb_key_false _ _ Ex) as Hn. clear Ex. destruct (array_index k).
    + by apply assoc_insert_index.
    + induction ps as [|[a x] ps IH]; simpl; [by case_bool_decide|].
      rewrite IH by (intros ?; apply Hn; by right).
      repeat case_bool_decide; subst; try done. exfalso. apply Hn. by left.
Qed.

(** ** The order of the keys after [CreateDataProperty] *)

(** The keys of an object in creation order once [k] is defined: as they
    were when [k] is one of them, else with [k] created last. *)
Definition add_key (k : jstr) (ks : list jstr) : list jstr :=
  if bool_decide (k ∈ ks) then ks else ks ++ [k].

(** The keys [OrdinaryOwnPropertyKeys] lists after the array indices: the
    other keys, in creation order. *)
Definition string_keys (ks : list jstr) : list jstr := List.filter (fun k' => negb (is_index k')) ks.

Lemma existsb_key_true (k : jstr) (ps : list (jstr * jsval)) :
  existsb (fun kv => bool_decide (kv.1 = k)) ps = true -> k ∈ map fst ps.
Proof.
  intros (kv & Hin & Hk)%existsb_exists. apply bool_decide_eq_true in Hk. subst k.
  apply list_elem_of_In, in_map, Hin.
Qed.

Lemma insert_index_split i k v ps :
  exists l1 l2, ps = l1 ++ l2 /\ insert_index i k v ps = l1 ++ (k, v) :: l2.
Proof.
  induction ps as [|[k' v'] ps (l1 & l2 & -> & IH)]; simpl; [by exists [], []|].
  destruct (array_index k'); [destruct (i <? z)|].
  - by exists [], ((k', v') :: l1 ++ l2).
  - rewrite IH. by exists ((k', v') :: l1), l2.
  - by exists [], ((k', v') :: l1 ++ l2).
Qed.

(** The three ways [obj_define] changes the keys. *)
Lemma obj_define_key_cases k v ps :
  ((k ∈ map fst ps) /\ map fst (obj_define k v ps) = map fst ps) \/
  ((k ∉ map fst ps) /\ is_index k = true /\
     exists l1 l2, map fst ps = l1 ++ l2 /\ map fst (obj_define k v ps) = l1 ++ k :: l2) \/
  ((k ∉ map fst ps) /\ map fst (obj_define k v ps) = map fst ps ++ [k]).
Proof.
  destruct (existsb (fun kv => bool_decide (kv.1 = k)) ps) eqn:Ex.
  { left. split; [by apply existsb_key_true|by apply obj_define_keys_present]. }
  right. pose proof (existsb_key_false _ _ Ex) as Hn. unfold obj_define. rewrite Ex.
  destruct (array_index k) as [i|] eqn:Hk.
  - left. split_and!; [done|unfold is_index; rewrite Hk; by apply bool_decide_true|].
    destruct (insert_index_split i k v ps) as (l1 & l2 & -> & ->).
    exists (map fst l1), (map fst l2). by rewrite !map_app.
  - right. split; [done|]. by rewrite map_app.
Qed.

(** C36: [CreateDataProperty(O, k, v)] on an object in [OrdinaryOwnPropertyKeys]
    order: the result is in that order with distinct keys; its keys are
    those of [O], with [k] added when new; the keys that are not array
    indices keep their creation order, a new one last (together these fix
    the list); [k] reads [v] and every other key reads as before. *)
Theorem obj_define_order k v ps :
  obj_canon ps = true ->
  obj_canon (obj_define k v ps) = true /\
  map fst (obj_define k v ps) ≡ₚ add_key k (map fst ps) /\
  string_keys (map fst (obj_define k v ps)) = string_keys (add_key k (map fst ps)) /\
  (forall k', assoc k' (obj_define k v ps) = if bool_decide (k = k') then Some v else assoc k' ps).
Proof.
  intros Hc. split_and!; [by apply obj_define_keeps_canon| | |intros k'; apply assoc_obj_define];
    unfold add_key, string_keys;
    destruct (obj_define_key_cases k v ps) as [[Hin ->]|[(Hn & Hi & l1 & l2 & E & ->)|[Hn ->]]];
    try (rewrite E in Hn; rewrite E); rewrite ?bool_decide_true, ?bool_decide_false by done; try done.
  - rewrite <- app_assoc. apply Permutation_app_head, Permutation_cons_append.
  - rewrite !List.filter_app. cbn. by rewrite Hi, List.app_nil_r.
Qed.

(** ** Rebuilding a canonical object member by member gives it back *)

Lemma index_order_below prev l k v i :
  index_order prev l = true -> In (k, v) l -> array_index k = Some i -> prev < i.
Proof.
  revert prev. induction l as [|[k' v'] l IH]; intros prev Ho Hin Hk; [done|]. simpl in Ho.
  destruct (array_index k') as [j|] eqn:Hj.
  - apply andb_true_iff in Ho as [Hp Ho]. zbool. destruct Hin as [[= -> ->]|Hin].
    + congruence.
    + pose proof (IH j Ho Hin Hk). lia.
  - destruct Hin as [[= -> ->]|Hin]; [congruence|].
    apply forallb_forall with (x := (k, v)) in Ho; [|done].
    unfold is_index in Ho. simpl in Ho. rewrite Hk in Ho. by rewrite bool_decide_true in Ho.
Qed.

Lemma insert_index_end prev acc k v rest i :
  index_order prev (acc ++ (k, v) :: rest) = true -> array_index k = Some i ->
  insert_index i k v acc = acc ++ [(k, v)].
Proof.
  revert prev. induction acc as [|[k' v'] acc IH]; intros prev Ho Hk; simpl; [done|].
  simpl in Ho. destruct (array_index k') as [j|] eqn:Hj.
  - apply andb_true_iff in Ho as [_ Ho].
    pose proof (index_order_below _ _ k v i Ho ltac:(apply in_or_app; right; left; done) Hk).
    rewrite (proj2 (Z.ltb_ge i j)) by lia. by rewrite (IH j).
  - apply forallb_forall with (x := (k, v)) in Ho; [|apply in_or_app; right; left; done].
    unfold is_index in Ho. simpl in Ho. rewrite Hk in Ho. by rewrite bool_decide_true in Ho.
Qed.

Lemma existsb_key_absent (k : jstr) (ps : list (jstr * jsval)) :
  k ∉ map fst ps -> existsb (fun kv => bool_decide (kv.1 = k)) ps = false.
Proof.
  intros Hn. apply not_true_iff_false. intros Hex.
  apply existsb_exists in Hex as ([k' v'] & Hin & Hk). apply bool_decide_eq_true in Hk.
  simpl in Hk. subst k. apply Hn. apply list_elem_of_In, in_map_iff. by exists (k', v').
Qed.

Lemma obj_define_snoc acc k v rest :
  obj_canon (acc ++ (k, v) :: rest) = true -> obj_define k v acc = acc ++ [(k, v)].
Proof.
  unfold obj_canon. rewrite andb_true_iff, bool_decide_eq_true. intros [Ho Hd].
  rewrite map_app in Hd. simpl in Hd. apply NoDup_app in Hd as (_ & Hd & _).
  assert (k ∉ map fst acc) as Hn.
  { intros Hin. apply (Hd k Hin). constructor. }
  unfold obj_define. rewrite existsb_key_absent by done.
  destruct (array_index k) eqn:Hk; [|done]. by apply (insert_index_end (-1) _ _ _ rest).
Qed.

(** [JSON.parse] defines the members of a canonical object in order: the
    result is the object itself. *)
Lemma obj_define_fold_canon kvs acc :
  obj_canon (acc ++ kvs) = true ->
  fold_left (fun acc kv => obj_define kv.1 kv.2 acc) kvs acc = acc ++ kvs.
Proof.
  revert acc. induction kvs as [|[k v] kvs IH]; intros acc Hc; simpl; [by rewrite app_nil_r|].
  rewrite (obj_define_snoc acc k v kvs Hc). rewrite IH; [by rewrite <- app_assoc|].
  by rewrite <- app_assoc.
Qed.

(** CreateDataProperty adds [(k, v)] and keeps the other properties. *)
Lemma obj_define_elem k v ps kv : kv ∈ obj_define k v ps -> kv = (k, v) \/ kv ∈ ps.
Proof.
  unfold obj_define. destruct (existsb _ ps).
  - intros Hin. apply list_elem_of_In, in_map_iff in Hin as (kv' & Hkv & Hin).
    case_bool_decide; subst; [by left|right; by apply list_elem_of_In].
  - destruct (array_index k) as [i|].
    + rewrite (insert_index_perm i k v ps). intros Hin. apply elem_of_cons in Hin as [->|?]; [by left|by right].
    + intros Hin. apply elem_of_app in Hin as [?|Hin]; [by right|].
      apply list_elem_of_singleton in Hin. by left.
Qed.

(** A key outside every prototype reads nothing inherited. *)
Lemma inherited_absent members k :
  bool_decide (k ∈ members ++ object_proto_members) = false -> inherited members k = JUndefined.
Proof. unfold inherited. by intros ->. Qed.

Lemma obj_canon_keys ps qs : map fst ps = map fst qs -> obj_canon ps = obj_canon qs.
Proof. intros H. unfold obj_canon. by rewrite (index_order_keys _ _ _ H), H. Qed.

End Values.

Arguments jsval : clear implicits.
Arguments jsval {_}.

Section ValueWitnesses.
#[local] Existing Instance decimal_number.

(** A new string key goes last, a new index key among the index keys. *)
Lemma obj_define_order_witness :
  obj_canon [(⟪"1"⟫, JNull); (⟪"name"⟫, JNull)] = true /\
  obj_define ⟪"b"⟫ (JBool true) (obj_define ⟪"0"⟫ JNull [(⟪"1"⟫, JNull); (⟪"name"⟫, JNull)]) =
    [(⟪"0"⟫, JNull); (⟪"1"⟫, JNull); (⟪"name"⟫, JNull); (⟪"b"⟫, JBool true)] /\
  string_keys (map fst (obj_define ⟪"b"⟫ (JBool true) [(⟪"1"⟫, JNull); (⟪"name"⟫, JNull)])) =
    string_keys (add_key ⟪"b"⟫ [⟪"1"⟫; ⟪"name"⟫]).
Proof.
  assert (H : obj_canon [(⟪"1"⟫, JNull); (⟪"name"⟫, JNull)] = true) by reflexivity.
  split_and!; [exact H|reflexivity|].
  exact (proj1 (proj2 (proj2 (obj_define_order ⟪"b"⟫ (JBool true) _ H)))).
Defined.

End ValueWitnesses.
