(* ===== verification/JsonText.v ===== *)
(** * [JSON.stringify] and [JSON.parse] on UTF-16 code units

    [writeStudentData] writes [JSON.stringify(data, null, 2)] (line 35),
    [res.json] sends [JSON.stringify(body)], and [readStudentData] returns
    [JSON.parse(text)] (line 25).  This file models both functions as
    ECMA-262 (sections 25.5.1 and 25.5.2) specifies them, on code units:
    - [ser gap indent v] is SerializeJSONProperty with the [gap] the
      [space] argument gives ([None] is [undefined]); [quote] is
      QuoteJSONString, which escapes lone surrogates;
    - [parse_value] and its companions parse the JSON grammar and build
      objects with [obj_define] (CreateDataProperty, so a duplicated key
      keeps its first position and its last value).  They run on fuel and
      return [PFuel] when it runs out, which [2 * length text + 2] units
      never do ([parse_value_fuel]).
    [jnorm v] is what the text of [v] denotes; [json_equiv] (same [jnorm])
    is the equivalence [JSON.stringify] cannot see through ([ser_proper]),
    which the abstract service of [Service.v] is stated up to. *)

From S2P Require Import Prelude JsNumber JsDecimal JsValue.

Section Json.
Context `{NM : JsNumber}.

(** ** QuoteJSONString *)

Definition hex_digit (d : Z) : Z := if d <? 10 then 48 + d else 87 + d.

(** [\uXXXX] with lowercase hexadecimal digits. *)
Definition unicode_escape (c : Z) : jstr :=
  [c_bslash; 117; hex_digit (c / 4096 mod 16); hex_digit (c / 256 mod 16);
   hex_digit (c / 16 mod 16); hex_digit (c mod 16)].


(** A code unit that is not half of a surrogate pair. *)
Definition quote_unit (c : Z) : jstr :=
  if c =? 8 then [c_bslash; 98]
  else if c =? 9 then [c_bslash; 116]
  else if c =? 10 then [c_bslash; 110]
  else if c =? 12 then [c_bslash; 102]
  else if c =? 13 then [c_bslash; 114]
  else if c =? c_quote then [c_bslash; c_quote]
  else if c =? c_bslash then [c_bslash; c_bslash]
  else if (c <? 32) || is_high c || is_low c then unicode_escape c
  else [c].

(** The code points of the string: a surrogate pair is copied, a lone
    surrogate is escaped. *)
Fixpoint quote_units (s : jstr) : jstr :=
  match s with
  | [] => []
  | c :: t =>
      if is_high c then
        match t with
        | d :: t' => if is_low d then c :: d :: quote_units t' else quote_unit c ++ quote_units t
        | [] => quote_unit c
        end
      else quote_unit c ++ quote_units t
  end.

Definition quote (s : jstr) : jstr := c_quote :: quote_units s ++ [c_quote].

(** ** SerializeJSONProperty, SerializeJSONObject, SerializeJSONArray *)

(** The brackets around the serialised members: [{}] when there is none,
    one line per member when the gap is not empty. *)
Definition wrap (op cl : Z) (gap indent stepin : jstr) (parts : list jstr) : jstr :=
  match parts with
  | [] => [op; cl]
  | _ =>
      if bool_decide (gap = []) then op :: join [c_comma] parts ++ [cl]
      else op :: c_lf :: stepin ++ join (c_comma :: c_lf :: stepin) parts ++ c_lf :: indent ++ [cl]
  end.

Fixpoint ser (gap indent : jstr) (v : jsval) : option jstr :=
  match v with
  | JUndefined | JBuiltin _ => None
  | JNull => Some ⟪"null"⟫
  | JBool true => Some ⟪"true"⟫
  | JBool false => Some ⟪"false"⟫
  | JNum n => Some (if num_is_finite n then num_to_string n else ⟪"null"⟫)
  | JStr s => Some (quote s)
  | JArr xs =>
      Some (wrap c_lbrack c_rbrack gap indent (indent ++ gap)
        (map (fun x => default ⟪"null"⟫ (ser gap (indent ++ gap) x)) xs))
  | JObj ps =>
      Some (wrap c_lbrace c_rbrace gap indent (indent ++ gap)
        (flat_map (fun kv =>
          match ser gap (indent ++ gap) kv.2 with
          | Some t => [quote kv.1 ++ c_colon :: (if bool_decide (gap = []) then [] else [c_space]) ++ t]
          | None => []
          end) ps))
  end.

(** The gap of [JSON.stringify(v, null, space)] for a number [space]:
    [min(10, space)] spaces. *)
Definition gap_of_space (space : nat) : jstr := repeat c_space (Nat.min 10 space).

(** [JSON.stringify(v, null, space)]; [None] is [undefined]. *)
Definition json_stringify (v : jsval) (space : nat) : option jstr :=
  ser (gap_of_space space) [] v.

(** ** What survives a trip through the text *)

(** The value [JSON.parse(JSON.stringify(v))] denotes: a finite number is
    reread from its printed form, a non-finite one becomes [null], an
    [undefined] array element becomes [null] and an [undefined] member is
    dropped. *)
Fixpoint jnorm (v : jsval) : jsval :=
  match v with
  | JNum n => if num_is_finite n then JNum (num_of_text (num_to_string n)) else JNull
  | JArr xs =>
      JArr (map (fun x => match x with JUndefined | JBuiltin _ => JNull | _ => jnorm x end) xs)
  | JObj ps =>
      JObj (flat_map (fun kv =>
        match kv.2 with JUndefined | JBuiltin _ => [] | _ => [(kv.1, jnorm kv.2)] end) ps)
  | _ => v
  end.

(** JSON data: no [undefined] or function inside, objects in canonical
    property order, strings of 16-bit code units. *)
Fixpoint jwf (v : jsval) : bool :=
  match v with
  | JUndefined | JBuiltin _ => false
  | JNull | JBool _ | JNum _ => true
  | JStr s => forallb unit_okb s
  | JArr xs => forallb jwf xs
  | JObj ps => obj_canon ps && forallb (fun kv => forallb unit_okb kv.1 && jwf kv.2) ps
  end.

(** ** The parser *)

Definition is_ws (c : Z) : bool := (c =? c_tab) || (c =? c_lf) || (c =? c_cr) || (c =? c_space).

Fixpoint skip_ws (s : jstr) : jstr :=
  match s with
  | c :: t => if is_ws c then skip_ws t else s
  | [] => []
  end.

Definition hex_val (c : Z) : option Z :=
  if is_digit c then Some (c - 48)
  else if (97 <=? c) && (c <=? 102) then Some (c - 87)
  else if (65 <=? c) && (c <=? 70) then Some (c - 55)
  else None.

Definition hex4 (h1 h2 h3 h4 : Z) : option Z :=
  match hex_val h1, hex_val h2, hex_val h3, hex_val h4 with
  | Some a, Some b, Some c, Some d => Some (((a * 16 + b) * 16 + c) * 16 + d)
  | _, _, _, _ => None
  end.

(** The code unit a one-character escape [\e] stands for. *)
Definition simple_escape (e : Z) : option Z :=
  if e =? c_quote then Some c_quote
  else if e =? c_bslash then Some c_bslash
  else if e =? 47 then Some 47
  else if e =? 98 then Some 8
  else if e =? 102 then Some 12
  else if e =? 110 then Some 10
  else if e =? 114 then Some 13
  else if e =? 116 then Some 9
  else None.

(** The body of a string literal after its opening quote: the code units
    it denotes and the text after the closing quote. *)
Fixpoint lex_string (s : jstr) : option (jstr * jstr) :=
  match s with
  | [] => None
  | c :: t =>
      if c =? c_quote then Some ([], t)
      else if c =? c_bslash then
        match t with
        | e :: t' =>
            match simple_escape e with
            | Some u =>
                match lex_string t' with Some (b, r) => Some (u :: b, r) | None => None end
            | None =>
                if e =? 117 then
                  match t' with
                  | h1 :: h2 :: h3 :: h4 :: t'' =>
                      match hex4 h1 h2 h3 h4, lex_string t'' with
                      | Some u, Some (b, r) => Some (u :: b, r)
                      | _, _ => None
                      end
                  | _ => None
                  end
                else None
            end
        | [] => None
        end
      else if c <? 32 then None
      else match lex_string t with Some (b, r) => Some (c :: b, r) | None => None end
  end.

(** A parse either succeeds, meets a syntax error, or runs out of fuel. *)
Inductive presult (A : Type) := POk (a : A) | PErr | PFuel.
Arguments POk {_} _.
Arguments PErr {_}.
Arguments PFuel {_}.

Definition of_option {A} (o : option A) : presult A :=
  match o with Some a => POk a | None => PErr end.

Abbreviation parse_result := (presult (jsval * jstr)).

(** [t] starts with the code unit [c]. *)
Definition starts_with (c : Z) (t : jstr) : bool :=
  match t with d :: _ => d =? c | [] => false end.

(** One value, after white space.  [pe] parses the elements of an array
    after its [[], [pm] the members of an object after its [{]: these are
    the recursive calls. *)
Definition value_step (pe : jstr -> list jsval -> parse_result)
    (pm : jstr -> list (jstr * jsval) -> parse_result) (s : jstr) : parse_result :=
  match skip_ws s with
  | [] => PErr
  | c :: t =>
      if c =? 110 then
        if bool_decide (take 3 t = ⟪"ull"⟫) then POk (JNull, drop 3 t) else PErr
      else if c =? 116 then
        if bool_decide (take 3 t = ⟪"rue"⟫) then POk (JBool true, drop 3 t) else PErr
      else if c =? 102 then
        if bool_decide (take 4 t = ⟪"alse"⟫) then POk (JBool false, drop 4 t) else PErr
      else if c =? c_quote then
        of_option ((fun br => (JStr br.1, br.2)) <$> lex_string t)
      else if c =? c_lbrack then
        let t' := skip_ws t in
        if starts_with c_rbrack t' then POk (JArr [], tail t') else pe t' []
      else if c =? c_lbrace then
        let t' := skip_ws t in
        if starts_with c_rbrace t' then POk (JObj [], tail t') else pm t' []
      else of_option ((fun lr => (JNum (num_of_text lr.1), lr.2)) <$> lex_number (c :: t))
  end.

(** One element and what follows it: [,] and more elements, or [[]]. *)
Definition elements_step (pv : jstr -> parse_result)
    (pe : jstr -> list jsval -> parse_result) (s : jstr) (acc : list jsval) : parse_result :=
  match pv s with
  | POk (v, r) =>
      match skip_ws r with
      | c :: t =>
          if c =? c_comma then pe t (acc ++ [v])
          else if c =? c_rbrack then POk (JArr (acc ++ [v]), t)
          else PErr
      | [] => PErr
      end
  | PErr => PErr
  | PFuel => PFuel
  end.

(** One member [key : value] and what follows it. *)
Definition members_step (pv : jstr -> parse_result)
    (pm : jstr -> list (jstr * jsval) -> parse_result) (s : jstr)
    (acc : list (jstr * jsval)) : parse_result :=
  match s with
  | c :: t =>
      if c =? c_quote then
        match lex_string t with
        | Some (k, r) =>
            match skip_ws r with
            | c' :: r' =>
                if c' =? c_colon then
                  match pv r' with
                  | POk (v, r'') =>
                      match skip_ws r'' with
                      | d :: t' =>
                          if d =? c_comma then pm (skip_ws t') (obj_define k v acc)
                          else if d =? c_rbrace then POk (JObj (obj_define k v acc), t')
                          else PErr
                      | [] => PErr
                      end
                  | PErr => PErr
                  | PFuel => PFuel
                  end
                else PErr
            | [] => PErr
            end
        | None => PErr
        end
      else PErr
  | [] => PErr
  end.

Fixpoint parse_value (fuel : nat) (s : jstr) : parse_result :=
  match fuel with
  | O => PFuel
  | S f => value_step (parse_elements f) (parse_members f) s
  end
with parse_elements (fuel : nat) (s : jstr) (acc : list jsval) : parse_result :=
  match fuel with
  | O => PFuel
  | S f => elements_step (parse_value f) (parse_elements f) s acc
  end
with parse_members (fuel : nat) (s : jstr) (acc : list (jstr * jsval)) : parse_result :=
  match fuel with
  | O => PFuel
  | S f => members_step (parse_value f) (parse_members f) s acc
  end.

(** [JSON.parse(text)]: one value, then only white space. *)
Definition json_parse (text : jstr) : option jsval :=
  match parse_value (2 * length text + 2) text with
  | POk (v, r) => if bool_decide (skip_ws r = []) then Some v else None
  | _ => None
  end.

(** ** Lexing lemmas *)

Lemma skip_ws_length s : (length (skip_ws s) <= length s)%nat.
Proof. induction s as [|c t IH]; simpl; [lia|]. destruct (is_ws c); simpl; lia. Qed.

Lemma lex_string_shrinks n t b r :
  (length t <= n)%nat -> lex_string t = Some (b, r) -> (length r < length t)%nat.
Proof.
  revert t b r. induction n as [|n IH]; intros [|c t] b r Hn; simpl; try done; [simpl in Hn; lia|].
  simpl in Hn.
  destruct (c =? c_quote); [intros [= _ <-]; lia|].
  destruct (c =? c_bslash).
  - destruct t as [|e t']; [done|]. simpl in Hn.
    destruct (simple_escape e).
    + destruct (lex_string t') as [[b' r']|] eqn:E; [|done]. intros [= _ <-].
      destruct n; [simpl in Hn; lia|].
      pose proof (IH t' b' r' ltac:(lia) E). simpl. lia.
    + destruct (e =? 117); [|done].
      destruct t' as [|h1 [|h2 [|h3 [|h4 t'']]]]; try done.
      destruct (hex4 h1 h2 h3 h4), (lex_string t'') as [[b' r']|] eqn:E; try done.
      intros [= _ <-]. simpl in Hn. pose proof (IH t'' b' r' ltac:(lia) E). simpl. lia.
  - destruct (c <? 32); [done|].
    destruct (lex_string t) as [[b' r']|] eqn:E; [|done]. intros [= _ <-].
    pose proof (IH t b' r' ltac:(lia) E). lia.
Qed.

Lemma lex_number_shrinks s l r : lex_number s = Some (l, r) -> (length r < length s)%nat.
Proof.
  intros H. pose proof (lex_number_split _ _ _ H) as Hs.
  assert (l <> []) as Hl.
  { unfold lex_number in H.
    destruct (match s with c :: t => _ | [] => _ end) as [sg s1]. destruct (lex_int s1) as [[i s2]|] eqn:E; [|done].
    destruct (lex_frac s2) as [[f s3]|]; [|done]. destruct (lex_exp s3) as [[x s4]|]; [|done].
    invc H. destruct s1 as [|c t]; [done|]. simpl in E.
    destruct (c =? c_zero); [invc E|destruct (is_digit c); [destruct (take_digits t); invc E|done]];
      destruct sg; simpl; done. }
  rewrite Hs, length_app. destruct l; [done|]. simpl. lia.
Qed.

Lemma of_option_fmap_ok {A B} (f : A -> B) (o : option A) (x : B) :
  of_option (f <$> o) = POk x -> exists y, o = Some y /\ x = f y.
Proof. destruct o; simpl; [intros [= <-]; eauto|done]. Qed.

(** ** Fuel: more fuel never changes a result, and [2n+2] units suffice *)

(** [r'] is what [r] becomes with more fuel: the same result, unless [r]
    ran out of fuel. *)
Definition settles (r r' : parse_result) : Prop := r = PFuel \/ r' = r.

Lemma value_step_settles pe pm pe' pm' s :
  (forall t acc, settles (pe t acc) (pe' t acc)) ->
  (forall t acc, settles (pm t acc) (pm' t acc)) ->
  settles (value_step pe pm s) (value_step pe' pm' s).
Proof.
  intros Hpe Hpm. unfold value_step.
  destruct (skip_ws s) as [|c t]; [by right|]. repeat case_match; auto; by right.
Qed.

Lemma elements_step_settles pv pe pv' pe' s acc :
  (forall t, settles (pv t) (pv' t)) ->
  (forall t acc, settles (pe t acc) (pe' t acc)) ->
  settles (elements_step pv pe s acc) (elements_step pv' pe' s acc).
Proof.
  intros Hpv Hpe. unfold elements_step.
  destruct (Hpv s) as [-> | ->]; [by left|]. repeat case_match; auto; by right.
Qed.

Lemma members_step_settles pv pm pv' pm' s acc :
  (forall t, settles (pv t) (pv' t)) ->
  (forall t acc, settles (pm t acc) (pm' t acc)) ->
  settles (members_step pv pm s acc) (members_step pv' pm' s acc).
Proof.
  intros Hpv Hpm. unfold members_step.
  destruct s as [|c t]; [by right|]. destruct (c =? c_quote); [|by right].
  destruct (lex_string t) as [[k r]|]; [|by right].
  destruct (skip_ws r) as [|c' r']; [by right|]. destruct (c' =? c_colon); [|by right].
  destruct (Hpv r') as [-> | ->]; [by left|]. repeat case_match; auto; by right.
Qed.

Lemma parse_settles n m :
  (n <= m)%nat ->
  (forall s, settles (parse_value n s) (parse_value m s)) /\
  (forall s acc, settles (parse_elements n s acc) (parse_elements m s acc)) /\
  (forall s acc, settles (parse_members n s acc) (parse_members m s acc)).
Proof.
  revert m. induction n as [|n IH]; intros m Hnm; [repeat split; intros; by left|].
  destruct m as [|m]; [lia|]. destruct (IH m ltac:(lia)) as (Hv & He & Hm).
  repeat split; intros; simpl.
  - by apply value_step_settles.
  - by apply elements_step_settles.
  - by apply members_step_settles.
Qed.

(** A successful parse consumes at least one code unit. *)
Definition shrinks (r : parse_result) (s : jstr) : Prop :=
  forall v r', r = POk (v, r') -> (length r' < length s)%nat.

Lemma value_step_shrinks pe pm s :
  (forall t acc, (length t < length s)%nat -> shrinks (pe t acc) t) ->
  (forall t acc, (length t < length s)%nat -> shrinks (pm t acc) t) ->
  shrinks (value_step pe pm s) s.
Proof.
  intros Hpe Hpm v r'. unfold value_step.
  pose proof (skip_ws_length s) as Hs.
  destruct (skip_ws s) as [|c t]; [done|]. simpl in Hs.
  pose proof (skip_ws_length t) as Ht.
  repeat case_match; subst; try done; intros Heq;
    try (apply of_option_fmap_ok in Heq as ([? ?] & ? & ?)); simplify_eq/=;
    rewrite ?length_drop; try lia.
  all: try (match goal with H : lex_string _ = Some _ |- _ =>
              pose proof (lex_string_shrinks _ _ _ _ (le_n _) H) end; simpl in *; lia).
  all: try (match goal with H : lex_number _ = Some _ |- _ =>
              pose proof (lex_number_shrinks _ _ _ H) end; simpl in *; lia).
  all: try (destruct (skip_ws t); simpl in *; lia).
  all: match goal with Heq : _ ?t [] = POk _ |- _ =>
         first [pose proof (Hpe t [] ltac:(lia) _ _ Heq) | pose proof (Hpm t [] ltac:(lia) _ _ Heq)]; lia
       end.
Qed.

Lemma elements_step_shrinks pv pe s acc :
  shrinks (pv s) s ->
  (forall t acc, (length t < length s)%nat -> shrinks (pe t acc) t) ->
  shrinks (elements_step pv pe s acc) s.
Proof.
  intros Hpv Hpe v r'. unfold elements_step.
  destruct (pv s) as [[v0 r]| |] eqn:E; try done. pose proof (Hpv _ _ eq_refl).
  pose proof (skip_ws_length r). destruct (skip_ws r) as [|c t]; [done|]. simpl in *.
  destruct (c =? c_comma); [|destruct (c =? c_rbrack); [intros [= _ <-]; lia|done]].
  intros Heq. pose proof (Hpe t (acc ++ [v0]) ltac:(lia) _ _ Heq). lia.
Qed.

Lemma members_step_shrinks pv pm s acc :
  (forall t, (length t < length s)%nat -> shrinks (pv t) t) ->
  (forall t acc, (length t < length s)%nat -> shrinks (pm t acc) t) ->
  shrinks (members_step pv pm s acc) s.
Proof.
  intros Hpv Hpm v r0. unfold members_step.
  destruct s as [|c t]; [done|]. destruct (c =? c_quote); [|done].
  destruct (lex_string t) as [[k r]|] eqn:El; [|done].
  pose proof (lex_string_shrinks _ _ _ _ (le_n _) El). pose proof (skip_ws_length r).
  destruct (skip_ws r) as [|c' r']; [done|]. simpl in *. destruct (c' =? c_colon); [|done].
  destruct (pv r') as [[v0 r'']| |] eqn:Ev; try done.
  pose proof (Hpv r' ltac:(simpl; lia) _ _ Ev). pose proof (skip_ws_length r'').
  destruct (skip_ws r'') as [|d t']; [done|]. simpl in *. pose proof (skip_ws_length t').
  destruct (d =? c_comma).
  - intros Heq. pose proof (Hpm (skip_ws t') _ ltac:(simpl; lia) _ _ Heq). simpl; lia.
  - destruct (d =? c_rbrace); [intros [= _ <-]; simpl; lia|done].
Qed.

Lemma parse_shrinks n :
  (forall s, shrinks (parse_value n s) s) /\
  (forall s acc, shrinks (parse_elements n s acc) s) /\
  (forall s acc, shrinks (parse_members n s acc) s).
Proof.
  induction n as [|n (Hv & He & Hm)]; [repeat split; intros; done|].
  repeat split; intros; simpl.
  - apply value_step_shrinks; auto.
  - apply elements_step_shrinks; auto.
  - apply members_step_shrinks; auto.
Qed.

Lemma value_step_nofuel pe pm s :
  (forall t acc, (length t < length s)%nat -> pe t acc <> PFuel) ->
  (forall t acc, (length t < length s)%nat -> pm t acc <> PFuel) ->
  value_step pe pm s <> PFuel.
Proof.
  intros Hpe Hpm. unfold value_step.
  pose proof (skip_ws_length s) as Hs.
  destruct (skip_ws s) as [|c t]; [done|]. simpl in Hs. pose proof (skip_ws_length t).
  repeat case_match; try done; try (apply Hpe || apply Hpm; lia).
  all: match goal with |- of_option ?o <> _ => by destruct o end.
Qed.

Lemma elements_step_nofuel pv pe s acc :
  pv s <> PFuel -> shrinks (pv s) s ->
  (forall t acc, (length t + 2 <= length s)%nat -> pe t acc <> PFuel) ->
  elements_step pv pe s acc <> PFuel.
Proof.
  intros Hf Hpv Hpe. unfold elements_step.
  destruct (pv s) as [[v0 r]| |] eqn:E; try done. pose proof (Hpv _ _ eq_refl).
  pose proof (skip_ws_length r). destruct (skip_ws r) as [|c t]; [done|]. simpl in *.
  destruct (c =? c_comma); [apply Hpe; lia|]. by destruct (c =? c_rbrack).
Qed.

Lemma members_step_nofuel pv pm s acc :
  (forall t, (length t + 2 <= length s)%nat -> pv t <> PFuel) ->
  (forall t, shrinks (pv t) t) ->
  (forall t acc, (length t + 3 <= length s)%nat -> pm t acc <> PFuel) ->
  members_step pv pm s acc <> PFuel.
Proof.
  intros Hf Hpv Hpm. unfold members_step.
  destruct s as [|c t]; [done|]. destruct (c =? c_quote); [|done].
  destruct (lex_string t) as [[k r]|] eqn:El; [|done].
  pose proof (lex_string_shrinks _ _ _ _ (le_n _) El). pose proof (skip_ws_length r).
  destruct (skip_ws r) as [|c' r']; [done|]. simpl in *. destruct (c' =? c_colon); [|done].
  pose proof (Hf r' ltac:(lia)).
  destruct (pv r') as [[v0 r'']| |] eqn:Ev; try done.
  pose proof (Hpv r' _ _ Ev). pose proof (skip_ws_length r'').
  destruct (skip_ws r'') as [|d t']; [done|]. simpl in *. pose proof (skip_ws_length t').
  destruct (d =? c_comma); [apply Hpm; lia|]. by destruct (d =? c_rbrace).
Qed.

Lemma parse_nofuel n :
  (forall s, (2 * length s + 1 <= n)%nat -> parse_value n s <> PFuel) /\
  (forall s acc, (2 * length s + 2 <= n)%nat -> parse_elements n s acc <> PFuel) /\
  (forall s acc, (2 * length s + 2 <= n)%nat -> parse_members n s acc <> PFuel).
Proof.
  induction n as [|n (Hv & He & Hm)]; [repeat split; intros; lia|].
  destruct (parse_shrinks n) as (Sv & _ & _).
  repeat split; intros s; simpl.
  - intros Hn. apply value_step_nofuel; intros; [apply He|apply Hm]; lia.
  - intros acc Hn. apply elements_step_nofuel; [apply Hv; lia|apply Sv|].
    intros; apply He; lia.
  - intros acc Hn. apply members_step_nofuel; [|apply Sv|]; intros; [apply Hv|apply Hm]; lia.
Qed.

Lemma parse_value_fuel s n :
  (2 * length s + 1 <= n)%nat ->
  parse_value n s <> PFuel /\ forall m, (n <= m)%nat -> parse_value m s = parse_value n s.
Proof.
  intros Hn. destruct (parse_nofuel n) as (Hv & _ & _). split; [by apply Hv|].
  intros m Hm. destruct (parse_settles n m Hm) as (Sv & _ & _).
  destruct (Sv s) as [E|E]; [by destruct (Hv s Hn)|done].
Qed.

Lemma parse_value_lift n m s x :
  parse_value n s = POk x -> (n <= m)%nat -> parse_value m s = POk x.
Proof.
  intros E Hm. destruct (parse_settles n m Hm) as (Sv & _ & _).
  destruct (Sv s) as [E'|E']; congruence.
Qed.

Lemma parse_elements_lift n m s acc x :
  parse_elements n s acc = POk x -> (n <= m)%nat -> parse_elements m s acc = POk x.
Proof.
  intros E Hm. destruct (parse_settles n m Hm) as (_ & Se & _).
  destruct (Se s acc) as [E'|E']; congruence.
Qed.

Lemma parse_members_lift n m s acc x :
  parse_members n s acc = POk x -> (n <= m)%nat -> parse_members m s acc = POk x.
Proof.
  intros E Hm. destruct (parse_settles n m Hm) as (_ & _ & Sm).
  destruct (Sm s acc) as [E'|E']; congruence.
Qed.

(** ** Reading back what [JSON.stringify] writes *)

Lemma skip_ws_app ws s : forallb is_ws ws = true -> skip_ws (ws ++ s) = skip_ws s.
Proof.
  induction ws as [|c ws IH]; simpl; [done|]. rewrite andb_true_iff. intros [-> H]. auto.
Qed.

Lemma skip_ws_nonws c s : is_ws c = false -> skip_ws (c :: s) = c :: s.
Proof. simpl. by intros ->. Qed.

Lemma hex_val_digit d : 0 <= d < 16 -> hex_val (hex_digit d) = Some d.
Proof.
  intros Hd. unfold hex_digit, hex_val, is_digit.
  destruct (d <? 10) eqn:E; zbool.
  - rewrite (proj2 (Z.leb_le _ _)), (proj2 (Z.leb_le _ _)) by lia. simpl. f_equal. lia.
  - rewrite (proj2 (Z.leb_le 48 (87 + d))) by lia. rewrite (proj2 (Z.leb_gt (87 + d) 57)) by lia.
    simpl. rewrite (proj2 (Z.leb_le 97 (87 + d))), (proj2 (Z.leb_le (87 + d) 102)) by lia.
    simpl. f_equal. lia.
Qed.

Lemma hex4_escape c :
  0 <= c < 65536 ->
  hex4 (hex_digit (c / 4096 mod 16)) (hex_digit (c / 256 mod 16))
       (hex_digit (c / 16 mod 16)) (hex_digit (c mod 16)) = Some c.
Proof.
  intros Hc. unfold hex4.
  rewrite !hex_val_digit by (split; [apply Z.mod_pos_bound|apply Z.mod_pos_bound]; lia).
  f_equal.
  assert (E2 : c / 256 = c / 16 / 16) by (rewrite Z.div_div; [reflexivity|lia|lia]).
  assert (E3 : c / 4096 = c / 16 / 16 / 16)
    by (rewrite !Z.div_div; [reflexivity|lia|lia|lia|lia]).
  rewrite E2, E3.
  set (q1 := c / 16). set (q2 := q1 / 16). set (q3 := q2 / 16).
  pose proof (Z.div_mod c 16 ltac:(lia)). pose proof (Z.mod_pos_bound c 16 ltac:(lia)).
  pose proof (Z.div_mod q1 16 ltac:(lia)). pose proof (Z.mod_pos_bound q1 16 ltac:(lia)).
  pose proof (Z.div_mod q2 16 ltac:(lia)). pose proof (Z.mod_pos_bound q2 16 ltac:(lia)).
  rewrite (Z.mod_small q3 16) by lia. lia.
Qed.

(** The body of a quoted string is read back as the string. *)
Lemma lex_string_quote_unit c b rest r :
  0 <= c < 65536 -> lex_string rest = Some (b, r) ->
  lex_string (quote_unit c ++ rest) = Some (c :: b, r).
Proof.
  intros Hc Hr. unfold quote_unit.
  repeat match goal with |- context [if (c =? ?k) then _ else _] =>
    destruct (c =? k) eqn:?; [zbool; subst; simpl; by rewrite Hr|] end.
  zbool. destruct ((c <? 32) || is_high c || is_low c) eqn:Es.
  - unfold unicode_escape. simpl. rewrite hex4_escape, Hr by done. done.
  - simpl. unfold c_quote, c_bslash in *.
    rewrite (proj2 (Z.eqb_neq c 34)), (proj2 (Z.eqb_neq c 92)) by done.
    apply orb_false_elim in Es as [Es _]. apply orb_false_elim in Es as [Es _].
    by rewrite Es, Hr.
Qed.

Lemma lex_string_plain c b rest r :
  32 <= c -> c <> c_quote -> c <> c_bslash -> lex_string rest = Some (b, r) ->
  lex_string (c :: rest) = Some (c :: b, r).
Proof.
  intros H1 H2 H3 Hr. simpl.
  rewrite (proj2 (Z.eqb_neq _ _) H2), (proj2 (Z.eqb_neq _ _) H3), (proj2 (Z.ltb_ge _ _) H1).
  by rewrite Hr.
Qed.

Lemma lex_string_quote s rest :
  forallb unit_okb s = true -> lex_string (quote_units s ++ c_quote :: rest) = Some (s, rest).
Proof.
  remember (length s) as n eqn:Hn. revert s Hn.
  induction n as [n IH] using lt_wf_ind. intros [|c t] Hn Hok; [done|].
  simpl in Hok. apply andb_true_iff in Hok as [Hc Ht]. unfold unit_okb in Hc. zbool.
  simpl. destruct (is_high c) eqn:Eh.
  - destruct t as [|d t'].
    + apply lex_string_quote_unit; [lia|]. done.
    + simpl in Ht. apply andb_true_iff in Ht as [Hd Ht']. unfold unit_okb in Hd. zbool.
      destruct (is_low d) eqn:El.
      * unfold is_high, is_low in *. zbool. cbn [app].
        apply lex_string_plain; unfold c_quote, c_bslash; try lia.
        apply lex_string_plain; unfold c_quote, c_bslash; try lia.
        apply (IH (length t')); simpl in Hn; [lia|done|done].
      * rewrite <- app_assoc. apply lex_string_quote_unit; [lia|].
        apply (IH (length (d :: t'))); [simpl in *; lia|done|].
        simpl. rewrite Ht', andb_true_r. unfold unit_okb.
        apply andb_true_iff. split; [apply Z.leb_le|apply Z.ltb_lt]; lia.
  - rewrite <- app_assoc. apply lex_string_quote_unit; [lia|].
    apply (IH (length t)); simpl in Hn; [lia|done|done].
Qed.

(** What may follow a value inside a JSON text. *)
Definition json_stop (rest : jstr) : Prop :=
  match rest with
  | [] => True
  | c :: _ => is_ws c = true \/ c = c_comma \/ c = c_rbrack \/ c = c_rbrace
  end.

(** A serialised value starts with a code unit that is not white space and
    does not close a bracket. *)
Definition value_start (t : jstr) : Prop :=
  match t with
  | [] => False
  | c :: _ => is_ws c = false /\ c <> c_rbrack /\ c <> c_rbrace
  end.

(** [t] reads back as [v] before anything that may follow a value. *)
Definition parses_to (t : jstr) (v : jsval) : Prop :=
  forall rest, json_stop rest -> exists n, parse_value n (t ++ rest) = POk (v, rest).

Lemma json_stop_num_stop rest : json_stop rest -> num_stop rest.
Proof.
  destruct rest as [|c r]; simpl; [done|].
  intros Hc. unfold is_ws, is_digit, is_exp_mark in *.
  destruct Hc as [Hc | [-> | [-> | ->]]]; [|done|done|done].
  repeat split; unfold c_tab, c_lf, c_cr, c_space, c_dot in *;
    repeat (apply orb_true_iff in Hc as [Hc|Hc]); zbool; subst; done.
Qed.

Lemma json_stop_ws_close sp c rest :
  forallb is_ws sp = true -> c = c_comma \/ c = c_rbrack \/ c = c_rbrace ->
  json_stop (sp ++ c :: rest).
Proof.
  destruct sp as [|d sp]; simpl; [tauto|]. rewrite andb_true_iff. intros [Hd _] _. by left.
Qed.

Lemma skip_ws_start t rest : value_start t -> skip_ws (t ++ rest) = t ++ rest.
Proof. destruct t as [|c t]; [done|]. intros [Hc _]. simpl. by rewrite Hc. Qed.

Lemma parse_value_ws n sp s :
  forallb is_ws sp = true -> parse_value n (sp ++ s) = parse_value n s.
Proof. intros Hsp. destruct n; simpl; [done|]. unfold value_step. by rewrite skip_ws_app. Qed.

Lemma lex_number_head s l r :
  lex_number s = Some (l, r) -> exists c l', l = c :: l' /\ (c = c_minus \/ is_digit c = true).
Proof.
  unfold lex_number.
  destruct s as [|c0 t0]; [simpl; destruct (lex_int []); done|].
  destruct (c0 =? c_minus) eqn:Em.
  - destruct (lex_int t0) as [[i s2]|]; [|done].
    destruct (lex_frac s2) as [[f s3]|]; [|done]. destruct (lex_exp s3) as [[x s4]|]; [|done].
    intros [= <- _]. zbool. subst. eauto.
  - destruct (lex_int (c0 :: t0)) as [[i s2]|] eqn:E; [|done].
    destruct (lex_frac s2) as [[f s3]|]; [|done]. destruct (lex_exp s3) as [[x s4]|]; [|done].
    intros [= <- _]. simpl in E. destruct (c0 =? c_zero) eqn:Ez.
    + invc E. zbool. subst. exists c_zero. eexists. split; [done|]. by right.
    + destruct (is_digit c0) eqn:Ed; [|done]. destruct (take_digits t0). invc E. eauto.
Qed.

(** [wrap] is an opening bracket, white space, the parts separated by a
    comma and white space, white space and the closing bracket. *)
Lemma wrap_shape op cl gap indent parts :
  forallb is_ws gap = true -> forallb is_ws indent = true -> parts <> [] ->
  exists sp1 sp2 sp3,
    forallb is_ws sp1 = true /\ forallb is_ws sp2 = true /\ forallb is_ws sp3 = true /\
    wrap op cl gap indent (indent ++ gap) parts = op :: sp1 ++ join (c_comma :: sp2) parts ++ sp3 ++ [cl].
Proof.
  intros Hg Hi Hp. unfold wrap. destruct parts as [|p ps]; [done|].
  case_bool_decide.
  - exists [], [], []. done.
  - exists (c_lf :: indent ++ gap), (c_lf :: indent ++ gap), (c_lf :: indent).
    simpl. rewrite !forallb_app, Hg, Hi. repeat split; try done.
    all: by rewrite <- ?app_assoc.
Qed.

Lemma parse_elements_join parts vals sp sp3 rest :
  Forall2 (fun p v => parses_to p v /\ value_start p) parts vals -> parts <> [] ->
  forallb is_ws sp = true -> forallb is_ws sp3 = true ->
  forall sp0 acc, forallb is_ws sp0 = true ->
  exists n, parse_elements n (sp0 ++ join (c_comma :: sp) parts ++ sp3 ++ c_rbrack :: rest) acc
            = POk (JArr (acc ++ vals), rest).
Proof.
  induction 1 as [|p v parts vals [Hp Hs] HF IH]; [done|].
  intros _ Hsp Hsp3 sp0 acc Hsp0. destruct parts as [|p2 parts].
  - invc HF. simpl join.
    destruct (Hp (sp3 ++ c_rbrack :: rest)) as [n Hn]; [by apply json_stop_ws_close; auto|].
    exists (S n). simpl. unfold elements_step. rewrite parse_value_ws, Hn, skip_ws_app by done.
    done.
  - destruct (Hp (c_comma :: sp ++ join (c_comma :: sp) (p2 :: parts) ++ sp3 ++ c_rbrack :: rest))
      as [n1 Hn1]; [simpl; auto|].
    destruct (IH ltac:(done) Hsp Hsp3 sp (acc ++ [v]) Hsp) as [n2 Hn2].
    exists (S (n1 + n2)). cbn [parse_elements]. unfold elements_step.
    change (join (c_comma :: sp) (p :: p2 :: parts))
      with (p ++ (c_comma :: sp) ++ join (c_comma :: sp) (p2 :: parts)).
    rewrite parse_value_ws by done. rewrite <- !app_assoc.
    rewrite (parse_value_lift _ _ _ _ Hn1) by lia. cbn [skip_ws].
    change (is_ws c_comma) with false. change (c_comma =? c_comma) with true. cbv iota beta.
    rewrite (parse_elements_lift _ _ _ _ _ Hn2) by lia. by rewrite <- app_assoc.
Qed.

Lemma members_step_member pv pm k spc t v X acc :
  forallb unit_okb k = true -> pv (spc ++ t ++ X) = POk (v, X) ->
  members_step pv pm ((quote k ++ c_colon :: spc ++ t) ++ X) acc =
    match skip_ws X with
    | d :: t' =>
        if d =? c_comma then pm (skip_ws t') (obj_define k v acc)
        else if d =? c_rbrace then POk (JObj (obj_define k v acc), t')
        else PErr
    | [] => PErr
    end.
Proof.
  intros Hk Hv. unfold quote, members_step. cbn [app].
  change (c_quote =? c_quote) with true. cbv iota beta.
  rewrite <- !app_assoc. cbn [app]. rewrite lex_string_quote by done.
  cbn [skip_ws]. change (is_ws c_colon) with false. change (c_colon =? c_colon) with true.
  cbv iota beta. by rewrite <- app_assoc, Hv.
Qed.

Definition member_part (spc : jstr) (p : jstr) (kv : jstr * jsval) : Prop :=
  exists t, p = quote kv.1 ++ c_colon :: spc ++ t /\ parses_to t kv.2 /\
            forallb unit_okb kv.1 = true.

Lemma parse_members_join parts kvs sp sp3 spc rest :
  Forall2 (member_part spc) parts kvs -> parts <> [] ->
  forallb is_ws sp = true -> forallb is_ws sp3 = true -> forallb is_ws spc = true ->
  forall acc, exists n,
    parse_members n (join (c_comma :: sp) parts ++ sp3 ++ c_rbrace :: rest) acc
      = POk (JObj (fold_left (fun acc kv => obj_define kv.1 kv.2 acc) kvs acc), rest).
Proof.
  induction 1 as [|p [k v] parts kvs (t & -> & Hp & Hk) HF IH]; [done|].
  intros _ Hsp Hsp3 Hspc acc. cbn [fst snd] in *. destruct parts as [|p2 parts].
  - invc HF. cbn [join].
    destruct (Hp (sp3 ++ c_rbrace :: rest)) as [n Hn]; [by apply json_stop_ws_close; auto|].
    exists (S n). cbn [parse_members].
    rewrite (members_step_member _ _ _ _ t v); [|done|by rewrite parse_value_ws].
    rewrite skip_ws_app by done. done.
  - destruct (Hp (c_comma :: sp ++ join (c_comma :: sp) (p2 :: parts) ++ sp3 ++ c_rbrace :: rest))
      as [n1 Hn1]; [simpl; auto|].
    destruct (IH ltac:(done) Hsp Hsp3 Hspc (obj_define k v acc)) as [n2 Hn2].
    exists (S (n1 + n2)). cbn [parse_members].
    change (join (c_comma :: sp) ((quote k ++ c_colon :: spc ++ t) :: p2 :: parts))
      with ((quote k ++ c_colon :: spc ++ t) ++ (c_comma :: sp) ++ join (c_comma :: sp) (p2 :: parts)).
    rewrite <- (app_assoc (quote k ++ c_colon :: spc ++ t)).
    rewrite (members_step_member _ _ _ _ t v).
    2: done.
    2: { rewrite parse_value_ws by done. rewrite <- !app_assoc.
         apply (parse_value_lift _ _ _ _ Hn1). lia. }
    rewrite <- !app_assoc. cbn [app skip_ws].
    change (is_ws c_comma) with false. change (c_comma =? c_comma) with true.
    cbv iota beta.
    rewrite (skip_ws_app sp) by done.
    assert (Hh : exists j, join (c_comma :: sp) (p2 :: parts) = c_quote :: j).
    { invc HF. destruct H1 as (t2 & -> & _). destruct parts; simpl; eauto. }
    destruct Hh as [j Hj]. rewrite Hj. cbn [app skip_ws].
    change (is_ws c_quote) with false. cbv iota.
    rewrite Hj in Hn2. cbn [app] in Hn2.
    by rewrite (parse_members_lift _ _ _ _ _ Hn2) by lia.
Qed.

Lemma jnorm_elem_wf x :
  jwf x = true -> match x with JUndefined | JBuiltin _ => JNull | _ => jnorm x end = jnorm x.
Proof. by destruct x. Qed.

Lemma jnorm_arr_wf xs : jwf (JArr xs) = true -> jnorm (JArr xs) = JArr (map jnorm xs).
Proof.
  simpl. intros H. f_equal. apply map_ext_in. intros x Hx.
  apply jnorm_elem_wf. by apply (proj1 (forallb_forall _ _) H).
Qed.

Lemma jnorm_obj_wf ps :
  jwf (JObj ps) = true -> jnorm (JObj ps) = JObj (map (fun kv => (kv.1, jnorm kv.2)) ps).
Proof.
  simpl. rewrite andb_true_iff. intros [_ H]. f_equal.
  induction ps as [|[k v] ps IH]; simpl in *; [done|].
  apply andb_true_iff in H as [Hkv H]. apply andb_true_iff in Hkv as [_ Hv].
  rewrite <- IH by done. by destruct v.
Qed.

Lemma join_cons_app sep p ps : exists j, join sep (p :: ps) = p ++ j.
Proof. destruct ps; simpl; [exists []; by rewrite app_nil_r|eauto]. Qed.

Lemma value_start_app p j : value_start p -> value_start (p ++ j).
Proof. by destruct p. Qed.

Lemma parses_lit lit v :
  (forall rest, parse_value 1 (lit ++ rest) = POk (v, rest)) -> parses_to lit v.
Proof. intros H rest _. exists 1%nat. apply H. Qed.

Lemma parses_null : parses_to ⟪"null"⟫ JNull /\ value_start ⟪"null"⟫.
Proof. split; [apply parses_lit; intros; reflexivity|done]. Qed.

Lemma parses_bool (b : bool) : parses_to (if b then ⟪"true"⟫ else ⟪"false"⟫) (JBool b) /\
  value_start (if b then ⟪"true"⟫ else ⟪"false"⟫).
Proof. destruct b; (split; [apply parses_lit; intros; reflexivity|done]). Qed.

Lemma parses_number {NL : @JsNumberLaws NM} (n : num) :
  num_is_finite n = true ->
  parses_to (num_to_string n) (JNum (num_of_text (num_to_string n))) /\ value_start (num_to_string n).
Proof.
  intros Hf. pose proof (num_print_lexeme n Hf) as Hl.
  assert (Hh : exists c t', num_to_string n = c :: t' /\ (c = c_minus \/ is_digit c = true)).
  { unfold is_json_number in Hl. destruct (lex_number (num_to_string n)) as [[l [|]]|] eqn:E; try done.
    pose proof (lex_number_split _ _ _ E) as Hs. rewrite app_nil_r in Hs. rewrite Hs.
    by apply (lex_number_head _ _ _ E). }
  destruct Hh as (c & t' & Ht & Hc).
  assert (Hc' : c = 45 \/ 48 <= c <= 57) by (destruct Hc as [->|Hc]; [by left|right; by apply is_digit_true]).
  assert (value_start (num_to_string n)) as Hs.
  { rewrite Ht. simpl. unfold is_ws, c_tab, c_lf, c_cr, c_space, c_rbrack, c_rbrace.
    repeat split; try lia. }
  split; [|done]. intros rest Hr. exists 1%nat. cbn [parse_value]. unfold value_step.
  rewrite skip_ws_start by done. rewrite Ht. cbn [app].
  unfold c_quote, c_lbrack, c_lbrace.
  repeat (rewrite (proj2 (Z.eqb_neq c _)) by lia).
  change (c :: t' ++ rest) with ((c :: t') ++ rest). rewrite <- Ht.
  by rewrite lex_number_lexeme by (done || by apply json_stop_num_stop).
Qed.

Lemma parses_string s :
  forallb unit_okb s = true -> parses_to (quote s) (JStr s) /\ value_start (quote s).
Proof.
  intros Hs. split; [|done]. intros rest _. exists 1%nat. cbn [parse_value]. unfold value_step, quote.
  rewrite skip_ws_start by done. cbn [app]. unfold c_quote at 1.
  change (34 =? 110) with false. change (34 =? 116) with false. change (34 =? 102) with false.
  change (34 =? c_quote) with true. cbv iota beta.
  rewrite <- app_assoc. cbn [app]. by rewrite lex_string_quote.
Qed.

Lemma value_step_lbrack pe pm t :
  value_step pe pm (c_lbrack :: t) =
    if starts_with c_rbrack (skip_ws t) then POk (JArr [], tail (skip_ws t)) else pe (skip_ws t) [].
Proof. reflexivity. Qed.

Lemma value_step_lbrace pe pm t :
  value_step pe pm (c_lbrace :: t) =
    if starts_with c_rbrace (skip_ws t) then POk (JObj [], tail (skip_ws t)) else pm (skip_ws t) [].
Proof. reflexivity. Qed.

Lemma parses_array gap indent parts vals :
  forallb is_ws gap = true -> forallb is_ws indent = true ->
  Forall2 (fun p v => parses_to p v /\ value_start p) parts vals ->
  parses_to (wrap c_lbrack c_rbrack gap indent (indent ++ gap) parts) (JArr vals) /\
  value_start (wrap c_lbrack c_rbrack gap indent (indent ++ gap) parts).
Proof.
  intros Hg Hi HF. split; [|unfold wrap; destruct parts; [done|by case_bool_decide]].
  destruct parts as [|p ps].
  - invc HF. apply parses_lit. intros rest. reflexivity.
  - destruct (wrap_shape c_lbrack c_rbrack gap indent (p :: ps) Hg Hi ltac:(done))
      as (sp1 & sp2 & sp3 & H1 & H2 & H3 & ->).
    intros rest _.
    destruct (parse_elements_join _ _ sp2 sp3 rest HF ltac:(done) H2 H3 [] [] eq_refl) as [n Hn].
    exists (S n). cbn [parse_value]. cbn [app]. rewrite value_step_lbrack.
    rewrite <- !app_assoc, skip_ws_app by done.
    destruct (join_cons_app (c_comma :: sp2) p ps) as [j Hj]. inversion HF as [|? ? ? ? [_ Hs] _]; subst.
    rewrite Hj, <- app_assoc, skip_ws_start by done.
    destruct p as [|c p']; [done|]. destruct Hs as (_ & Hc & _).
    cbn [starts_with app]. rewrite (proj2 (Z.eqb_neq _ _) Hc).
    rewrite Hj in Hn. cbn [app] in Hn. rewrite <- !app_assoc in Hn. exact Hn.
Qed.

Lemma parses_object gap indent parts kvs spc :
  forallb is_ws gap = true -> forallb is_ws indent = true -> forallb is_ws spc = true ->
  Forall2 (member_part spc) parts kvs -> obj_canon kvs = true ->
  parses_to (wrap c_lbrace c_rbrace gap indent (indent ++ gap) parts) (JObj kvs) /\
  value_start (wrap c_lbrace c_rbrace gap indent (indent ++ gap) parts).
Proof.
  intros Hg Hi Hspc HF Hc. split; [|unfold wrap; destruct parts; [done|by case_bool_decide]].
  destruct parts as [|p ps].
  - invc HF. apply parses_lit. intros rest. reflexivity.
  - destruct (wrap_shape c_lbrace c_rbrace gap indent (p :: ps) Hg Hi ltac:(done))
      as (sp1 & sp2 & sp3 & H1 & H2 & H3 & ->).
    intros rest _.
    destruct (parse_members_join _ _ sp2 sp3 spc rest HF ltac:(done) H2 H3 Hspc []) as [n Hn].
    rewrite (obj_define_fold_canon kvs []) in Hn by done.
    exists (S n). cbn [parse_value]. cbn [app]. rewrite value_step_lbrace.
    rewrite <- !app_assoc, skip_ws_app by done.
    assert (Hj : exists j, join (c_comma :: sp2) (p :: ps) = c_quote :: j).
    { inversion HF as [|? ? ? ? (t & -> & _)]; subst. destruct ps; simpl; eauto. }
    destruct Hj as [j Hj]. rewrite Hj. cbn [app skip_ws starts_with].
    change (is_ws c_quote) with false. change (c_quote =? c_rbrace) with false. cbv iota beta.
    rewrite Hj in Hn. exact Hn.
Qed.

Lemma ser_some gap indent v : jwf v = true -> exists t, ser gap indent v = Some t.
Proof. destruct v as [| |[]| | | | |]; simpl; try done; eauto. Qed.

Lemma ser_parses {NL : @JsNumberLaws NM} gap :
  forallb is_ws gap = true ->
  forall v, jwf v = true -> forall indent t, forallb is_ws indent = true ->
  ser gap indent v = Some t -> parses_to t (jnorm v) /\ value_start t.
Proof.
  intros Hg v. induction v as [| | b | n | s | xs IH | ps IH | s] using jsval_ind';
    intros Hwf indent t Hi Hs; simpl in Hs; try done.
  - invc Hs. apply parses_null.
  - destruct b; invc Hs; [apply (parses_bool true)|apply (parses_bool false)].
  - simpl. destruct (num_is_finite n) eqn:Hf; invc Hs; [by apply parses_number|apply parses_null].
  - invc Hs. by apply parses_string.
  - invc Hs. rewrite jnorm_arr_wf by done. apply parses_array; [done|done|].
    simpl in Hwf. clear -IH Hwf Hg Hi. induction IH as [|x xs Hx _ IHxs]; simpl in *; [constructor|].
    apply andb_true_iff in Hwf as [Hx' Hxs]. destruct (ser_some gap (indent ++ gap) x Hx') as [t Ht].
    constructor; [|by apply IHxs]. rewrite Ht. simpl.
    apply (Hx Hx' (indent ++ gap)); [by rewrite forallb_app, Hi, Hg|done].
  - invc Hs. rewrite jnorm_obj_wf by done.
    simpl in Hwf. apply andb_true_iff in Hwf as [Hc Hwf].
    apply (parses_object _ _ _ _ (if bool_decide (gap = []) then [] else [c_space])); try done.
    + by case_bool_decide.
    + clear -IH Hwf Hg Hi. induction IH as [|[k x] ps Hx _ IHps]; simpl in *; [constructor|].
      apply andb_true_iff in Hwf as [Hkx Hps]. apply andb_true_iff in Hkx as [Hk Hx'].
      destruct (ser_some gap (indent ++ gap) x Hx') as [t Ht]. rewrite Ht.
      constructor; [|by apply IHps]. exists t. split; [done|]. split; [|done].
      apply (Hx Hx' (indent ++ gap)); [by rewrite forallb_app, Hi, Hg|done].
    + rewrite <- Hc. apply obj_canon_keys. rewrite map_map. done.
Qed.

Lemma gap_of_space_ws n : forallb is_ws (gap_of_space n) = true.
Proof. unfold gap_of_space. generalize (Nat.min 10 n). intros m. by induction m. Qed.

Lemma json_roundtrip {NL : @JsNumberLaws NM} v space t :
  jwf v = true -> json_stringify v space = Some t -> json_parse t = Some (jnorm v).
Proof.
  intros Hwf Hs.
  destruct (ser_parses (gap_of_space space) (gap_of_space_ws space) v Hwf [] t eq_refl Hs)
    as [Hp _].
  destruct (Hp [] I) as [n Hn]. rewrite app_nil_r in Hn.
  unfold json_parse.
  destruct (parse_value_fuel t (2 * length t + 2) ltac:(lia)) as [Hf Hm].
  rewrite <- (Hm (Nat.max n (2 * length t + 2))) by lia.
  by rewrite (parse_value_lift _ _ _ _ Hn) by lia.
Qed.

(** C6: what [JSON.stringify(v, null, space)] writes, [JSON.parse] reads
    back as [jnorm v], for any JSON value [v] (canonical objects, 16-bit
    strings): the round trip of [writeStudentData] then
    [readStudentData]. *)
Theorem json_parse_stringify {NL : @JsNumberLaws NM} v space t :
  jwf v = true -> json_stringify v space = Some t -> json_parse t = Some (jnorm v).
Proof. apply json_roundtrip. Qed.

(** ** What [JSON.parse] builds is JSON data *)

Lemma skip_ws_bounded s : bounded s = true -> bounded (skip_ws s) = true.
Proof. induction s as [|c t IH]; simpl; [done|]. destruct (is_ws c); simpl; [|done]. by rewrite andb_true_iff; intros []; auto. Qed.

Lemma hex4_bound h1 h2 h3 h4 u : hex4 h1 h2 h3 h4 = Some u -> 0 <= u < 65536.
Proof.
  unfold hex4.
  assert (Hh : forall h x, hex_val h = Some x -> 0 <= x < 16).
  { intros h x. unfold hex_val, is_digit.
    repeat (case_match; zbool; [intros [= <-]; lia|]). done. }
  destruct (hex_val h1) eqn:E1, (hex_val h2) eqn:E2, (hex_val h3) eqn:E3, (hex_val h4) eqn:E4;
    try done.
  intros [= <-]. apply Hh in E1, E2, E3, E4. lia.
Qed.

Lemma simple_escape_bound e u : simple_escape e = Some u -> unit_okb u = true.
Proof. unfold simple_escape. repeat (case_match; [intros [= <-]; done|]). done. Qed.

Lemma lex_string_bounded n t b r :
  (length t <= n)%nat -> bounded t = true -> lex_string t = Some (b, r) ->
  bounded b = true /\ bounded r = true.
Proof.
  revert t b r. induction n as [|n IH]; intros [|c t] b r Hn Ht; simpl; try done;
    [simpl in Hn; lia|]. simpl in Hn, Ht. apply andb_true_iff in Ht as [Hc Ht].
  destruct (c =? c_quote); [intros [= <- <-]; done|].
  destruct (c =? c_bslash).
  - destruct t as [|e t']; [done|]. simpl in Hn, Ht. apply andb_true_iff in Ht as [_ Ht'].
    destruct (simple_escape e) eqn:Es.
    + destruct (lex_string t') as [[b' r']|] eqn:E; [|done]. intros [= <- <-].
      destruct n; [simpl in Hn; lia|].
      destruct (IH t' b' r' ltac:(lia) Ht' E). simpl. rewrite (simple_escape_bound _ _ Es). done.
    + destruct (e =? 117); [|done].
      destruct t' as [|h1 [|h2 [|h3 [|h4 t'']]]]; try done.
      destruct (hex4 h1 h2 h3 h4) eqn:Eh, (lex_string t'') as [[b' r']|] eqn:E; try done.
      intros [= <- <-]. simpl in Hn, Ht'. rewrite !andb_true_iff in Ht'.
      destruct (IH t'' b' r' ltac:(lia) ltac:(tauto) E). simpl.
      apply hex4_bound in Eh. unfold unit_okb. rewrite !andb_true_iff, Z.leb_le, Z.ltb_lt. tauto.
  - destruct (c <? 32); [done|].
    destruct (lex_string t) as [[b' r']|] eqn:E; [|done]. intros [= <- <-].
    destruct (IH t b' r' ltac:(lia) Ht E). simpl. by rewrite Hc.
Qed.

(** A successful parse returns JSON data and the rest of a bounded text. *)
Definition wf_result (res : parse_result) : Prop :=
  forall v r, res = POk (v, r) -> jwf v = true /\ bounded r = true.

Lemma members_ok_define k v acc :
  bounded k = true -> jwf v = true ->
  forallb (fun kv => bounded kv.1 && jwf kv.2) acc = true ->
  forallb (fun kv => bounded kv.1 && jwf kv.2) (obj_define k v acc) = true.
Proof.
  intros Hk Hv Hacc. apply forallb_forall. intros [k' v'] Hin.
  assert (In (k', v') acc \/ (k', v') = (k, v)) as [H|[= -> ->]].
  { unfold obj_define in Hin. destruct (existsb _ acc).
    - apply in_map_iff in Hin as ([k'' v''] & E & Hin). case_bool_decide; [|left; congruence].
      right. simpl in *. congruence.
    - destruct (array_index k).
      + rewrite (insert_index_perm _ k v acc) in Hin. destruct Hin as [E|Hin]; [by right|by left].
      + apply in_app_iff in Hin as [Hin|[E|[]]]; [by left|by right]. }
  - exact (proj1 (forallb_forall _ _) Hacc _ H).
  - simpl. by rewrite Hk, Hv.
Qed.

Lemma bounded_drop n l : bounded l = true -> bounded (drop n l) = true.
Proof.
  revert l. induction n as [|n IH]; intros [|c l]; simpl; try done.
  rewrite andb_true_iff. intros [_ H]. auto.
Qed.

Lemma bounded_suffix l r : bounded (l ++ r) = true -> bounded r = true.
Proof. rewrite bounded_app. by rewrite andb_true_iff; intros []. Qed.

Abbreviation members_ok := (forallb (fun kv : jstr * jsval => bounded kv.1 && jwf kv.2)).

Lemma value_step_wf pe pm s :
  bounded s = true ->
  (forall t, bounded t = true -> wf_result (pe t [])) ->
  (forall t, bounded t = true -> wf_result (pm t [])) ->
  wf_result (value_step pe pm s).
Proof.
  intros Hs Hpe Hpm v r. unfold value_step.
  pose proof (skip_ws_bounded s Hs) as Hs'.
  destruct (skip_ws s) as [|c t]; [done|].
  pose proof Hs' as Hct. simpl in Hs'. apply andb_true_iff in Hs' as [_ Ht].
  pose proof (skip_ws_bounded t Ht) as Ht'.
  repeat case_match; subst; try done; intros Heq;
    try (apply of_option_fmap_ok in Heq as ([? ?] & ? & ?)); simplify_eq/=;
    try (split; [done|]); try (by apply bounded_drop).
  - match goal with H : lex_string _ = Some _ |- _ =>
      exact (lex_string_bounded _ _ _ _ (le_n _) Ht H) end.
  - destruct (skip_ws t); [done|]. simpl in *. by apply andb_true_iff in Ht' as [_ ?].
  - by apply (Hpe _ Ht').
  - destruct (skip_ws t); [done|]. simpl in *. by apply andb_true_iff in Ht' as [_ ?].
  - by apply (Hpm _ Ht').
  - match goal with H : lex_number _ = Some _ |- _ => apply lex_number_split in H end.
    match goal with H : _ = ?l ++ _ |- _ => apply (bounded_suffix l); rewrite <- H; exact Hct end.
Qed.

Lemma elements_step_wf pv pe s acc :
  bounded s = true -> forallb jwf acc = true ->
  (forall t, bounded t = true -> wf_result (pv t)) ->
  (forall t acc', bounded t = true -> forallb jwf acc' = true -> wf_result (pe t acc')) ->
  wf_result (elements_step pv pe s acc).
Proof.
  intros Hs Hacc Hpv Hpe v' r'. unfold elements_step.
  destruct (pv s) as [[v r]| |] eqn:E; try done.
  destruct (Hpv s Hs v r E) as [Hv Hr].
  pose proof (skip_ws_bounded r Hr) as Hr'.
  destruct (skip_ws r) as [|c t]; [done|]. simpl in Hr'. apply andb_true_iff in Hr' as [_ Ht].
  assert (Hacc' : forallb jwf (acc ++ [v]) = true) by (rewrite forallb_app; simpl; by rewrite Hacc, Hv).
  case_match; [by apply Hpe|]. case_match; [|done]. by intros [= <- <-].
Qed.

Lemma members_step_wf pv pm s acc :
  bounded s = true -> obj_canon acc && members_ok acc = true ->
  (forall t, bounded t = true -> wf_result (pv t)) ->
  (forall t acc', bounded t = true -> obj_canon acc' && members_ok acc' = true ->
     wf_result (pm t acc')) ->
  wf_result (members_step pv pm s acc).
Proof.
  intros Hs Hacc Hpv Hpm v' r'. apply andb_true_iff in Hacc as [Hc Hok].
  unfold members_step. destruct s as [|c0 t0]; [done|].
  simpl in Hs. apply andb_true_iff in Hs as [_ Hs].
  case_match; [|done].
  destruct (lex_string t0) as [[k r]|] eqn:Ek; [|done].
  destruct (lex_string_bounded _ _ _ _ (le_n _) Hs Ek) as [Hk Hr].
  pose proof (skip_ws_bounded r Hr) as Hr'.
  destruct (skip_ws r) as [|c r1]; [done|]. simpl in Hr'. apply andb_true_iff in Hr' as [_ Hr1].
  case_match; [|done].
  destruct (pv r1) as [[v r2]| |] eqn:Ev; try done.
  destruct (Hpv r1 Hr1 v r2 Ev) as [Hv Hr2].
  pose proof (skip_ws_bounded r2 Hr2) as Hr2'.
  destruct (skip_ws r2) as [|d t]; [done|]. simpl in Hr2'. apply andb_true_iff in Hr2' as [_ Ht].
  assert (Hacc' : obj_canon (obj_define k v acc) && members_ok (obj_define k v acc) = true).
  { rewrite andb_true_iff. split; [by apply obj_define_keeps_canon|by apply members_ok_define]. }
  case_match; [apply Hpm; [by apply skip_ws_bounded|done]|].
  case_match; [|done]. intros [= <- <-]. split; [done|done].
Qed.

Lemma parse_wf n :
  ((forall s, bounded s = true -> wf_result (parse_value n s)) /\
  (forall s acc, bounded s = true -> forallb jwf acc = true -> wf_result (parse_elements n s acc)) /\
  (forall s acc, bounded s = true -> obj_canon acc && members_ok acc = true ->
     wf_result (parse_members n s acc)))%type.
Proof.
  induction n as [|n (IHv & IHe & IHm)]; [split_and!; done|]. split_and!; simpl.
  - intros s Hs. apply value_step_wf; [done|by intros t Ht; apply IHe|by intros t Ht; apply IHm].
  - intros s acc Hs Hacc. by apply elements_step_wf.
  - intros s acc Hs Hacc. by apply members_step_wf.
Qed.

Lemma json_parse_jwf text v :
  bounded text = true -> json_parse text = Some v -> jwf v = true.
Proof.
  intros Ht. unfold json_parse.
  destruct (parse_value _ text) as [[v' r]| |] eqn:E; try done.
  case_bool_decide; [|done]. intros [= <-].
  exact (proj1 (proj1 (parse_wf _) text Ht v' r E)).
Qed.

(** ** What [JSON.stringify] prints is a text of 16-bit code units *)

Lemma bounded_units s : bounded (units s) = true.
Proof.
  apply forallb_forall. intros c Hc. apply unit_okb_spec.
  exact (proj1 (List.Forall_forall _ _) (units_bounded s) c Hc).
Qed.

Lemma hex_digit_ok d : 0 <= d < 16 -> unit_okb (hex_digit d) = true.
Proof. intros Hd. apply unit_okb_spec. unfold hex_digit. case_match; zbool; lia. Qed.

Lemma quote_unit_bounded c : unit_okb c = true -> bounded (quote_unit c) = true.
Proof.
  intros Hc. unfold quote_unit. repeat (case_match; [done|]).
  case_match; [|simpl; by rewrite Hc]. unfold unicode_escape. simpl.
  rewrite !hex_digit_ok; try done; apply Z.mod_pos_bound; lia.
Qed.

Lemma quote_units_bounded s : bounded s = true -> bounded (quote_units s) = true.
Proof.
  remember (length s) as n eqn:Hn. revert s Hn.
  induction n as [n IH] using lt_wf_ind. intros [|c t] Hn Hs; [done|].
  simpl in Hs. apply andb_true_iff in Hs as [Hc Ht]. simpl.
  assert (Hr : bounded (quote_units t) = true) by (apply (IH (length t)); simpl in Hn; [lia|done|done]).
  case_match; [|by rewrite bounded_app, quote_unit_bounded, Hr].
  destruct t as [|d t']; [by rewrite quote_unit_bounded|].
  case_match; [|by rewrite bounded_app, quote_unit_bounded, Hr].
  simpl in Ht |- *. apply andb_true_iff in Ht as [Hd Ht']. rewrite Hc, Hd. simpl.
  apply (IH (length t')); simpl in Hn; [lia|done|done].
Qed.

(** A text of ASCII units. *)
Definition ascii (s : jstr) : bool := forallb (fun c => (0 <=? c) && (c <? 128)) s.

Lemma ascii_app a b : ascii (a ++ b) = ascii a && ascii b.
Proof. apply forallb_app. Qed.

Lemma lexeme_ascii t : is_json_number t = true -> ascii t = true.
Proof.
  unfold is_json_number. destruct (lex_number t) as [[l [|c r]]|] eqn:E; try done.
  intros _. pose proof (lex_number_split _ _ _ E) as Ht. rewrite app_nil_r in Ht. subst l.
  apply forallb_forall. intros c Hc. apply andb_true_iff. rewrite Z.leb_le, Z.ltb_lt.
  pose proof (num_char_ascii c (proj1 (forallb_forall _ _) (lex_number_chars _ _ _ E) c Hc)). lia.
Qed.

Lemma gap_ascii space : ascii (gap_of_space space) = true.
Proof. unfold gap_of_space. induction (Nat.min 10 space) as [|k IH]; [done|]. simpl. by rewrite IH. Qed.

(** [ser] builds its text from ASCII punctuation, the gap, printed numbers
    and quoted strings: any property of texts that holds of ASCII units
    and of quoted 16-bit strings and is closed under concatenation holds
    of what it prints. *)
Section SerText.
Context {NL : @JsNumberLaws NM}.
Variable P : jstr -> bool.
Hypothesis P_app : forall a b, P a = true -> P b = true -> P (a ++ b) = true.
Hypothesis P_unit : forall c, 0 <= c < 128 -> P [c] = true.
Hypothesis P_quote : forall s, bounded s = true -> P (quote_units s) = true.

Lemma P_cons c s : 0 <= c < 128 -> P s = true -> P (c :: s) = true.
Proof using P_app P_unit. intros Hc Hs. exact (P_app [c] s (P_unit c Hc) Hs). Qed.

Lemma P_ascii s : P [] = true -> ascii s = true -> P s = true.
Proof using P_app P_unit.
  intros Hnil. induction s as [|c t IH]; [done|]. cbn [ascii forallb]. rewrite !andb_true_iff, Z.leb_le, Z.ltb_lt.
  intros [Hc Ht]. apply P_cons; [lia|by apply IH].
Qed.

Ltac p_solve :=
  repeat first
    [ apply P_cons; [unfold c_comma, c_lf, c_quote, c_colon, c_space; lia|]
    | apply P_app | solve [apply P_ascii; done] ].

Lemma join_P sep parts :
  P [] = true -> ascii sep = true -> Forall (fun p => P p = true) parts -> P (join sep parts) = true.
Proof using P_app P_unit.
  intros Hnil Hsep. induction 1 as [|p ps Hp Hps IH]; [done|]. simpl.
  destruct ps; [done|]. by p_solve.
Qed.

Lemma wrap_P op cl gap indent parts :
  P [] = true -> 0 <= op < 128 -> 0 <= cl < 128 -> ascii gap = true -> ascii indent = true ->
  Forall (fun p => P p = true) parts -> P (wrap op cl gap indent (indent ++ gap) parts) = true.
Proof using P_app P_unit.
  intros Hnil Ho Hc Hg Hi Hp. unfold wrap. destruct parts as [|p ps]; [by p_solve|].
  assert (ascii (indent ++ gap) = true) by (by rewrite ascii_app, Hi, Hg).
  case_bool_decide; p_solve; try done; apply join_P; try done; simpl; by rewrite ascii_app, Hi, Hg.
Qed.

Lemma ser_P gap v :
  P [] = true -> ascii gap = true ->
  forall indent t, ascii indent = true -> jwf v = true -> ser gap indent v = Some t -> P t = true.
Proof using NL P_app P_unit P_quote.
  intros Hnil Hg. induction v as [| | b | n | s | xs IH | ps IH | s] using jsval_ind';
    intros indent t Hi Hv; simpl; try done.
  - intros [= <-]. by p_solve.
  - destruct b; intros [= <-]; by p_solve.
  - intros [= <-]. case_match; [apply P_ascii; [done|]; by apply lexeme_ascii, num_print_lexeme|by p_solve].
  - intros [= <-]. unfold quote. p_solve. by apply P_quote.
  - intros [= <-]. apply wrap_P; try done. simpl in Hv.
    assert (Hi' : ascii (indent ++ gap) = true) by (by rewrite ascii_app, Hi, Hg).
    apply List.Forall_forall. intros p (x & <- & Hx)%in_map_iff.
    pose proof (proj1 (forallb_forall _ _) Hv x Hx) as Hxv.
    destruct (ser_some gap (indent ++ gap) x Hxv) as [u Hu]. cbv beta. rewrite Hu. simpl.
    exact (proj1 (List.Forall_forall _ _) IH x Hx _ u Hi' Hxv Hu).
  - intros [= <-]. apply wrap_P; try done. simpl in Hv. apply andb_true_iff in Hv as [_ Hv].
    assert (Hi' : ascii (indent ++ gap) = true) by (by rewrite ascii_app, Hi, Hg).
    apply List.Forall_forall. intros p (kv & Hkv & Hp)%in_flat_map.
    pose proof (proj1 (forallb_forall _ _) Hv kv Hkv) as Hkvok. apply andb_true_iff in Hkvok as [Hk Hx].
    destruct (ser gap (indent ++ gap) kv.2) as [u|] eqn:Hu; [|done].
    destruct Hp as [<-|[]].
    pose proof (proj1 (List.Forall_forall _ _) IH kv Hkv _ u Hi' Hx Hu) as Hu'.
    unfold quote. case_bool_decide; p_solve; try done; by apply P_quote.
Qed.

End SerText.

(** [JSON.stringify] of JSON data: the properties of [SerText] hold of the
    whole text. *)
Lemma json_stringify_text {NL : @JsNumberLaws NM} (P : jstr -> bool) v space t :
  P [] = true -> (forall a b, P a = true -> P b = true -> P (a ++ b) = true) ->
  (forall c, 0 <= c < 128 -> P [c] = true) -> (forall s, bounded s = true -> P (quote_units s) = true) ->
  jwf v = true -> json_stringify v space = Some t -> P t = true.
Proof. intros Hnil Happ Hunit Hq Hv. apply (ser_P P Happ Hunit Hq); [done|apply gap_ascii|done|done]. Qed.

Lemma json_stringify_units {NL : @JsNumberLaws NM} v space t :
  jwf v = true -> json_stringify v space = Some t -> bounded t = true.
Proof.
  apply json_stringify_text; [done| | |apply quote_units_bounded].
  - intros a b Ha Hb. by rewrite bounded_app, Ha, Hb.
  - intros c Hc. simpl. rewrite andb_true_r. apply unit_okb_spec. lia.
Qed.

(** ** [jnorm] keeps JSON data and is idempotent *)

Lemma jwf_jnorm v : jwf v = true -> jwf (jnorm v) = true.
Proof.
  induction v as [| | b | n | s | xs IH | ps IH | s] using jsval_ind'; intros Hv; try done.
  - simpl. by case_match.
  - rewrite jnorm_arr_wf by done. simpl in *. apply forallb_forall. intros y (x & <- & Hx)%in_map_iff.
    exact (proj1 (List.Forall_forall _ _) IH x Hx (proj1 (forallb_forall _ _) Hv x Hx)).
  - rewrite jnorm_obj_wf by done. simpl in *. apply andb_true_iff in Hv as [Hc Hv].
    rewrite (obj_canon_keys _ ps) by (rewrite map_map; by apply map_ext). rewrite Hc. simpl.
    apply forallb_forall. intros kv' (kv & <- & Hkv)%in_map_iff. simpl.
    pose proof (proj1 (forallb_forall _ _) Hv kv Hkv) as Hkvok. apply andb_true_iff in Hkvok as [Hk Hx].
    rewrite Hk. exact (proj1 (List.Forall_forall _ _) IH kv Hkv Hx).
Qed.

Lemma jnorm_idem {NL : @JsNumberLaws NM} v : jwf v = true -> jnorm (jnorm v) = jnorm v.
Proof.
  induction v as [| | b | n | s | xs IH | ps IH | s] using jsval_ind'; intros Hv; try done.
  - simpl. destruct (num_is_finite n) eqn:Hf; [|done]. simpl.
    by rewrite num_reparse_finite, num_reparse_print.
  - pose proof (jwf_jnorm (JArr xs) Hv) as Hn. rewrite jnorm_arr_wf in Hn |- * by done.
    rewrite (jnorm_arr_wf _ Hn), map_map. f_equal. apply map_ext_in. intros x Hx.
    exact (proj1 (List.Forall_forall _ _) IH x Hx (proj1 (forallb_forall _ _) Hv x Hx)).
  - pose proof (jwf_jnorm (JObj ps) Hv) as Hn. rewrite jnorm_obj_wf in Hn |- * by done.
    rewrite (jnorm_obj_wf _ Hn), map_map. f_equal. apply map_ext_in. intros kv Hkv. simpl. f_equal.
    simpl in Hv. apply andb_true_iff in Hv as [_ Hv].
    pose proof (proj1 (forallb_forall _ _) Hv kv Hkv) as Hkvok. apply andb_true_iff in Hkvok as [_ Hx].
    exact (proj1 (List.Forall_forall _ _) IH kv Hkv Hx).
Qed.

(** ** [JSON.stringify] sees values up to normalisation *)

Lemma ser_jnorm {NL : @JsNumberLaws NM} gap v : forall indent, ser gap indent (jnorm v) = ser gap indent v.
Proof.
  induction v as [| | b | n | s | xs IH | ps IH | s] using jsval_ind'; intros indent; try done.
  - simpl. destruct (num_is_finite n) eqn:Hf; [|done]. simpl.
    by rewrite num_reparse_finite, num_reparse_print.
  - simpl. do 2 f_equal. rewrite map_map. apply map_ext_in. intros x Hx.
    pose proof (proj1 (List.Forall_forall _ _) IH _ Hx) as E.
    destruct x; try done; by rewrite E.
  - simpl. do 2 f_equal. induction IH as [|[k x] ps Hx _ IHps]; [done|].
    cbn [flat_map fst snd] in *. rewrite flat_map_app, IHps.
    destruct x; try done; cbn [flat_map fst snd]; by rewrite Hx, app_nil_r.
Qed.

(** Two values are JSON-equivalent when they denote the same JSON text. *)
Definition json_equiv (v w : jsval) : Prop := jnorm v = jnorm w.

#[export] Instance json_equiv_equivalence : Equivalence json_equiv.
Proof. unfold json_equiv. split; [done|by intros ??|by intros ??? -> ->]. Qed.

#[export] Instance ser_proper {NL : @JsNumberLaws NM} gap indent :
  Proper (json_equiv ==> eq) (ser gap indent).
Proof. intros v w Hvw. by rewrite <- (ser_jnorm gap v), Hvw, ser_jnorm. Qed.

(** [JSON.parse] and [JSON.stringify] see arrays element by element. *)
Lemma json_equiv_arr_app a b c d :
  json_equiv (JArr a) (JArr b) -> json_equiv (JArr c) (JArr d) -> json_equiv (JArr (a ++ c)) (JArr (b ++ d)).
Proof. unfold json_equiv. simpl. rewrite !map_app. by intros [= ->] [= ->]. Qed.

Lemma json_equiv_obj_arr k a b :
  json_equiv (JArr a) (JArr b) -> json_equiv (JObj [(k, JArr a)]) (JObj [(k, JArr b)]).
Proof. unfold json_equiv. simpl. by intros [= ->]. Qed.

Lemma json_equiv_arr_length a b : json_equiv (JArr a) (JArr b) -> length a = length b.
Proof. unfold json_equiv. simpl. intros [= E]. apply (f_equal length) in E. by rewrite !length_map in E. Qed.

(** Only an array is equivalent to an array. *)
Lemma json_equiv_arr_inv v xs : json_equiv v (JArr xs) -> exists ys, v = JArr ys.
Proof. unfold json_equiv. destruct v; simpl; try case_match; try done; eauto. Qed.

Lemma json_parse_equiv {NL : @JsNumberLaws NM} v space t w :
  jwf v = true -> json_stringify v space = Some t -> json_parse t = Some w -> json_equiv w v.
Proof.
  intros Hwf Ht Hp. rewrite (json_roundtrip _ _ _ Hwf Ht) in Hp. injection Hp as <-.
  apply jnorm_idem, Hwf.
Qed.

(** C35: the text is stable: stringifying what [JSON.parse] read back from
    [JSON.stringify(v, null, space)] prints [v] again, with any
    indentation, so [GET /api/admin/data] sends the records as they were
    printed into the file. *)
Theorem json_stringify_stable {NL : @JsNumberLaws NM} v space space' t w :
  jwf v = true -> json_stringify v space = Some t -> json_parse t = Some w ->
  json_stringify w space' = json_stringify v space'.
Proof.
  intros Hwf Ht Hp. unfold json_stringify. by rewrite (json_parse_equiv v space t w Hwf Ht Hp).
Qed.

(** ** A text that starts with [[] parses, if at all, to an array *)

Lemma parse_elements_array n s acc v r :
  parse_elements n s acc = POk (v, r) -> exists xs, v = JArr xs.
Proof.
  revert s acc. induction n as [|n IH]; intros s acc; simpl; [done|]. unfold elements_step.
  destruct (parse_value n s) as [[v' r']| |]; try done.
  destruct (skip_ws r') as [|c t]; [done|].
  case_match; [apply IH|]. case_match; [|done]. intros [= <- _]. by eexists.
Qed.

Lemma parse_value_lbrack n t v r : parse_value n (c_lbrack :: t) = POk (v, r) -> exists xs, v = JArr xs.
Proof.
  destruct n as [|n]; [done|]. cbn [parse_value]. rewrite value_step_lbrack.
  destruct (starts_with _ _); [intros [= <- _]; by eexists|]. apply parse_elements_array.
Qed.

Lemma json_parse_lbrack t v : json_parse (c_lbrack :: t) = Some v -> exists xs, v = JArr xs.
Proof.
  unfold json_parse. destruct (parse_value _ _) as [[v' r]| |] eqn:E; try done.
  case_bool_decide; [|done]. intros [= <-]. by apply parse_value_lbrack in E.
Qed.

Lemma json_parse_nil : json_parse [] = None.
Proof. done. Qed.

Lemma json_stringify_array_head xs space t :
  json_stringify (JArr xs) space = Some t -> exists t', t = c_lbrack :: t'.
Proof.
  unfold json_stringify. simpl. intros [= <-]. unfold wrap.
  destruct (map _ xs); [by eexists|]. case_bool_decide; by eexists.
Qed.

(** What remains of a text of an array after a write stopped after [k]
    units is either nothing or text that [JSON.parse] rejects or reads as
    an array. *)
Lemma json_parse_prefix_array xs space t k v :
  json_stringify (JArr xs) space = Some t -> json_parse (take k t) = Some v -> exists ys, v = JArr ys.
Proof.
  intros Ht. destruct (json_stringify_array_head _ _ _ Ht) as [t' ->].
  destruct k; [done|]. simpl. apply json_parse_lbrack.
Qed.

(** ** A successful parse is kept when text is appended *)

Lemma lex_string_app n t b r q :
  (length t <= n)%nat -> lex_string t = Some (b, r) -> lex_string (t ++ q) = Some (b, r ++ q).
Proof.
  revert t b r. induction n as [|n IH]; intros [|c t] b r Hn; simpl; try done; [simpl in Hn; lia|].
  simpl in Hn. destruct (c =? c_quote); [by intros [= <- <-]|].
  destruct (c =? c_bslash).
  - destruct t as [|e t']; [done|]. simpl in Hn. simpl.
    destruct (simple_escape e).
    + destruct (lex_string t') as [[b' r']|] eqn:E; [|done]. intros [= <- <-].
      by rewrite (IH t' b' r') by (done || lia).
    + destruct (e =? 117); [|done].
      destruct t' as [|h1 [|h2 [|h3 [|h4 t'']]]]; try done. simpl in Hn |- *.
      destruct (hex4 h1 h2 h3 h4), (lex_string t'') as [[b' r']|] eqn:E; try done.
      intros [= <- <-]. by rewrite (IH t'' b' r') by (done || lia).
  - destruct (c <? 32); [done|].
    destruct (lex_string t) as [[b' r']|] eqn:E; [|done]. intros [= <- <-].
    by rewrite (IH t b' r') by (done || lia).
Qed.

Lemma skip_ws_app_nonempty t q : skip_ws t <> [] -> skip_ws (t ++ q) = skip_ws t ++ q.
Proof. induction t as [|c t IH]; simpl; [done|]. by destruct (is_ws c). Qed.

Lemma parse_empty n :
  ((forall acc x, parse_elements n [] acc <> POk x) /\ (forall acc x, parse_members n [] acc <> POk x))%type.
Proof.
  destruct n as [|n]; [done|]. split; intros acc x; simpl; [|done].
  unfold elements_step. by destruct n.
Qed.

(** The hypothesis on a number: a lexeme that ends the text could be
    continued by what is appended. *)
Definition ext_ok (v : jsval) (r q : jstr) : Prop := (r = [] -> num_stop q) \/ (forall x, v <> JNum x).

Lemma ext_ok_rest v r q : skip_ws r <> [] -> ext_ok v r q.
Proof. intros H. left. by intros ->. Qed.

Lemma value_step_app pe pm s q v r :
  (forall acc x, pe [] acc <> POk x) -> (forall acc x, pm [] acc <> POk x) ->
  (forall t acc v r, pe t acc = POk (v, r) -> pe (t ++ q) acc = POk (v, r ++ q)) ->
  (forall t acc v r, pm t acc = POk (v, r) -> pm (t ++ q) acc = POk (v, r ++ q)) ->
  value_step pe pm s = POk (v, r) -> ext_ok v r q -> value_step pe pm (s ++ q) = POk (v, r ++ q).
Proof.
  intros Hpe0 Hpm0 Hpe Hpm. unfold value_step.
  destruct (skip_ws s) as [|c t] eqn:Es; [done|].
  rewrite (skip_ws_app_nonempty s q) by (by rewrite Es). rewrite Es. cbn [app].
  assert (Htake : forall n lit, take n t = lit -> length lit = n ->
            take n (t ++ q) = lit /\ drop n (t ++ q) = drop n t ++ q).
  { intros n lit Ht Hl. assert (Hn : (n <= length t)%nat).
    { rewrite <- Hl, <- Ht, length_take. lia. }
    split; [by rewrite take_app_le|by rewrite drop_app_le]. }
  destruct (c =? 110).
  { case_bool_decide as H; [|done]. intros [= <- <-] _.
    destruct (Htake 3%nat _ H eq_refl) as [-> ->]. by rewrite bool_decide_true. }
  destruct (c =? 116).
  { case_bool_decide as H; [|done]. intros [= <- <-] _.
    destruct (Htake 3%nat _ H eq_refl) as [-> ->]. by rewrite bool_decide_true. }
  destruct (c =? 102).
  { case_bool_decide as H; [|done]. intros [= <- <-] _.
    destruct (Htake 4%nat _ H eq_refl) as [-> ->]. by rewrite bool_decide_true. }
  destruct (c =? c_quote).
  { destruct (lex_string t) as [[b r']|] eqn:E; [|done]. intros [= <- <-] _.
    by rewrite (lex_string_app _ t b r' q (le_n _) E). }
  destruct (c =? c_lbrack).
  { destruct (skip_ws t) as [|d u] eqn:Et; [intros H; by destruct (Hpe0 [] _ H)|].
    rewrite (skip_ws_app_nonempty t q) by (by rewrite Et). rewrite Et. cbn [starts_with app tail].
    destruct (d =? c_rbrack); [by intros [= <- <-] _|intros H _; by apply (Hpe (d :: u))]. }
  destruct (c =? c_lbrace).
  { destruct (skip_ws t) as [|d u] eqn:Et; [intros H; by destruct (Hpm0 [] _ H)|].
    rewrite (skip_ws_app_nonempty t q) by (by rewrite Et). rewrite Et. cbn [starts_with app tail].
    destruct (d =? c_rbrace); [by intros [= <- <-] _|intros H _; by apply (Hpm (d :: u))]. }
  destruct (lex_number (c :: t)) as [[l r']|] eqn:E; [|done]. intros [= <- <-] Hext.
  change (c :: t ++ q) with ((c :: t) ++ q). rewrite (lex_number_app _ _ _ _ E); [done|].
  destruct Hext as [H|H]; [done|]. by destruct (H (num_of_text l)).
Qed.

Lemma elements_step_app pv pe s acc q v r :
  (forall t v r, pv t = POk (v, r) -> ext_ok v r q -> pv (t ++ q) = POk (v, r ++ q)) ->
  (forall t acc v r, pe t acc = POk (v, r) -> pe (t ++ q) acc = POk (v, r ++ q)) ->
  elements_step pv pe s acc = POk (v, r) -> elements_step pv pe (s ++ q) acc = POk (v, r ++ q).
Proof.
  intros Hpv Hpe. unfold elements_step.
  destruct (pv s) as [[v' r']| |] eqn:Ev; try done.
  destruct (skip_ws r') as [|c t] eqn:Er; [done|].
  rewrite (Hpv s v' r' Ev) by (apply ext_ok_rest; by rewrite Er).
  rewrite (skip_ws_app_nonempty r' q) by (by rewrite Er). rewrite Er. cbn [app].
  destruct (c =? c_comma); [apply Hpe|]. destruct (c =? c_rbrack); [by intros [= <- <-]|done].
Qed.

Lemma members_step_app pv pm s acc q v r :
  (forall acc x, pm [] acc <> POk x) ->
  (forall t v r, pv t = POk (v, r) -> ext_ok v r q -> pv (t ++ q) = POk (v, r ++ q)) ->
  (forall t acc v r, pm t acc = POk (v, r) -> pm (t ++ q) acc = POk (v, r ++ q)) ->
  members_step pv pm s acc = POk (v, r) -> members_step pv pm (s ++ q) acc = POk (v, r ++ q).
Proof.
  intros Hpm0 Hpv Hpm. unfold members_step. destruct s as [|c0 t0]; [done|]. cbn [app].
  destruct (c0 =? c_quote); [|done].
  destruct (lex_string t0) as [[k r1]|] eqn:Ek; [|done].
  rewrite (lex_string_app _ t0 k r1 q (le_n _) Ek).
  destruct (skip_ws r1) as [|c r2] eqn:E1; [done|].
  rewrite (skip_ws_app_nonempty r1 q) by (by rewrite E1). rewrite E1. cbn [app].
  destruct (c =? c_colon); [|done].
  destruct (pv r2) as [[v' r3]| |] eqn:Ev; try done.
  destruct (skip_ws r3) as [|d t] eqn:E3; [done|].
  rewrite (Hpv r2 v' r3 Ev) by (apply ext_ok_rest; by rewrite E3).
  rewrite (skip_ws_app_nonempty r3 q) by (by rewrite E3). rewrite E3. cbn [app].
  destruct (d =? c_comma).
  - destruct (skip_ws t) as [|e u] eqn:Et; [intros H; by destruct (Hpm0 _ _ H)|].
    rewrite (skip_ws_app_nonempty t q) by (by rewrite Et). rewrite Et. apply Hpm.
  - destruct (d =? c_rbrace); [by intros [= <- <-]|done].
Qed.

Lemma parse_app n q :
  (forall s v r, parse_value n s = POk (v, r) -> ext_ok v r q -> parse_value n (s ++ q) = POk (v, r ++ q)) /\
  (forall s acc v r, parse_elements n s acc = POk (v, r) -> parse_elements n (s ++ q) acc = POk (v, r ++ q)) /\
  (forall s acc v r, parse_members n s acc = POk (v, r) -> parse_members n (s ++ q) acc = POk (v, r ++ q)).
Proof.
  induction n as [|n (IHv & IHe & IHm)]; [done|]. destruct (parse_empty n) as [He0 Hm0].
  split_and!; intros s; simpl.
  - intros v r. by apply value_step_app.
  - intros acc v r. by apply elements_step_app.
  - intros acc v r. by apply members_step_app.
Qed.


(** ** A write cut short leaves text that [JSON.parse] rejects *)

Lemma skip_ws_nil_app r q : skip_ws r = [] -> skip_ws (r ++ q) = skip_ws q.
Proof. induction r as [|c r IH]; simpl; [done|]. by destruct (is_ws c). Qed.

Lemma skip_ws_last l c : is_ws c = false -> skip_ws (l ++ [c]) <> [].
Proof. induction l as [|d l IH]; simpl; intros Hc; [by rewrite Hc|]. destruct (is_ws d); auto. Qed.

Lemma json_stringify_array_last xs space t :
  json_stringify (JArr xs) space = Some t -> exists t', t = t' ++ [c_rbrack].
Proof.
  unfold json_stringify. simpl. intros [= <-]. unfold wrap.
  destruct (map _ xs); [by exists [c_lbrack]|]. case_bool_decide.
  - eexists. by rewrite app_comm_cons.
  - eexists. rewrite !app_comm_cons, !app_assoc. f_equal.
Qed.

(** The text of an array cut after [k < length] units does not parse:
    the brackets of a prefix are never closed. *)
Lemma json_parse_truncated {NL : @JsNumberLaws NM} xs space text k :
  jwf (JArr xs) = true -> json_stringify (JArr xs) space = Some text -> (k < length text)%nat ->
  json_parse (take k text) = None.
Proof.
  intros Hwf Ht Hk. destruct (json_parse (take k text)) as [v|] eqn:E; [exfalso|done].
  destruct (json_stringify_array_head _ _ _ Ht) as [t1 Eh].
  destruct (json_stringify_array_last _ _ _ Ht) as [t2 El].
  assert (Hq : exists q', drop k text = q' ++ [c_rbrack]).
  { rewrite El in Hk |- *. rewrite length_app in Hk. simpl in Hk.
    rewrite drop_app_le by lia. by eexists. }
  destruct Hq as [q' Hq].
  destruct k as [|k]; [rewrite take_0 in E; discriminate|].
  unfold json_parse in E. destruct (parse_value _ (take (S k) text)) as [[v' r]| |] eqn:Ep; try done.
  case_bool_decide as Hr; [|done]. clear E.
  assert (Hp : exists u, take (S k) text = c_lbrack :: u) by (rewrite Eh; by eexists).
  destruct Hp as [u Hu]. rewrite Hu in Ep.
  destruct (parse_value_lbrack _ _ _ _ Ep) as [ys ->].
  assert (Hok : ext_ok (JArr ys) r (drop (S k) text)) by (right; intros x; discriminate).
  pose proof (proj1 (parse_app _ (drop (S k) text)) _ _ _ Ep Hok) as Hext.
  rewrite <- Hu, take_drop in Hext.
  pose proof (json_roundtrip _ _ _ Hwf Ht) as Hrt. unfold json_parse in Hrt.
  destruct (parse_value (2 * length text + 2) text) as [[w r0]| |] eqn:Ew; try done.
  assert (Hle : (2 * length (take (S k) text) + 2 <= 2 * length text + 2)%nat)
    by (rewrite length_take; lia).
  destruct (proj1 (parse_settles _ _ Hle) text) as [Hf|Hs]; [by rewrite Hext in Hf|].
  rewrite Ew, Hext in Hs. injection Hs as _ ->. revert Hrt. case_bool_decide as H0; [intros _|done].
  rewrite skip_ws_nil_app, Hq in H0 by done. by apply (skip_ws_last q' c_rbrack).
Qed.

End Json.

(** ** The theorems on concrete texts and values *)

Section JsonWitnesses.
#[local] Existing Instances decimal_number decimal_laws.

(** A record of the spec's example, with a number that is printed with an
    exponent and one that overflows. *)
Definition sample_record : jsval :=
  JObj [(⟪"name"⟫, JStr ⟪"Ana"⟫); (⟪"score"⟫, JNum (num_of_text ⟪"2.50e-7"⟫));
        (⟪"maxScore"⟫, JNum (num_of_text ⟪"1e400"⟫))].

Lemma json_parse_stringify_witness :
  exists t, jwf (JArr [sample_record; JNull]) = true /\
    json_stringify (JArr [sample_record; JNull]) 2 = Some t /\
    json_parse t = Some (jnorm (JArr [sample_record; JNull])).
Proof.
  eexists. split_and!; [reflexivity|reflexivity|].
  apply (json_parse_stringify _ 2); reflexivity.
Defined.

Lemma json_stringify_stable_witness :
  exists t, jwf sample_record = true /\ json_stringify sample_record 2 = Some t /\
    json_parse t = Some (jnorm sample_record) /\
    json_stringify (jnorm sample_record) 0 = json_stringify sample_record 0.
Proof.
  eexists. split_and!; [reflexivity|reflexivity|reflexivity|].
  eapply (json_stringify_stable sample_record 2 0); reflexivity.
Defined.

End JsonWitnesses.
