(* ===== verification/RecordStore.v ===== *)
(** * The record store: [readStudentData] and [writeStudentData]

    The collection lives in one file, [data.json] next to the server
    (line 18).  The file is modelled by its decoded text, [None] when it
    does not exist.  Whether a read or a write succeeds is the
    environment's choice, passed to each operation as an outcome:
    - [readFileSync] fails when the file is missing or cannot be read, and
      [JSON.parse] fails on text that is not JSON: both are caught and give
      [[]] (lines 22-30);
    - [writeFileSync] opens the file with flag ['w'], which truncates it,
      then writes the text: it can fail before opening (the file is
      unchanged) or after truncating, having written a prefix of the text;
      either error is caught and logged with [console.error] (lines 32-39).

    [RecordStore] is the contract the handlers rely on, [RecordStoreLaws]
    its laws (what is read is JSON data, an array written is read back
    normalised, a failed write changes nothing or leaves something that
    still reads as an array); the file implements it ([file_store],
    [file_store_laws]).  The last section shows what a write cut short
    leaves: text that reads as [[]]. *)

From S2P Require Import Prelude JsNumber JsDecimal JsValue JsonText.

(** A line written to standard output or standard error; [LogStack e] is
    the stack trace of an uncaught error of kind [e], which Express's
    default error handler prints to standard error. *)
Inductive log_line := LogOut (text : jstr) | LogErr (text : jstr) | LogStack (e : js_error).

Inductive read_outcome := ReadOk | ReadFails.

Inductive write_outcome :=
| WriteOk
(** the open fails ([EACCES], [EISDIR], ...): nothing is written *)
| WriteOpenFails
(** the file was truncated and [k] code units were written before the
    error ([ENOSPC], [EIO], ...) *)
| WriteFailsAfter (k : nat).

Definition write_error_line : log_line := LogErr ⟪"Error writing data file:"⟫.

(** The state of the data file: its text, or [None] when it is missing. *)
Abbreviation data_file := (option jstr).

Section Store.
Context `{NM : JsNumber}.

(** [readStudentData()] *)
Definition readStudentData (f : data_file) (ro : read_outcome) : jsval :=
  match ro, f with
  | ReadOk, Some text => default (JArr []) (json_parse text)
  | _, _ => JArr []
  end.

(** [writeStudentData(data)]: the new file and the lines logged.  When
    [JSON.stringify] returns [undefined], [writeFileSync] rejects its
    argument before opening the file. *)
Definition writeStudentData (f : data_file) (data : jsval) (wo : write_outcome)
    : data_file * list log_line :=
  match json_stringify data 2 with
  | None => (f, [write_error_line])
  | Some text =>
      match wo with
      | WriteOk => (Some text, [])
      | WriteOpenFails => (f, [write_error_line])
      | WriteFailsAfter k => (Some (take k text), [write_error_line])
      end
  end.

End Store.

(** ** The contract between the handlers and the store *)

(** [store_ok] is the well-formedness of a state: for the file, that its
    text is made of 16-bit code units, which the UTF-8 decoder of
    [readFileSync(DATA_FILE, 'utf8')] guarantees of any file. *)
Class RecordStore `{NM : JsNumber} (S : Type) := {
  store_read : S -> read_outcome -> jsval;
  store_write : S -> jsval -> write_outcome -> S * list log_line;
  store_ok : S -> bool
}.

Class RecordStoreLaws `{NM : JsNumber} (S : Type) `{!RecordStore S} := {
  (** what is read from a well-formed store is JSON data *)
  store_read_wf : forall s ro, store_ok s = true -> jwf (store_read s ro) = true;
  (** writing JSON data keeps the store well formed, whatever the outcome *)
  store_write_keeps_ok : forall s xs wo,
    store_ok s = true -> jwf (JArr xs) = true -> store_ok (store_write s (JArr xs) wo).1 = true;
  (** writing an array over a store that reads as an array leaves a store
      that reads as an array, whatever the outcome of the write *)
  store_write_array : forall s xs wo,
    (exists ys, store_read s ReadOk = JArr ys) -> jwf (JArr xs) = true ->
    exists zs, store_read (store_write s (JArr xs) wo).1 ReadOk = JArr zs;
  (** a failed read gives the empty collection *)
  store_read_fails : forall s, store_read s ReadFails = JArr [];
  (** an array that was written is read back as [jnorm] of it *)
  store_read_write : forall s xs,
    jwf (JArr xs) = true -> store_read (store_write s (JArr xs) WriteOk).1 ReadOk = jnorm (JArr xs);
  (** a successful write of an array logs nothing *)
  store_write_ok_silent : forall s xs, (store_write s (JArr xs) WriteOk).2 = [];
  (** a write that cannot open the file leaves the store as it was and
      logs the error *)
  store_write_open_fails : forall s xs,
    store_write s (JArr xs) WriteOpenFails = (s, [write_error_line])
}.

Definition file_ok (f : data_file) : bool :=
  match f with Some text => bounded text | None => true end.

#[export] Instance file_store `{NM : JsNumber} : RecordStore data_file := {|
  store_read := readStudentData;
  store_write := writeStudentData;
  store_ok := file_ok
|}.

(** ** The file satisfies the contract *)

Lemma bounded_take n l : bounded l = true -> bounded (take n l) = true.
Proof.
  intros H. rewrite <- (take_drop n l), bounded_app in H. by apply andb_true_iff in H as [? _].
Qed.

#[export] Instance file_store_laws `{NM : JsNumber} `{NL : !JsNumberLaws} :
  RecordStoreLaws data_file.
Proof.
  split; cbn [store_read store_write store_ok file_store].
  - intros [text|] [|] Hok; unfold readStudentData; try done.
    destruct (json_parse text) as [v|] eqn:E; [|done]. by apply (json_parse_jwf text).
  - intros f xs wo Hok Hwf. unfold writeStudentData.
    destruct (json_stringify (JArr xs) 2) as [text|] eqn:E; [|done].
    pose proof (json_stringify_units _ _ _ Hwf E) as Ht.
    destruct wo; simpl; [exact Ht|exact Hok|by apply bounded_take].
  - intros f xs wo Hys Hwf. unfold writeStudentData.
    destruct (json_stringify (JArr xs) 2) as [text|] eqn:E; [|done].
    assert (Hk : forall k, exists zs, readStudentData (Some (take k text)) ReadOk = JArr zs).
    { intros k. simpl. destruct (json_parse (take k text)) as [v|] eqn:Ep; [|by eexists].
      exact (json_parse_prefix_array _ _ _ _ _ E Ep). }
    destruct wo; cbn [fst]; [|done|apply Hk].
    specialize (Hk (length text)). by rewrite take_ge in Hk.
  - by intros f.
  - intros f xs Hwf. unfold writeStudentData.
    destruct (ser_some (gap_of_space 2) [] (JArr xs) Hwf) as [text E].
    change (ser (gap_of_space 2) [] (JArr xs)) with (json_stringify (JArr xs) 2) in E.
    rewrite E. simpl. by rewrite (json_roundtrip _ _ _ Hwf E).
  - by intros f xs.
  - by intros f xs.
Qed.

(** ** A write cut short *)

Section FileFacts.
Context `{NM : JsNumber} `{NL : !JsNumberLaws}.

(** C17: when [writeFileSync] fails after truncating [data.json] and writing
    part of the text (a full disk), the error is logged and the file holds
    a prefix of the array's text, which the next [readStudentData] cannot
    parse: it reads as [[]], every record of the file is lost, although the
    spec says a save replaces the document atomically. *)
Theorem write_truncated_reads_empty f xs k text :
  jwf (JArr xs) = true -> json_stringify (JArr xs) 2 = Some text -> (k < length text)%nat ->
  writeStudentData f (JArr xs) (WriteFailsAfter k) = (Some (take k text), [write_error_line]) /\
  readStudentData (Some (take k text)) ReadOk = JArr [].
Proof using NL.
  intros Hwf Ht Hk. unfold writeStudentData. rewrite Ht. split; [done|].
  simpl. by rewrite (json_parse_truncated xs 2 text k).
Qed.

End FileFacts.

Section StoreWitnesses.
#[local] Existing Instances decimal_number decimal_laws.

Lemma write_truncated_reads_empty_witness :
  exists text, jwf (JArr [JNull; JBool true]) = true /\ json_stringify (JArr [JNull; JBool true]) 2 = Some text /\
    (8 < length text)%nat /\
    writeStudentData None (JArr [JNull; JBool true]) (WriteFailsAfter 8) = (Some (take 8 text), [write_error_line]) /\
    readStudentData (Some (take 8 text)) ReadOk = JArr [].
Proof.
  eexists. split; [reflexivity|]. split; [reflexivity|]. split; [apply Nat.ltb_lt; reflexivity|].
  apply write_truncated_reads_empty; [reflexivity|reflexivity|apply Nat.ltb_lt; reflexivity].
Defined.

End StoreWitnesses.
