(* ===== verification/Handlers.v ===== *)
(** * The three request handlers of [src/server.js]

    Each handler is a function of the store, the parsed request body and
    the I/O outcomes the environment chooses, returning the new store, the
    lines logged and the outcome: a response (status and JSON body), or an
    exception the handler did not catch, which Express turns into a 500.
    The handlers are written against the [RecordStore] contract, so their
    theorems hold for any store that satisfies [RecordStoreLaws].
    - [submit_quiz]: [POST /api/quiz/submit], lines 44-62;
    - [admin_data]: [GET /api/admin/data], lines 65-70;
    - [admin_login]: [POST /api/admin/login], lines 74-90.
    The theorems after the definitions are proved against the contract;
    the section [FileHandlers] states what the handlers do to the file
    itself when a write is cut short or the file is corrupt. *)

From S2P Require Import Prelude JsNumber JsDecimal JsValue JsonText RecordStore.

(** Closes the side condition that a key the handlers read is not a member
    of [Object.prototype]. *)
Ltac plain_key := vm_compute; reflexivity.

Section Handlers.
Context `{NM : JsNumber}.

Record response := { status : Z; body : jsval }.

Inductive outcome :=
| Respond (r : response)
| Threw (e : js_error).

Context {St : Type} `{!RecordStore St}.

(** [obj.k], throwing on [null] and [undefined]. *)
Definition read_prop (v : jsval) (k : jstr) : js_error + jsval :=
  match get_prop v k with Some x => inr x | None => inl TypeError end.

(** An object literal [{k1: v1, ...}]: its properties are defined in order. *)
Definition obj_lit (ps : list (jstr * jsval)) : jsval :=
  JObj (fold_left (fun acc kv => obj_define kv.1 kv.2 acc) ps []).

(** Line 48: [!d.name || !d.email || !d.course || typeof d.score === 'undefined'],
    evaluated left to right with short circuits. *)
Definition submission_invalid (d : jsval) : js_error + bool :=
  let! name := read_prop d ⟪"name"⟫ in
  if negb (js_truthy name) then inr true else
  let! email := read_prop d ⟪"email"⟫ in
  if negb (js_truthy email) then inr true else
  let! course := read_prop d ⟪"course"⟫ in
  if negb (js_truthy course) then inr true else
  let! score := read_prop d ⟪"score"⟫ in
  inr (bool_decide (js_typeof score = ⟪"undefined"⟫)).

Definition submit_rejected : response :=
  {| status := 400;
     body := obj_lit [(⟪"message"⟫, JStr ⟪"Missing required student data for submission."⟫)] |}.

(** Line 56: the template literal of the submission log line; ✅ is the
    code unit 0x2705.  Each substitution is read and converted to a string
    before the next one is read. *)
Definition submit_log_line (d : jsval) : js_error + jstr :=
  let! name := read_prop d ⟪"name"⟫ in
  let! name_s := js_to_string name in
  let! course := read_prop d ⟪"course"⟫ in
  let! course_s := js_to_string course in
  let! score := read_prop d ⟪"score"⟫ in
  let! score_s := js_to_string score in
  let! maxScore := read_prop d ⟪"maxScore"⟫ in
  let! maxScore_s := js_to_string maxScore in
  inr ([9989] ++ ⟪" New Quiz Submission received: "⟫ ++ name_s ++
       ⟪" (Course: "⟫ ++ course_s ++ ⟪", Score: "⟫ ++ score_s ++
       ⟪"/"⟫ ++ maxScore_s ++ ⟪")"⟫).

(** Lines 58-61: the 201 response. *)
Definition submit_accepted (d allData : jsval) : js_error + response :=
  let! len := read_prop allData ⟪"length"⟫ in
  let! name := read_prop d ⟪"name"⟫ in
  let! course := read_prop d ⟪"course"⟫ in
  inr {| status := 201;
         body := obj_lit [(⟪"message"⟫, JStr ⟪"Quiz submitted and data saved successfully!"⟫);
                          (⟪"data"⟫, obj_lit [(⟪"id"⟫, len); (⟪"name"⟫, name); (⟪"course"⟫, course)])] |}.

(** [POST /api/quiz/submit], lines 44-62. *)
Definition submit_quiz (s : St) (d : jsval) (ro : read_outcome) (wo : write_outcome)
    : St * list log_line * outcome :=
  match submission_invalid d with
  | inl e => (s, [], Threw e)
  | inr true => (s, [], Respond submit_rejected)
  | inr false =>
      let allData := store_read s ro in
      match array_push allData d with
      | inl e => (s, [], Threw e)
      | inr allData' =>
          let '(s', logs) := store_write s allData' wo in
          match submit_log_line d with
          | inl e => (s', logs, Threw e)
          | inr line =>
              match submit_accepted d allData' with
              | inl e => (s', logs ++ [LogOut line], Threw e)
              | inr r => (s', logs ++ [LogOut line], Respond r)
              end
          end
      end
  end.

(** [GET /api/admin/data], lines 65-70; 📡 is the surrogate pair
    0xD83D 0xDCE1. *)
Definition admin_data (s : St) (ro : read_outcome) : list log_line * outcome :=
  let allData := store_read s ro in
  match (let! len := read_prop allData ⟪"length"⟫ in js_to_string len) with
  | inl e => ([], Threw e)
  | inr len_s =>
      ([LogOut ([55357; 56545] ++ ⟪" Admin requested data. Returning "⟫ ++ len_s ++ ⟪" records."⟫)],
       Respond {| status := 200; body := obj_lit [(⟪"students"⟫, allData)] |})
  end.

Definition login_ok : response :=
  {| status := 200;
     body := obj_lit [(⟪"success"⟫, JBool true); (⟪"token"⟫, JStr ⟪"mock-auth-token-123"⟫);
                      (⟪"message"⟫, JStr ⟪"Login successful"⟫)] |}.

Definition login_failed : response :=
  {| status := 401;
     body := obj_lit [(⟪"success"⟫, JBool false); (⟪"message"⟫, JStr ⟪"Invalid credentials"⟫)] |}.

(** [POST /api/admin/login], lines 74-90: the destructuring of line 75
    reads both properties, then line 78 compares them with [===]. *)
Definition admin_login (d : jsval) : outcome :=
  match read_prop d ⟪"username"⟫, read_prop d ⟪"password"⟫ with
  | inr username, inr password =>
      if js_eq_lit username ⟪"admin"⟫ && js_eq_lit password ⟪"password123"⟫
      then Respond login_ok else Respond login_failed
  | inl e, _ | _, inl e => Threw e
  end.

(** ** What the handlers read of a JSON object body *)

(** An own property of an object, [undefined] when absent. *)
Definition own (ps : list (jstr * jsval)) (k : jstr) : jsval := default JUndefined (assoc k ps).

(** The spec's validation rule (section 4.2) on the own properties of the
    body: [name], [email] and [course] present and truthy, [score]
    present. *)
Definition present_truthy (ps : list (jstr * jsval)) (k : jstr) : bool :=
  match assoc k ps with Some v => js_truthy v | None => false end.

Definition required_present (ps : list (jstr * jsval)) : bool :=
  present_truthy ps ⟪"name"⟫ && present_truthy ps ⟪"email"⟫ &&
  present_truthy ps ⟪"course"⟫ && bool_decide (is_Some (assoc ⟪"score"⟫ ps)).

(** The 201 response of lines 58-61 for the [id]-th record. *)
Definition submit_created (id : nat) (ps : list (jstr * jsval)) : response :=
  {| status := 201;
     body := obj_lit [(⟪"message"⟫, JStr ⟪"Quiz submitted and data saved successfully!"⟫);
                      (⟪"data"⟫, obj_lit [(⟪"id"⟫, JNum (num_of_nat id));
                                          (⟪"name"⟫, own ps ⟪"name"⟫);
                                          (⟪"course"⟫, own ps ⟪"course"⟫)])] |}.

(** The credentials of line 78. *)
Definition credentials_match (ps : list (jstr * jsval)) : bool :=
  bool_decide (assoc ⟪"username"⟫ ps = Some (JStr ⟪"admin"⟫)) &&
  bool_decide (assoc ⟪"password"⟫ ps = Some (JStr ⟪"password123"⟫)).

(** ** Lemmas *)

Lemma read_prop_obj ps k :
  bool_decide (k ∈ object_proto_members) = false -> read_prop (JObj ps) k = inr (own ps k).
Proof.
  intros Hk. unfold read_prop, get_prop, own, inherited. simpl. rewrite Hk.
  by destruct (assoc k ps).
Qed.


Lemma read_prop_array_length xs :
  read_prop (JArr xs) ⟪"length"⟫ = inr (JNum (num_of_nat (length xs))).
Proof. done. Qed.

Lemma assoc_jwf ps k v :
  forallb (fun kv => forallb unit_okb kv.1 && jwf kv.2) ps = true ->
  assoc k ps = Some v -> jwf v = true.
Proof.
  induction ps as [|[k' v'] ps IH]; simpl; [done|].
  rewrite !andb_true_iff. intros [[_ Hv'] Hps].
  case_bool_decide; [by intros [= <-]|]. auto.
Qed.

Lemma jwf_not_undefined v : jwf v = true -> js_typeof v <> ⟪"undefined"⟫.
Proof. by destruct v. Qed.

End Handlers.

#[export] Hint Rewrite @read_prop_array_length : jsdb.

(** ** Theorems *)

Section HandlerTheorems.
Context `{NM : JsNumber} {St : Type} `{!RecordStore St} `{HL : !RecordStoreLaws St}.

Ltac read_plain := rewrite ?read_prop_obj by plain_key.

Lemma jwf_obj_values ps :
  jwf (JObj ps) = true -> forallb (fun kv => forallb unit_okb kv.1 && jwf kv.2) ps = true.
Proof. simpl. by rewrite andb_true_iff; intros [_ ?]. Qed.

(** Line 48 on a JSON object body. *)
Lemma submission_invalid_obj ps :
  jwf (JObj ps) = true -> submission_invalid (JObj ps) = inr (negb (required_present ps)).
Proof.
  intros Hwf. pose proof (jwf_obj_values _ Hwf) as Hv.
  unfold submission_invalid, required_present, present_truthy. read_plain.
  unfold own. simpl.
  destruct (assoc ⟪"name"⟫ ps) as [n|]; simpl; [|done]. destruct (js_truthy n); simpl; [|done].
  destruct (assoc ⟪"email"⟫ ps) as [e|]; simpl; [|done]. destruct (js_truthy e); simpl; [|done].
  destruct (assoc ⟪"course"⟫ ps) as [c|]; simpl; [|done]. destruct (js_truthy c); simpl; [|done].
  destruct (assoc ⟪"score"⟫ ps) as [sc|] eqn:Es; simpl.
  - rewrite bool_decide_false; [done|].
    apply jwf_not_undefined. exact (assoc_jwf _ _ _ Hv Es).
  - done.
Qed.

(** C30: equivalence with the reference rule: on a JSON object body, the
    test of line 48, evaluated by the handler with its property reads,
    short circuits and [typeof], is the spec's validation rule on the own
    properties ([required_present]): it rejects exactly when [name],
    [email] or [course] is absent or falsy, or [score] is absent, and it
    never throws. *)
Theorem validation_matches_spec ps :
  jwf (JObj ps) = true -> submission_invalid (JObj ps) = inr (negb (required_present ps)).
Proof. apply submission_invalid_obj. Qed.

(** Only an object passes line 48. *)
Lemma submission_accepted_obj d :
  jwf d = true -> submission_invalid d = inr false -> exists ps, d = JObj ps /\ required_present ps = true.
Proof.
  destruct d as [| | b | n | s | xs | ps | k]; intros Hwf Hv; try (compute in Hv; discriminate).
  exists ps. split; [done|]. rewrite submission_invalid_obj in Hv by done.
  injection Hv as Hv. by apply negb_false_iff in Hv.
Qed.

Lemma js_eq_lit_own ps k lit :
  js_eq_lit (own ps k) lit = bool_decide (assoc k ps = Some (JStr lit)).
Proof.
  unfold own. destruct (assoc k ps) as [v|]; [destruct v|]; simpl;
    repeat case_bool_decide; congruence.
Qed.

Lemma jwf_app_obj xs ps :
  jwf (JArr xs) = true -> jwf (JObj ps) = true -> jwf (JArr (xs ++ [JObj ps])) = true.
Proof. simpl. rewrite forallb_app. simpl. intros -> ->. done. Qed.

(** The steps of a submission of a valid body onto an array: the record is
    pushed and written, then the log line is built, which may throw. *)
Lemma submit_quiz_valid_step s ps ro wo xs :
  jwf (JObj ps) = true -> required_present ps = true ->
  store_read s ro = JArr xs -> Z.of_nat (length xs) < max_array_length ->
  submit_quiz s (JObj ps) ro wo =
    match submit_log_line (JObj ps) with
    | inl e => ((store_write s (JArr (xs ++ [JObj ps])) wo).1,
                (store_write s (JArr (xs ++ [JObj ps])) wo).2, Threw e)
    | inr line => ((store_write s (JArr (xs ++ [JObj ps])) wo).1,
                   (store_write s (JArr (xs ++ [JObj ps])) wo).2 ++ [LogOut line],
                   Respond (submit_created (S (length xs)) ps))
    end.
Proof.
  intros Hwf Hreq Hread Hlen. unfold submit_quiz. rewrite submission_invalid_obj, Hreq by done.
  simpl negb. cbv iota beta. rewrite Hread. unfold array_push. rewrite (proj2 (Z.ltb_lt _ _) Hlen).
  destruct (store_write s (JArr (xs ++ [JObj ps])) wo) as [s' logs].
  destruct (submit_log_line (JObj ps)) as [e|line]; [done|].
  unfold submit_accepted. rewrite read_prop_array_length. read_plain. simpl.
  rewrite length_app. simpl. rewrite Nat.add_1_r. done.
Qed.

(** C1: a valid submission onto a stored array of [n] records answers 201
    with [id = n + 1] and its name and course, logs its line, and the store
    then reads back the old records followed by the new one (as JSON
    normalises them) and is still well formed. *)
Theorem submit_quiz_accepts s ps ro xs line :
  store_ok s = true -> jwf (JObj ps) = true -> required_present ps = true ->
  store_read s ro = JArr xs -> Z.of_nat (length xs) < max_array_length ->
  submit_log_line (JObj ps) = inr line ->
  exists s',
    submit_quiz s (JObj ps) ro WriteOk = (s', [LogOut line], Respond (submit_created (S (length xs)) ps)) /\
    store_read s' ReadOk = jnorm (JArr (xs ++ [JObj ps])) /\ store_ok s' = true.
Proof using HL.
  intros Hok Hwf Hreq Hread Hlen Hline.
  rewrite (submit_quiz_valid_step s ps ro WriteOk xs Hwf Hreq Hread Hlen), Hline.
  exists (store_write s (JArr (xs ++ [JObj ps])) WriteOk).1.
  assert (Hxs : jwf (JArr (xs ++ [JObj ps])) = true).
  { apply jwf_app_obj; [|done]. rewrite <- Hread. by apply store_read_wf. }
  rewrite store_write_ok_silent. split_and!; [done|by apply store_read_write|].
  by apply store_write_keeps_ok.
Qed.

(** C2: a body without a truthy [name], [email] or [course], or without a
    [score], is answered 400; nothing is read, written or logged. *)
Theorem submit_quiz_rejects s ps ro wo :
  jwf (JObj ps) = true -> required_present ps = false ->
  submit_quiz s (JObj ps) ro wo = (s, [], Respond submit_rejected).
Proof. intros Hwf Hreq. unfold submit_quiz. by rewrite submission_invalid_obj, Hreq. Qed.

(** C15: when the file cannot be opened for writing, the submission is
    still answered 201: the error is only logged, before the submission
    line, and the store keeps its previous collection. *)
Theorem submit_quiz_write_fails s ps ro xs line :
  jwf (JObj ps) = true -> required_present ps = true ->
  store_read s ro = JArr xs -> Z.of_nat (length xs) < max_array_length ->
  submit_log_line (JObj ps) = inr line ->
  submit_quiz s (JObj ps) ro WriteOpenFails =
    (s, [write_error_line; LogOut line], Respond (submit_created (S (length xs)) ps)).
Proof using HL.
  intros Hwf Hreq Hread Hlen Hline.
  rewrite (submit_quiz_valid_step s ps ro WriteOpenFails xs Hwf Hreq Hread Hlen), Hline.
  by rewrite store_write_open_fails.
Qed.

(** C22: when a field printed in the log line is an object with an own
    [toString] (a body such as [{"name": {"toString": 1}, ...}]), line 56
    throws a TypeError after line 54 has saved the record: the client gets
    a 500 although its submission is stored. *)
Theorem submit_quiz_log_throws s ps ro xs e :
  store_ok s = true -> jwf (JObj ps) = true -> required_present ps = true ->
  store_read s ro = JArr xs -> Z.of_nat (length xs) < max_array_length ->
  submit_log_line (JObj ps) = inl e ->
  exists s',
    submit_quiz s (JObj ps) ro WriteOk = (s', [], Threw e) /\
    store_read s' ReadOk = jnorm (JArr (xs ++ [JObj ps])).
Proof using HL.
  intros Hok Hwf Hreq Hread Hlen Hline.
  rewrite (submit_quiz_valid_step s ps ro WriteOk xs Hwf Hreq Hread Hlen), Hline.
  exists (store_write s (JArr (xs ++ [JObj ps])) WriteOk).1.
  rewrite store_write_ok_silent. split; [done|]. apply store_read_write, jwf_app_obj; [|done].
  rewrite <- Hread. by apply store_read_wf.
Qed.

(** C20: when the store holds JSON that is not an array, a valid submission
    throws a TypeError at [allData.push] (Express answers 500) and nothing
    is written or logged. *)
Theorem submit_quiz_non_array s ps ro wo :
  jwf (JObj ps) = true -> required_present ps = true ->
  (forall xs, store_read s ro <> JArr xs) ->
  submit_quiz s (JObj ps) ro wo = (s, [], Threw TypeError).
Proof.
  intros Hwf Hreq Hna. unfold submit_quiz. rewrite submission_invalid_obj, Hreq by done.
  simpl negb. cbv iota beta.
  destruct (store_read s ro) eqn:E; try done. by destruct (Hna xs).
Qed.

(** C31: [GET /api/admin/data] on a stored array answers 200 with the array
    under [students] and logs its length in decimal. *)
Theorem admin_data_array `{!JsNumberLaws} s ro xs :
  store_read s ro = JArr xs -> Z.of_nat (length xs) <= max_array_length ->
  admin_data s ro =
    ([LogOut ([55357; 56545] ++ ⟪" Admin requested data. Returning "⟫ ++
              N_digits (N.of_nat (length xs)) ++ ⟪" records."⟫)],
     Respond {| status := 200; body := obj_lit [(⟪"students"⟫, JArr xs)] |}).
Proof.
  intros Hread Hlen. unfold admin_data. rewrite Hread, read_prop_array_length. simpl.
  by rewrite num_of_nat_print.
Qed.

(** C21: when the file holds [null], [GET /api/admin/data] throws a
    TypeError at [allData.length] (Express answers 500), although the spec
    says the endpoint always succeeds. *)
Theorem admin_data_null s ro :
  store_read s ro = JNull -> admin_data s ro = ([], Threw TypeError).
Proof. intros Hread. unfold admin_data. by rewrite Hread. Qed.

(** C32: the login handler answers 200 with the token exactly when the body
    has [username] ["admin"] and [password] ["password123"] as strings,
    and 401 otherwise. *)
Theorem admin_login_obj ps :
  admin_login (JObj ps) = Respond (if credentials_match ps then login_ok else login_failed).
Proof.
  unfold admin_login, credentials_match. read_plain. cbv iota beta.
  rewrite !js_eq_lit_own. by destruct (_ && _).
Qed.

(** ** Every response body is JSON data *)

Lemma jwf_obj_define k v acc :
  jwf (JObj acc) = true -> forallb unit_okb k && jwf v = true -> jwf (JObj (obj_define k v acc)) = true.
Proof.
  simpl. rewrite !andb_true_iff. intros [Hc Hacc] Hkv. split; [by apply obj_define_keeps_canon|].
  apply forallb_forall. intros kv Hin%list_elem_of_In.
  destruct (obj_define_elem _ _ _ _ Hin) as [->|Hin']; [by apply andb_true_iff|].
  apply (proj1 (forallb_forall _ _) Hacc). by apply list_elem_of_In.
Qed.

Lemma jwf_obj_lit ps :
  forallb (fun kv => forallb unit_okb kv.1 && jwf kv.2) ps = true -> jwf (obj_lit ps) = true.
Proof.
  unfold obj_lit. generalize (eq_refl : jwf (JObj []) = true). generalize (@nil (jstr * jsval)).
  induction ps as [|[k v] ps IH]; intros acc Hacc; simpl; [done|].
  rewrite andb_true_iff. intros [Hkv Hps]. apply IH; [by apply jwf_obj_define|done].
Qed.

(** A key no prototype has and that is neither [length] nor an index. *)
Definition plain_key (k : jstr) : bool :=
  negb (bool_decide (k = ⟪"length"⟫)) && bool_decide (array_index k = None) &&
  forallb (fun ms => negb (bool_decide (k ∈ ms ++ object_proto_members)))
    [[]; array_proto_members; string_proto_members; number_proto_members; boolean_proto_members].

(** Such a key reads, on JSON data, an own property or [undefined]. *)
Lemma read_prop_truthy_wf v k x :
  plain_key k = true -> jwf v = true -> read_prop v k = inr x -> js_truthy x = true -> jwf x = true.
Proof.
  unfold plain_key. cbn [forallb]. rewrite !andb_true_iff, !negb_true_iff, bool_decide_eq_true.
  intros ((Hl & Hi) & H0 & H1 & H2 & H3 & H4 & _) Hv Hr Ht.
  unfold read_prop, get_prop in Hr. destruct v as [| | | | | | ps |]; try discriminate; rewrite ?Hl, ?Hi in Hr;
    injection Hr as <-; rewrite ?inherited_absent in Ht |- * by done; try done.
  destruct (assoc k ps) as [y|] eqn:E; cbn [default] in *.
  - exact (assoc_jwf _ _ _ (jwf_obj_values _ Hv) E).
  - done.
Qed.

Lemma submission_valid_reads d :
  submission_invalid d = inr false ->
  exists n c, read_prop d ⟪"name"⟫ = inr n /\ js_truthy n = true /\
              read_prop d ⟪"course"⟫ = inr c /\ js_truthy c = true.
Proof.
  unfold submission_invalid.
  destruct (read_prop d ⟪"name"⟫) as [e|n]; [done|]. simpl. destruct (js_truthy n) eqn:Hn; [|done].
  destruct (read_prop d ⟪"email"⟫) as [e|m]; [done|]. simpl. destruct (js_truthy m); [|done].
  destruct (read_prop d ⟪"course"⟫) as [e|c]; [done|]. simpl. destruct (js_truthy c) eqn:Hc; [|done].
  intros _. by exists n, c.
Qed.

Lemma array_push_arr v d a : array_push v d = inr a -> exists xs, a = JArr xs.
Proof. unfold array_push. destruct v; try done. case_match; [|done]. intros [= <-]. eauto. Qed.

Lemma submit_quiz_payload_wf s d ro wo r :
  jwf d = true -> (submit_quiz s d ro wo).2 = Respond r -> jwf (body r) = true.
Proof.
  intros Hd. unfold submit_quiz. destruct (submission_invalid d) as [e|[]] eqn:Hv; try done.
  { intros [= <-]. reflexivity. }
  destruct (array_push (store_read s ro) d) as [e|a] eqn:Hp; [done|].
  destruct (array_push_arr _ _ _ Hp) as [xs ->].
  destruct (store_write s (JArr xs) wo). destruct (submit_log_line d); [done|].
  destruct (submit_accepted d (JArr xs)) as [e|r'] eqn:Ha; [done|]. simpl. intros [= <-].
  destruct (submission_valid_reads d Hv) as (n & c & Hn & Htn & Hc & Htc).
  unfold submit_accepted in Ha. rewrite read_prop_array_length, Hn, Hc in Ha. injection Ha as <-.
  assert (Hi : jwf (obj_lit [(⟪"id"⟫, JNum (num_of_nat (length xs))); (⟪"name"⟫, n); (⟪"course"⟫, c)]) = true).
  { apply jwf_obj_lit. cbn [forallb fst snd].
    rewrite (read_prop_truthy_wf d ⟪"name"⟫ n), (read_prop_truthy_wf d ⟪"course"⟫ c); try done; plain_key. }
  apply jwf_obj_lit. cbn [forallb fst snd]. rewrite Hi. reflexivity.
Qed.

Lemma admin_data_payload_wf s ro r :
  store_ok s = true -> (admin_data s ro).2 = Respond r -> jwf (body r) = true.
Proof using HL.
  intros Hok. unfold admin_data. case_match; [done|]. intros [= <-].
  apply jwf_obj_lit. cbn [forallb fst snd]. rewrite (store_read_wf s ro Hok). reflexivity.
Qed.

Lemma admin_login_payload_wf d r : admin_login d = Respond r -> jwf (body r) = true.
Proof. unfold admin_login. repeat case_match; intros [= <-]; reflexivity. Qed.

End HandlerTheorems.

(** ** The handlers on the data file *)

Section FileHandlers.
Context `{NM : JsNumber} `{NL : !JsNumberLaws}.

(** C16: when the write of a submission stops after truncating the file
    ([writeFileSync] failing with a full disk), the client is still
    answered 201 with an id, and the file then reads as [[]]: the new
    record and every earlier one are lost. *)
Theorem submit_quiz_truncated_write old ps xs line k text :
  bounded old = true -> readStudentData (Some old) ReadOk = JArr xs -> jwf (JObj ps) = true ->
  required_present ps = true -> Z.of_nat (length xs) < max_array_length ->
  submit_log_line (JObj ps) = inr line ->
  json_stringify (JArr (xs ++ [JObj ps])) 2 = Some text -> (k < length text)%nat ->
  submit_quiz (Some old) (JObj ps) ReadOk (WriteFailsAfter k) =
    (Some (take k text), [write_error_line; LogOut line], Respond (submit_created (S (length xs)) ps)) /\
  readStudentData (Some (take k text)) ReadOk = JArr [].
Proof using NL.
  intros Hold Hxs Hwf Hreq Hlen Hline Ht Hk.
  assert (Hxw : jwf (JArr (xs ++ [JObj ps])) = true).
  { apply jwf_app_obj; [|done]. rewrite <- Hxs. exact (store_read_wf (Some old) ReadOk Hold). }
  assert (Hxs' : store_read (Some old) ReadOk = JArr xs) by exact Hxs.
  rewrite (submit_quiz_valid_step (Some old) ps ReadOk (WriteFailsAfter k) xs Hwf Hreq Hxs' Hlen), Hline.
  cbn [store_write file_store]. unfold writeStudentData. rewrite Ht. split; [done|].
  simpl. by rewrite (json_parse_truncated (xs ++ [JObj ps]) 2 text k Hxw Ht Hk).
Qed.

(** C18: when [data.json] holds text that is not JSON (a hand edit, a write
    cut short), the next valid submission is answered with [id] 1 and
    replaces the whole file by an array of that one record: the old
    content is discarded without any log line. *)
Theorem submit_quiz_corrupt_file old ps line :
  json_parse old = None -> jwf (JObj ps) = true -> required_present ps = true ->
  submit_log_line (JObj ps) = inr line ->
  exists text,
    submit_quiz (Some old) (JObj ps) ReadOk WriteOk = (Some text, [LogOut line], Respond (submit_created 1 ps)) /\
    readStudentData (Some text) ReadOk = jnorm (JArr [JObj ps]).
Proof using NL.
  intros Hbad Hwf Hreq Hline.
  assert (Hxs : store_read (Some old) ReadOk = JArr []) by (simpl; by rewrite Hbad).
  rewrite (submit_quiz_valid_step (Some old) ps ReadOk WriteOk [] Hwf Hreq Hxs ltac:(done)), Hline.
  assert (Hw : jwf (JArr [JObj ps]) = true) by (change (jwf (JObj ps) && true = true); by rewrite Hwf).
  destruct (ser_some (gap_of_space 2) [] (JArr [JObj ps]) Hw) as [text E].
  change (ser (gap_of_space 2) [] (JArr [JObj ps])) with (json_stringify (JArr [JObj ps]) 2) in E.
  exists text. cbn [store_write file_store]. unfold writeStudentData. simpl app. rewrite E.
  split; [done|]. simpl. by rewrite (json_roundtrip _ _ _ Hw E).
Qed.

End FileHandlers.

(** ** The theorems on a concrete file and body

    The numbers are [JsNumber.Decimal]'s and the store is the file. *)

Section Witnesses.
#[local] Existing Instances decimal_number decimal_laws.

(** The body of the spec's example submission. *)
Definition ana_body : list (jstr * jsval) :=
  [(⟪"name"⟫, JStr ⟪"Ana"⟫); (⟪"email"⟫, JStr ⟪"ana@example.com"⟫);
   (⟪"course"⟫, JStr ⟪"Math"⟫); (⟪"score"⟫, JNum (num_of_nat 9));
   (⟪"maxScore"⟫, JNum (num_of_nat 10))].

(** The log line of [ana_body]. *)
Definition ana_line : jstr :=
  [9989] ++ ⟪" New Quiz Submission received: Ana (Course: Math, Score: 9/10)"⟫.

Lemma submit_quiz_accepts_witness :
  store_ok (Some ⟪"[]"⟫) = true /\ jwf (JObj ana_body) = true /\ required_present ana_body = true /\
  store_read (Some ⟪"[]"⟫) ReadOk = JArr [] /\ Z.of_nat (length (@nil jsval)) < max_array_length /\
  submit_log_line (JObj ana_body) = inr ana_line /\
  exists s',
    submit_quiz (Some ⟪"[]"⟫) (JObj ana_body) ReadOk WriteOk =
      (s', [LogOut ana_line], Respond (submit_created 1 ana_body)) /\
    store_read s' ReadOk = jnorm (JArr [JObj ana_body]) /\ store_ok s' = true.
Proof.
  split_and!; [reflexivity..|].
  apply (submit_quiz_accepts (Some ⟪"[]"⟫) ana_body ReadOk [] ana_line); reflexivity.
Defined.

(** A body with a number as its name and an empty email. *)
Definition bad_body : list (jstr * jsval) :=
  [(⟪"name"⟫, JNum (num_of_nat 5)); (⟪"email"⟫, JStr []); (⟪"course"⟫, JStr ⟪"Math"⟫);
   (⟪"score"⟫, JNull)].

Lemma validation_matches_spec_witness :
  jwf (JObj bad_body) = true /\ required_present bad_body = false /\
  submission_invalid (JObj bad_body) = inr (negb (required_present bad_body)).
Proof.
  assert (H : jwf (JObj bad_body) = true) by reflexivity.
  split_and!; [exact H|reflexivity|exact (validation_matches_spec _ H)].
Defined.

Lemma submit_quiz_rejects_witness :
  jwf (JObj [(⟪"name"⟫, JStr ⟪"Ana"⟫)]) = true /\ required_present [(⟪"name"⟫, JStr ⟪"Ana"⟫)] = false /\
  submit_quiz (Some ⟪"[]"⟫) (JObj [(⟪"name"⟫, JStr ⟪"Ana"⟫)]) ReadOk WriteOk =
    (Some ⟪"[]"⟫, [], Respond submit_rejected).
Proof.
  split_and!; [reflexivity..|]. apply submit_quiz_rejects; reflexivity.
Defined.

Lemma submit_quiz_write_fails_witness :
  store_read (Some ⟪"[]"⟫) ReadOk = JArr [] /\ submit_log_line (JObj ana_body) = inr ana_line /\
  submit_quiz (Some ⟪"[]"⟫) (JObj ana_body) ReadOk WriteOpenFails =
    (Some ⟪"[]"⟫, [write_error_line; LogOut ana_line], Respond (submit_created 1 ana_body)).
Proof.
  split_and!; [reflexivity|reflexivity|].
  apply (submit_quiz_write_fails (Some ⟪"[]"⟫) ana_body ReadOk [] ana_line); reflexivity.
Defined.

(** A body whose [name] has an own [toString]. *)
Definition tostring_body : list (jstr * jsval) :=
  [(⟪"name"⟫, JObj [(⟪"toString"⟫, JNum (num_of_nat 1))]); (⟪"email"⟫, JStr ⟪"a@x.com"⟫);
   (⟪"course"⟫, JStr ⟪"Math"⟫); (⟪"score"⟫, JNum (num_of_nat 8))].

Lemma submit_quiz_log_throws_witness :
  submit_log_line (JObj tostring_body) = inl TypeError /\
  exists s',
    submit_quiz (Some ⟪"[]"⟫) (JObj tostring_body) ReadOk WriteOk = (s', [], Threw TypeError) /\
    store_read s' ReadOk = jnorm (JArr [JObj tostring_body]).
Proof.
  split; [reflexivity|].
  apply (submit_quiz_log_throws (Some ⟪"[]"⟫) tostring_body ReadOk [] TypeError); reflexivity.
Defined.

Lemma submit_quiz_non_array_witness :
  store_read (Some ⟪"{}"⟫) ReadOk = JObj [] /\
  submit_quiz (Some ⟪"{}"⟫) (JObj ana_body) ReadOk WriteOk = (Some ⟪"{}"⟫, [], Threw TypeError).
Proof.
  split; [reflexivity|].
  apply submit_quiz_non_array; [reflexivity|reflexivity|]. intros xs. simpl. discriminate.
Defined.

Lemma admin_data_array_witness :
  store_read (Some ⟪"[]"⟫) ReadOk = JArr [] /\
  admin_data (Some ⟪"[]"⟫) ReadOk =
    ([LogOut ([55357; 56545] ++ ⟪" Admin requested data. Returning "⟫ ++ ⟪"0"⟫ ++ ⟪" records."⟫)],
     Respond {| status := 200; body := obj_lit [(⟪"students"⟫, JArr [])] |}).
Proof.
  split; [reflexivity|]. apply (admin_data_array (Some ⟪"[]"⟫) ReadOk []); [reflexivity|unfold max_array_length; simpl; lia].
Defined.

Lemma admin_data_null_witness :
  store_read (Some ⟪"null"⟫) ReadOk = JNull /\ admin_data (Some ⟪"null"⟫) ReadOk = ([], Threw TypeError).
Proof. split; [reflexivity|]. apply admin_data_null. reflexivity. Defined.

Lemma submit_quiz_truncated_write_witness :
  exists text, json_stringify (JArr [JObj ana_body]) 2 = Some text /\ (5 < length text)%nat /\
    submit_quiz (Some ⟪"[]"⟫) (JObj ana_body) ReadOk (WriteFailsAfter 5) =
      (Some (take 5 text), [write_error_line; LogOut ana_line], Respond (submit_created 1 ana_body)) /\
    readStudentData (Some (take 5 text)) ReadOk = JArr [].
Proof.
  eexists. split; [reflexivity|]. split; [apply Nat.ltb_lt; reflexivity|].
  apply (submit_quiz_truncated_write ⟪"[]"⟫ ana_body [] ana_line 5); try reflexivity.
  apply Nat.ltb_lt; reflexivity.
Defined.

Lemma submit_quiz_corrupt_file_witness :
  json_parse ⟪"{bad"⟫ = None /\
  exists text,
    submit_quiz (Some ⟪"{bad"⟫) (JObj ana_body) ReadOk WriteOk =
      (Some text, [LogOut ana_line], Respond (submit_created 1 ana_body)) /\
    readStudentData (Some text) ReadOk = jnorm (JArr [JObj ana_body]).
Proof.
  split; [reflexivity|]. apply (submit_quiz_corrupt_file ⟪"{bad"⟫ ana_body ana_line); reflexivity.
Defined.

End Witnesses.
