(* ===== verification/Server.v ===== *)
(** * The HTTP surface of [src/server.js] and the server over time

    Lines 7-15 build the Express application: [cors()] (line 12),
    [bodyParser.json()] (line 15) and the three routes (lines 44, 65, 74).
    A request goes through them in that order:
    - [cors()] answers a preflight ([OPTIONS], any path) with 204 and ends
      it; other requests continue;
    - [bodyParser.json()] (strict mode) parses a JSON body before any route
      is matched: a body over its limit of 102400 bytes is answered 413; an empty or absent body gives [{}], a body whose first
      non-blank character is not [{] or [[] or that [JSON.parse] rejects is
      answered 400 by Express's default error handler, which prints the
      error's stack;
    - the router matches the method and the path, ignoring case, a trailing
      slash and the query string; [HEAD] runs the [GET] route (its
      body is not sent: [Wire.v]); nothing matched is 404;
    - an exception thrown by a handler is answered 500, its stack printed.

    [serve] is one request, [step] the server's store before and after
    one, and [rtc step] the stores the server can reach.  The theorems: only
    a submission changes the store; every reachable store holds an array, so
    the retrieval endpoint never fails there; submissions served one after
    another all appear in the store in order.  Several processes sharing
    the file are in [Processes.v]; the abstract specification the server
    implements is in [Service.v].

    The headers and the bytes of requests and answers are [Wire.v]'s.
    Not modelled: charsets other than UTF-8 (415), compressed bodies and
    the TCP socket [app.listen] binds.  *)

From stdpp Require Import relations.
From S2P Require Import Prelude JsNumber JsDecimal JsValue JsonText RecordStore Handlers.

Inductive http_method := GET | HEAD | POST | PUT | DELETE | PATCH | OPTIONS.

#[export] Instance http_method_eq_dec : EqDecision http_method.
Proof. solve_decision. Defined.

(** A request: its method, its URL (path and query), its body when it is
    sent as [application/json], as the UTF-8 decoder gives it, and the
    number of bytes of the body as sent. *)
Record request :=
  { req_method : http_method; req_url : jstr; req_body : option jstr; req_length : N }.

(** ** Routing *)

Definition lower (c : Z) : Z := if (65 <=? c) && (c <=? 90) then c + 32 else c.

(** The path of a URL: what comes before its query string. *)
Fixpoint url_path (u : jstr) : jstr :=
  match u with [] => [] | c :: t => if c =? 63 then [] else c :: url_path t end.

(** Express's route matching, [caseSensitive] and [strict] off: the path
    is the route, up to ASCII case and a trailing slash. *)
Definition route_is (route : jstr) (u : jstr) : bool :=
  let p := map lower (url_path u) in
  bool_decide (p = route) || bool_decide (p = route ++ [47]).

Definition submit_route : jstr := ⟪"/api/quiz/submit"⟫.
Definition data_route : jstr := ⟪"/api/admin/data"⟫.
Definition login_route : jstr := ⟪"/api/admin/login"⟫.

(** ** [bodyParser.json()], strict mode *)

Definition strict_start (text : jstr) : bool :=
  match skip_ws text with c :: _ => (c =? c_lbrace) || (c =? c_lbrack) | [] => false end.

(** The [limit] of [bodyParser.json()], ['100kb'] by default: 102400
    bytes.  [raw-body] counts the bytes of a JSON body before anything is
    parsed and fails with 413 beyond it; a body of another type is not
    read. *)
Definition body_limit : N := 102400.

Definition body_too_large (r : request) : bool :=
  match req_body r with Some _ => N.ltb body_limit (req_length r) | None => false end.

Section Server.
Context `{NM : JsNumber}.

(** The body the handlers see, or [None] for a 400. *)
Definition parse_body (b : option jstr) : option jsval :=
  match b with
  | None | Some [] => Some (JObj [])
  | Some text => if strict_start text then json_parse text else None
  end.

(** The answer: the status and the value passed to [res.json]; [None] is
    an empty body or an HTML error page.  Whether the body is sent (not to
    a [HEAD] request) and the headers are [Wire.v]'s. *)
Record http_response := { code : Z; payload : option jsval }.

(** A handler's outcome as Express sends it. *)
Definition respond (o : outcome) : list log_line * http_response :=
  match o with
  | Respond r => ([], {| code := status r; payload := Some (body r) |})
  | Threw e => ([LogStack e], {| code := 500; payload := None |})
  end.

Context {St : Type} `{!RecordStore St}.

(** One request, from the middleware of lines 12 and 15 to the route. *)
Definition serve (s : St) (r : request) (ro : read_outcome) (wo : write_outcome)
    : St * list log_line * http_response :=
  if bool_decide (req_method r = OPTIONS) then (s, [], {| code := 204; payload := None |}) else
  if body_too_large r then (s, [LogStack PayloadTooLargeError], {| code := 413; payload := None |}) else
  match parse_body (req_body r) with
  | None => (s, [LogStack SyntaxError], {| code := 400; payload := None |})
  | Some d =>
      if bool_decide (req_method r = POST) && route_is submit_route (req_url r) then
        let '(s', logs, o) := submit_quiz s d ro wo in
        (s', logs ++ (respond o).1, (respond o).2)
      else if bool_decide (req_method r = GET \/ req_method r = HEAD) && route_is data_route (req_url r) then
        let '(logs, o) := admin_data s ro in (s, logs ++ (respond o).1, (respond o).2)
      else if bool_decide (req_method r = POST) && route_is login_route (req_url r) then
        (s, (respond (admin_login d)).1, (respond (admin_login d)).2)
      else (s, [], {| code := 404; payload := None |})
  end.

(** The body of a request is text of 16-bit code units (it went through
    the UTF-8 decoder). *)
Definition request_ok (r : request) : bool :=
  match req_body r with Some t => bounded t | None => true end.

(** Requests served one after the other, every read and write succeeding:
    the final store and the responses. *)
Fixpoint serve_all (s : St) (rs : list request) : St * list http_response :=
  match rs with
  | [] => (s, [])
  | r :: rest =>
      let '(s1, _, resp) := serve s r ReadOk WriteOk in
      let '(s2, resps) := serve_all s1 rest in (s2, resp :: resps)
  end.

(** ** A run of the server: [app.listen(PORT, ...)], lines 8 and 94-97 *)

Definition PORT : nat := 3000.

(** The two lines of the listening callback; the template literal converts
    [PORT] with [Number::toString]; 🚀 is the surrogate pair 0xD83D
    0xDE80. *)
Definition listen_logs : list log_line :=
  [LogOut ([55357; 56960] ++ ⟪" Server running on http://localhost:"⟫ ++ num_to_string (num_of_nat PORT));
   LogOut ⟪"Use Username: admin, Password: password123 to login to the frontend."⟫].

(** Requests served in order, each with the I/O outcomes the environment
    chooses: the final store, the lines logged and the responses. *)
Fixpoint serve_seq (s : St) (rs : list (request * read_outcome * write_outcome))
    : St * list log_line * list http_response :=
  match rs with
  | [] => (s, [], [])
  | (r, ro, wo) :: rest =>
      let '(s1, logs1, resp) := serve s r ro wo in
      let '(s2, logs2, resps) := serve_seq s1 rest in (s2, logs1 ++ logs2, resp :: resps)
  end.

(** The process: the callback of [app.listen] runs once the port is bound,
    before any connection is accepted; then the requests are served. *)
Definition server_run (s : St) (rs : list (request * read_outcome * write_outcome))
    : St * list log_line * list http_response :=
  let '(s', logs, resps) := serve_seq s rs in (s', listen_logs ++ logs, resps).

(** The server's store before and after one request. *)
Inductive step : St -> St -> Prop :=
| step_serve s r ro wo : request_ok r = true -> step s (serve s r ro wo).1.1.

End Server.

(** ** Only a submission writes *)

Section ServerTheorems.
Context `{NM : JsNumber} {St : Type} `{!RecordStore St} `{HL : !RecordStoreLaws St}.

(** The store reads as an array. *)
Definition reads_array (s : St) : Prop := exists xs, store_read s ReadOk = JArr xs.

Definition server_inv (s : St) : Prop := store_ok s = true /\ reads_array s.

Lemma submit_quiz_store s d ro wo :
  (submit_quiz s d ro wo).1.1 = s \/
  exists xs, submission_invalid d = inr false /\ store_read s ro = JArr xs /\
             (submit_quiz s d ro wo).1.1 = (store_write s (JArr (xs ++ [d])) wo).1.
Proof.
  unfold submit_quiz. destruct (submission_invalid d) as [e|[]] eqn:Hv; [by left|by left|].
  unfold array_push. destruct (store_read s ro) as [| | | | | xs | |] eqn:E; try by left.
  destruct (_ <? _); [|by left]. right. exists xs. split_and!; [done|done|].
  destruct (store_write _ _ _) as [s' logs]. simpl.
  destruct (submit_log_line d); [done|]. by destruct (submit_accepted d _).
Qed.

Lemma serve_store s r ro wo :
  (serve s r ro wo).1.1 = s \/
  exists d, req_method r = POST /\ route_is submit_route (req_url r) = true /\
    parse_body (req_body r) = Some d /\ (serve s r ro wo).1.1 = (submit_quiz s d ro wo).1.1.
Proof.
  unfold serve. case_bool_decide; [by left|]. destruct (body_too_large r); [by left|].
  destruct (parse_body (req_body r)) as [d|] eqn:Eb; [|by left].
  destruct (bool_decide (req_method r = POST) && route_is submit_route (req_url r)) eqn:Es.
  - right. exists d. apply andb_true_iff in Es as [Hm Hr]. apply bool_decide_eq_true in Hm.
    split_and!; [done|done|done|]. by destruct (submit_quiz s d ro wo) as [[? ?] ?].
  - left. repeat (case_match; try done); by destruct (admin_data s ro).
Qed.


Lemma parse_body_wf r d : request_ok r = true -> parse_body (req_body r) = Some d -> jwf d = true.
Proof.
  unfold request_ok, parse_body. destruct (req_body r) as [[|c t]|]; intros Hok; try by intros [= <-].
  case_match; [|done]. apply json_parse_jwf, Hok.
Qed.

Lemma jwf_snoc xs d : jwf (JArr xs) = true -> jwf d = true -> jwf (JArr (xs ++ [d])) = true.
Proof. simpl. rewrite forallb_app. simpl. intros -> ->. done. Qed.

(** One request keeps the invariant. *)
Lemma serve_inv s r ro wo :
  server_inv s -> request_ok r = true -> server_inv (serve s r ro wo).1.1.
Proof using HL.
  intros [Hok Harr] Hr. destruct (serve_store s r ro wo) as [->|(d & _ & _ & Hd & ->)]; [done|].
  pose proof (parse_body_wf r d Hr Hd) as Hdwf.
  destruct (submit_quiz_store s d ro wo) as [->|(xs & _ & Hxs & ->)]; [done|].
  assert (Hw : jwf (JArr (xs ++ [d])) = true)
    by (apply jwf_snoc; [rewrite <- Hxs; by apply store_read_wf|done]).
  split; [by apply store_write_keeps_ok|]. by apply store_write_array.
Qed.

(** C8: every store the server reaches from one that reads as an array
    (a missing file, or a file holding an array) still reads as an array
    and is well formed: by induction on the steps. *)
Theorem reachable_inv s0 s : server_inv s0 -> rtc step s0 s -> server_inv s.
Proof using HL.
  intros H0 Hrtc. induction Hrtc as [s|s1 s2 s3 Hstep _ IH]; [done|].
  apply IH. destruct Hstep. by apply serve_inv.
Qed.

Lemma serve_get_data_gen s r ro wo :
  server_inv s -> req_method r = GET -> route_is data_route (req_url r) = true -> req_body r = None ->
  exists xs, store_read s ro = JArr xs /\ (serve s r ro wo).1.1 = s /\
    (serve s r ro wo).2 = {| code := 200; payload := Some (obj_lit [(⟪"students"⟫, JArr xs)]) |}.
Proof using HL.
  intros [_ [ys Hys]] Hm Hroute Hb.
  assert (Hxs : exists xs, store_read s ro = JArr xs)
    by (destruct ro; [by exists ys|exists []; apply store_read_fails]).
  destruct Hxs as [xs Hxs]. exists xs. split; [done|].
  unfold serve, body_too_large. rewrite Hm, Hb. simpl. rewrite Hroute. simpl.
  unfold admin_data. rewrite Hxs, read_prop_array_length. done.
Qed.

(** C11: in a store that reads as an array, [GET /api/admin/data] without
    a body answers 200 with the collection under [students], whatever the
    read does, and leaves the store as it was. *)
Theorem serve_get_data s r ro wo :
  server_inv s -> req_method r = GET -> route_is data_route (req_url r) = true -> req_body r = None ->
  exists xs, store_read s ro = JArr xs /\ (serve s r ro wo).1.1 = s /\
    (serve s r ro wo).2 = {| code := 200; payload := Some (obj_lit [(⟪"students"⟫, JArr xs)]) |}.
Proof using HL. apply serve_get_data_gen. Qed.

(** the console output of every run of the server, whatever the
    requests and the I/O outcomes, opens with the two lines of the
    [app.listen] callback, the first naming the port 3000 in decimal. *)
Theorem server_run_startup {NL : @JsNumberLaws NM} s rs :
  exists rest, (server_run s rs).1.2 =
    LogOut ([55357; 56960] ++ ⟪" Server running on http://localhost:3000"⟫) ::
    LogOut ⟪"Use Username: admin, Password: password123 to login to the frontend."⟫ :: rest.
Proof.
  unfold server_run, listen_logs. destruct (serve_seq s rs) as [[s' logs] resps]. exists logs.
  rewrite num_of_nat_print by (unfold PORT, max_array_length; lia). reflexivity.
Qed.

Lemma respond_payload o p : payload (respond o).2 = Some p -> exists r, o = Respond r /\ p = body r.
Proof. destruct o; simpl; [intros [= <-]; eauto|done]. Qed.

Lemma serve_payload_wf s r ro wo p :
  store_ok s = true -> request_ok r = true -> payload (serve s r ro wo).2 = Some p -> jwf p = true.
Proof using HL.
  intros Hok Hr. unfold serve. case_bool_decide; [done|]. destruct (body_too_large r); [done|].
  destruct (parse_body (req_body r)) as [d|] eqn:Eb; [|done].
  pose proof (parse_body_wf r d Hr Eb) as Hd.
  destruct (_ && route_is submit_route _).
  { destruct (submit_quiz s d ro wo) as [[s' logs] o] eqn:E. intros (r' & -> & ->)%respond_payload.
    apply (submit_quiz_payload_wf s d ro wo); [done|by rewrite E]. }
  destruct (_ && route_is data_route _).
  { destruct (admin_data s ro) as [logs o] eqn:E. intros (r' & -> & ->)%respond_payload.
    apply (admin_data_payload_wf s ro); [done|by rewrite E]. }
  destruct (_ && route_is login_route _); [|done].
  intros (r' & E & ->)%respond_payload. by apply (admin_login_payload_wf d).
Qed.

(** C9: every body the server sends with [res.json] is JSON data, whatever
    the request and the I/O outcomes: no [undefined] or function inside,
    strings of 16-bit code units, objects with distinct keys, so
    [JSON.stringify] prints all of it and the client reads back what it
    denotes. *)
Theorem serve_payload_json s r ro wo p :
  store_ok s = true -> request_ok r = true -> payload (serve s r ro wo).2 = Some p -> jwf p = true.
Proof using HL. apply serve_payload_wf. Qed.

(** C25: a JSON body within the size limit that does not start with [{]
    or [[] (strict mode), or that [JSON.parse] rejects, is answered 400 by
    [bodyParser.json()] on every route, before any handler runs, with the
    error's stack printed and the store unchanged; the spec expects a 500
    for a malformed body. *)
Theorem serve_bad_body s r ro wo text :
  req_method r <> OPTIONS -> req_body r = Some text -> (req_length r <= body_limit)%N -> text <> [] ->
  (strict_start text = false \/ json_parse text = None) ->
  serve s r ro wo = (s, [LogStack SyntaxError], {| code := 400; payload := None |}).
Proof.
  intros Hm Hb Hlen Hne Hbad. unfold serve. rewrite bool_decide_false by done.
  assert (Hs : body_too_large r = false) by (unfold body_too_large; rewrite Hb; by apply N.ltb_ge).
  rewrite Hs.
  assert (Hp : parse_body (req_body r) = None).
  { rewrite Hb. destruct text as [|c t]; [done|]. simpl.
    destruct Hbad as [-> | ->]; [done|]. by destruct (strict_start _). }
  by rewrite Hp.
Qed.

(** C26: a JSON body of more than 102400 bytes is answered 413 by
    [bodyParser.json()] on every route, before it is parsed and before any
    handler runs, with the error's stack printed and the store unchanged;
    the spec does not say what happens to a large submission. *)
Theorem serve_too_large s r ro wo text :
  req_method r <> OPTIONS -> req_body r = Some text -> (body_limit < req_length r)%N ->
  serve s r ro wo = (s, [LogStack PayloadTooLargeError], {| code := 413; payload := None |}).
Proof.
  intros Hm Hb Hlen. unfold serve. rewrite bool_decide_false by done.
  unfold body_too_large. rewrite Hb. by rewrite (proj2 (N.ltb_lt _ _) Hlen).
Qed.

(** ** Submissions served one after the other *)

(** A request that submits the body [ps], which passes validation and
    whose log line can be printed. *)
Definition valid_submission (r : request) (ps : list (jstr * jsval)) : Prop :=
  req_method r = POST /\ route_is submit_route (req_url r) = true /\ request_ok r = true /\
  body_too_large r = false /\ parse_body (req_body r) = Some (JObj ps) /\ required_present ps = true /\
  exists line, submit_log_line (JObj ps) = inr line.

Lemma serve_submit s r ps xs :
  valid_submission r ps -> store_read s ReadOk = JArr xs -> Z.of_nat (length xs) < max_array_length ->
  (serve s r ReadOk WriteOk).1.1 = (store_write s (JArr (xs ++ [JObj ps])) WriteOk).1 /\
  (serve s r ReadOk WriteOk).2 =
    {| code := 201; payload := Some (body (submit_created (S (length xs)) ps)) |}.
Proof using HL.
  intros (Hm & Hroute & Hok & Hsz & Hb & Hreq & line & Hline) Hxs Hlen.
  pose proof (parse_body_wf r _ Hok Hb) as Hwf.
  unfold serve. rewrite Hsz, Hm, Hb. simpl. rewrite Hroute. simpl.
  rewrite (submit_quiz_valid_step s ps ReadOk WriteOk xs Hwf Hreq Hxs Hlen), Hline.
  by rewrite store_write_ok_silent.
Qed.

Lemma valid_submissions_wf rs pss :
  Forall2 valid_submission rs pss -> jwf (JArr (map JObj pss)) = true.
Proof.
  induction 1 as [|r ps rs pss (_ & _ & Hok & _ & Hb & _) _ IH]; [done|].
  change (jwf (JObj ps) && forallb jwf (map JObj pss) = true).
  rewrite (parse_body_wf r _ Hok Hb). exact IH.
Qed.

Lemma jnorm_snoc_norm {NL : @JsNumberLaws NM} xs ys :
  jwf (JArr xs) = true -> jwf (JArr ys) = true ->
  jnorm (JArr (map jnorm xs ++ ys)) = jnorm (JArr (xs ++ ys)).
Proof.
  intros Hx Hy. assert (Hxy : jwf (JArr (xs ++ ys)) = true) by (simpl in *; by rewrite forallb_app, Hx, Hy).
  assert (Hn : jwf (JArr (map jnorm xs ++ ys)) = true).
  { pose proof (jwf_jnorm (JArr xs) Hx) as H. rewrite jnorm_arr_wf in H by done.
    simpl in *. by rewrite forallb_app, H, Hy. }
  rewrite !jnorm_arr_wf by done. rewrite !map_app, map_map. f_equal. f_equal.
  apply map_ext_in. intros x Hin. apply jnorm_idem. exact (proj1 (forallb_forall _ _) Hx x Hin).
Qed.

(** The store after submissions served one after the other. *)
Definition after_submissions (xs : list jsval) (pss : list (list (jstr * jsval))) : jsval :=
  match pss with [] => JArr xs | _ => jnorm (JArr (xs ++ map JObj pss)) end.

Lemma serve_all_submissions_gen {NL : @JsNumberLaws NM} rs pss s xs :
  Forall2 valid_submission rs pss -> store_ok s = true -> store_read s ReadOk = JArr xs ->
  Z.of_nat (length xs + length rs) <= max_array_length ->
  store_read (serve_all s rs).1 ReadOk = after_submissions xs pss /\
  (serve_all s rs).2 =
    imap (fun i ps => {| code := 201; payload := Some (body (submit_created (S (length xs + i)) ps)) |}) pss.
Proof using HL.
  intros HF. revert s xs. induction HF as [|r ps rs pss Hv HF IH]; intros s xs Hok Hxs Hlen; [done|].
  simpl length in Hlen.
  destruct (serve_submit s r ps xs Hv Hxs ltac:(lia)) as [Hs1 Hresp].
  destruct Hv as (_ & _ & Hrok & _ & Hb & _).
  pose proof (parse_body_wf r _ Hrok Hb) as Hwf.
  assert (Hxw : jwf (JArr xs) = true) by (rewrite <- Hxs; by apply store_read_wf).
  assert (Hw : jwf (JArr (xs ++ [JObj ps])) = true) by by apply jwf_snoc.
  cbn [serve_all]. destruct (serve s r ReadOk WriteOk) as [[s1 logs] resp]. simpl in Hs1, Hresp. subst s1 resp.
  set (s1 := (store_write s (JArr (xs ++ [JObj ps])) WriteOk).1).
  assert (Hs1 : store_read s1 ReadOk = JArr (map jnorm (xs ++ [JObj ps]))).
  { unfold s1. by rewrite store_read_write, jnorm_arr_wf. }
  destruct (IH s1 _ (store_write_keeps_ok _ _ _ Hok Hw) Hs1) as [Hst Hrs];
    [rewrite length_map, length_app; simpl; lia|].
  destruct (serve_all s1 rs) as [s2 resps]. cbn [fst snd] in Hst, Hrs |- *. split.
  - rewrite Hst. destruct pss as [|ps' pss]; cbn [after_submissions].
    + symmetry. exact (jnorm_arr_wf _ Hw).
    + rewrite jnorm_snoc_norm, <- app_assoc; [done|done|].
      exact (valid_submissions_wf _ _ HF).
  - rewrite Hrs, imap_cons. f_equal; [by rewrite Nat.add_0_r|].
    apply imap_ext. intros i p _. simpl.
    by rewrite length_map, length_app, Nat.add_succ_r, Nat.add_1_r.
Qed.


(** C5: submissions served one after the other are all kept: from a store
    that reads as the array [xs], [k >= 1] valid submissions are answered
    201 with the ids [n+1], ..., [n+k], and the store then reads as [xs]
    followed by the [k] records, in submission order (as JSON normalises
    them). *)
Theorem serve_all_submissions {NL : @JsNumberLaws NM} rs pss s xs :
  Forall2 valid_submission rs pss -> pss <> [] -> store_ok s = true -> store_read s ReadOk = JArr xs ->
  Z.of_nat (length xs + length rs) <= max_array_length ->
  store_read (serve_all s rs).1 ReadOk = jnorm (JArr (xs ++ map JObj pss)) /\
  (serve_all s rs).2 =
    imap (fun i ps => {| code := 201; payload := Some (body (submit_created (S (length xs + i)) ps)) |}) pss.
Proof using HL.
  intros HF Hne Hok Hxs Hlen. destruct (serve_all_submissions_gen rs pss s xs HF Hok Hxs Hlen) as [H1 H2].
  split; [|done]. rewrite H1. by destruct pss.
Qed.

End ServerTheorems.

(** ** The theorems on the file and concrete requests *)

Section ServerWitnesses.
#[local] Existing Instances decimal_number decimal_laws.

Definition get_data : request :=
  {| req_method := GET; req_url := ⟪"/api/admin/data"⟫; req_body := None; req_length := 0 |}.

(** The spec's scenario: two students submit, with JSON bodies. *)
Definition bo_body : list (jstr * jsval) :=
  [(⟪"name"⟫, JStr ⟪"Bo"⟫); (⟪"email"⟫, JStr ⟪"bo@x.com"⟫); (⟪"course"⟫, JStr ⟪"Art"⟫);
   (⟪"score"⟫, JNum (num_of_nat 0))].

Definition submit_req (ps : list (jstr * jsval)) : request :=
  {| req_method := POST; req_url := ⟪"/API/quiz/submit/?src=web"⟫; req_body := json_stringify (JObj ps) 0;
     (* the bodies below are ASCII: one byte per code unit *)
     req_length := N.of_nat (length (default [] (json_stringify (JObj ps) 0))) |}.


Lemma reachable_inv_witness :
  server_inv (None : data_file) /\
  rtc step None (serve None (submit_req ana_body) ReadOk WriteOk).1.1 /\
  server_inv (serve None (submit_req ana_body) ReadOk WriteOk).1.1.
Proof.
  assert (H0 : server_inv (None : data_file)) by (split; [reflexivity|by exists []]).
  assert (H1 : rtc step None (serve None (submit_req ana_body) ReadOk WriteOk).1.1)
    by (apply rtc_once; constructor; reflexivity).
  split_and!; [exact H0|exact H1|]. exact (reachable_inv _ _ H0 H1).
Defined.

Lemma serve_get_data_witness :
  server_inv (None : data_file) /\
  exists xs, store_read (None : data_file) ReadFails = JArr xs /\ (serve None get_data ReadFails WriteOk).1.1 = None /\
    (serve None get_data ReadFails WriteOk).2 =
      {| code := 200; payload := Some (obj_lit [(⟪"students"⟫, JArr xs)]) |}.
Proof.
  assert (H0 : server_inv (None : data_file)) by (split; [reflexivity|by exists []]).
  split; [exact H0|]. apply serve_get_data; [exact H0|reflexivity..].
Defined.

Lemma serve_payload_json_witness :
  store_ok (None : data_file) = true /\ request_ok (submit_req ana_body) = true /\
  payload (serve None (submit_req ana_body) ReadOk WriteOk).2 = Some (body (submit_created 1 ana_body)) /\
  jwf (body (submit_created 1 ana_body)) = true.
Proof.
  assert (H1 : store_ok (None : data_file) = true) by reflexivity.
  assert (H2 : request_ok (submit_req ana_body) = true) by reflexivity.
  assert (H3 : payload (serve None (submit_req ana_body) ReadOk WriteOk).2 =
               Some (body (submit_created 1 ana_body))) by reflexivity.
  split_and!; [exact H1|exact H2|exact H3|]. exact (serve_payload_json _ _ _ _ _ H1 H2 H3).
Defined.

Lemma server_run_startup_witness :
  exists rest, (server_run (None : data_file) [(get_data, ReadOk, WriteOk)]).1.2 =
    LogOut ([55357; 56960] ++ ⟪" Server running on http://localhost:3000"⟫) ::
    LogOut ⟪"Use Username: admin, Password: password123 to login to the frontend."⟫ :: rest.
Proof. apply server_run_startup. Defined.

Lemma serve_bad_body_witness :
  serve (Some ⟪"[]"⟫)
    {| req_method := POST; req_url := submit_route; req_body := Some ⟪"5"⟫; req_length := 1 |} ReadOk WriteOk =
    (Some ⟪"[]"⟫, [LogStack SyntaxError], {| code := 400; payload := None |}).
Proof. apply (serve_bad_body _ _ _ _ ⟪"5"⟫); [done|done|cbn; unfold body_limit; lia|done|by left]. Defined.

Lemma serve_too_large_witness :
  serve (Some ⟪"[]"⟫)
    {| req_method := POST; req_url := submit_route; req_body := Some ⟪"{}"⟫; req_length := 200000 |} ReadOk WriteOk =
    (Some ⟪"[]"⟫, [LogStack PayloadTooLargeError], {| code := 413; payload := None |}).
Proof. apply (serve_too_large _ _ _ _ ⟪"{}"⟫); [done|done|reflexivity]. Defined.

Lemma serve_all_submissions_witness :
  Forall2 valid_submission [submit_req ana_body; submit_req bo_body] [ana_body; bo_body] /\
  store_read (serve_all (None : data_file) [submit_req ana_body; submit_req bo_body]).1 ReadOk =
    jnorm (JArr [JObj ana_body; JObj bo_body]) /\
  map code (serve_all (None : data_file) [submit_req ana_body; submit_req bo_body]).2 = [201; 201].
Proof.
  assert (HF : Forall2 valid_submission [submit_req ana_body; submit_req bo_body] [ana_body; bo_body]).
  { repeat constructor; repeat split; try reflexivity; eexists; reflexivity. }
  destruct (serve_all_submissions _ _ (None : data_file) [] HF ltac:(done) eq_refl eq_refl
              ltac:(unfold max_array_length; simpl; lia)) as [H1 H2].
  split_and!; [exact HF|exact H1|]. rewrite H2. reflexivity.
Defined.

End ServerWitnesses.
