(* ===== verification/Processes.v ===== *)
(** * Several processes sharing [data.json]

    Node.js runs a handler to completion, so one process serves its
    requests one at a time ([Server.serve]).  Several processes that share
    the file (the [cluster] module, or servers started on the same
    directory) interleave at the file accesses of the submission handler:
    the read of line 52 and the write of line 54.  A configuration is the
    file and the list of processes, each in one phase of a submission
    ([proc]); [cstep] runs one phase of one process, so [rtc cstep] is
    every interleaving.

    The theorem here: two processes that both read before either writes
    lose a record (the lost update).  [Service.v] shows what every
    interleaving keeps: the records the file started with, followed by
    submitted records only. *)

From stdpp Require Import relations.
From S2P Require Import Prelude JsNumber JsDecimal JsValue JsonText RecordStore Handlers Server.

Section Processes.
Context `{NM : JsNumber} {St : Type} `{!RecordStore St}.

(** ** The two phases of a submission

    Node.js runs a handler to completion, so one process serves requests one
    at a time ([serve]).  Two processes that share [data.json] (the
    [cluster] module, or two servers started on the same directory) can
    interleave: a submission reads the file (lines 48-53) and later writes
    it (line 54), and the other process may act in between.  [submit_load]
    is the first phase, the collection to be written; [proc_step] runs one
    phase of a process. *)
Definition submit_load (s : St) (d : jsval) (ro : read_outcome) : option jsval :=
  match submission_invalid d with
  | inr false => match array_push (store_read s ro) d with inr a => Some a | inl _ => None end
  | _ => None
  end.

Inductive proc := PSubmit (d : jsval) | PLoaded (a : jsval) | PDone.

Definition proc_step (s : St) (p : proc) : option (St * proc) :=
  match p with
  | PSubmit d => Some (s, match submit_load s d ReadOk with Some a => PLoaded a | None => PDone end)
  | PLoaded a => Some ((store_write s a WriteOk).1, PDone)
  | PDone => None
  end.

(** One phase of one of the processes. *)
Inductive cstep : St * list proc -> St * list proc -> Prop :=
| cstep_proc s ps i p s' p' :
    ps !! i = Some p -> proc_step s p = Some (s', p') -> cstep (s, ps) (s', <[i := p']> ps).


End Processes.

Section ProcessTheorems.
Context `{NM : JsNumber} {St : Type} `{!RecordStore St} `{HL : !RecordStoreLaws St}.

(** The two phases are the handler: the first computes what the second
    writes. *)
Lemma submit_quiz_load s d ro wo :
  (submit_quiz s d ro wo).1.1 = match submit_load s d ro with Some a => (store_write s a wo).1 | None => s end.
Proof.
  unfold submit_quiz, submit_load. destruct (submission_invalid d) as [e|[]]; try done.
  destruct (array_push _ d) as [e|a]; [done|]. destruct (store_write s a wo) as [s' logs]. simpl.
  destruct (submit_log_line d); [done|]. by destruct (submit_accepted d a).
Qed.

Lemma submit_load_valid s ps ro xs :
  jwf (JObj ps) = true -> required_present ps = true -> store_read s ro = JArr xs ->
  Z.of_nat (length xs) < max_array_length -> submit_load s (JObj ps) ro = Some (JArr (xs ++ [JObj ps])).
Proof.
  intros Hwf Hreq Hxs Hlen. unfold submit_load. rewrite submission_invalid_obj, Hreq by done.
  simpl. rewrite Hxs. unfold array_push. by rewrite (proj2 (Z.ltb_lt _ _) Hlen).
Qed.

(** C23: two processes sharing the file lose an update: when both read the
    collection [xs] before either writes, the first record is overwritten
    by the second process's write, and the file ends with [xs] and the
    second record only. *)
Theorem interleaved_submissions_lose_one s xs pa pb :
  store_ok s = true -> jwf (JObj pa) = true -> jwf (JObj pb) = true -> required_present pa = true -> required_present pb = true ->
  store_read s ReadOk = JArr xs -> Z.of_nat (length xs) < max_array_length ->
  exists s', rtc cstep (s, [PSubmit (JObj pa); PSubmit (JObj pb)]) (s', [PDone; PDone]) /\
    store_read s' ReadOk = jnorm (JArr (xs ++ [JObj pb])).
Proof using HL.
  intros Hok Ha Hb Hra Hrb Hxs Hlen.
  pose proof (submit_load_valid s pa ReadOk xs Ha Hra Hxs Hlen) as La.
  pose proof (submit_load_valid s pb ReadOk xs Hb Hrb Hxs Hlen) as Lb.
  set (s1 := (store_write s (JArr (xs ++ [JObj pa])) WriteOk).1).
  exists (store_write s1 (JArr (xs ++ [JObj pb])) WriteOk).1. split.
  - eapply rtc_l; [apply (cstep_proc _ _ 0 (PSubmit (JObj pa))); [done|simpl; by rewrite La]|].
    eapply rtc_l; [apply (cstep_proc _ _ 1 (PSubmit (JObj pb))); [done|simpl; by rewrite Lb]|].
    eapply rtc_l; [apply (cstep_proc _ _ 0 (PLoaded (JArr (xs ++ [JObj pa])))); done|].
    eapply rtc_l; [apply (cstep_proc _ _ 1 (PLoaded (JArr (xs ++ [JObj pb])))); done|].
    apply rtc_refl.
  - apply store_read_write, jwf_snoc; [rewrite <- Hxs; by apply store_read_wf|done].
Qed.

End ProcessTheorems.

Section ProcessWitnesses.
#[local] Existing Instances decimal_number decimal_laws.

Lemma interleaved_submissions_lose_one_witness :
  exists s', rtc cstep ((None : data_file), [PSubmit (JObj ana_body); PSubmit (JObj bo_body)]) (s', [PDone; PDone]) /\
    store_read s' ReadOk = jnorm (JArr [JObj bo_body]).
Proof.
  apply (interleaved_submissions_lose_one None [] ana_body bo_body); reflexivity.
Defined.

End ProcessWitnesses.
