(* ===== verification/DataFile.v ===== *)
(** * [data.json] as bytes

    [RecordStore.v] models the file by its decoded text.  Here it is the
    bytes on disk ([disk_file]), read with [fs.readFileSync(DATA_FILE,
    'utf8')] (line 24), which decodes them ([Utf8.utf8_decode]), and
    written with [fs.writeFileSync(DATA_FILE, text, 'utf8')] (line 35),
    which encodes the text ([Utf8.utf8_encode]); a write cut short leaves
    a prefix of the bytes, which may end inside the encoding of a
    character.

    The byte-level file meets the contract the handlers use
    ([disk_store_laws]), so every theorem of [Handlers.v], [Server.v],
    [Processes.v] and [Service.v] holds of it.  The theorems: through the
    decoder the byte-level file is the text file, for every write that
    completes or fails before opening; what [writeStudentData] writes is
    read back as [jnorm] of the collection, strings with astral
    characters or lone surrogates included (those [JSON.stringify]
    escapes); a file that starts with a UTF-8 byte-order mark reads as
    [[]], and the next submission replaces it. *)

From S2P Require Import Prelude Utf8 JsNumber JsDecimal JsValue JsonText RecordStore Handlers.

(** The bytes of the file, [None] when it does not exist. *)
Record disk_file := DiskFile { disk_bytes : option bytes }.

Section DiskFile.
Context `{NM : JsNumber}.

(** [fs.readFileSync(DATA_FILE, 'utf8')]: the decoded text. *)
Definition read_file_utf8 (f : disk_file) : data_file := utf8_decode <$> disk_bytes f.

(** [readStudentData()] on the bytes. *)
Definition readStudentData_bytes (f : disk_file) (ro : read_outcome) : jsval :=
  readStudentData (read_file_utf8 f) ro.

(** [writeStudentData(data)] on the bytes: the text is encoded, and a
    write cut short after [k] bytes leaves the first [k] bytes. *)
Definition writeStudentData_bytes (f : disk_file) (data : jsval) (wo : write_outcome)
    : disk_file * list log_line :=
  match json_stringify data 2 with
  | None => (f, [write_error_line])
  | Some text =>
      let bs := utf8_encode text in
      match wo with
      | WriteOk => (DiskFile (Some bs), [])
      | WriteOpenFails => (f, [write_error_line])
      | WriteFailsAfter k => (DiskFile (Some (take k bs)), [write_error_line])
      end
  end.

End DiskFile.

(** Every byte of the file is a byte. *)
Definition disk_ok (f : disk_file) : bool :=
  match disk_bytes f with Some bs => forallb byte_ok bs | None => true end.

#[export] Instance disk_store `{NM : JsNumber} : RecordStore disk_file := {|
  store_read := readStudentData_bytes;
  store_write := writeStudentData_bytes;
  store_ok := disk_ok
|}.

(** ** What [JSON.stringify] prints has no lone surrogate *)

Lemma ascii_no_lone s : ascii s = true -> no_lone s = true.
Proof.
  induction s as [|c t IH]; [done|]. cbn [ascii forallb]. rewrite !andb_true_iff, Z.leb_le, Z.ltb_lt.
  intros [Hc Ht]. rewrite no_lone_cons by lia. by apply IH.
Qed.

Lemma unicode_escape_ascii c : ascii (unicode_escape c) = true.
Proof.
  assert (Hd : forall d, 0 <= d < 16 -> (0 <=? hex_digit d) && (hex_digit d <? 128) = true).
  { intros d Hd. unfold hex_digit. case_match; zbool; apply andb_true_iff; rewrite Z.leb_le, Z.ltb_lt; lia. }
  unfold unicode_escape. cbn [ascii forallb]. rewrite !Hd by (apply Z.mod_pos_bound; lia). done.
Qed.

Lemma quote_unit_no_lone c : no_lone (quote_unit c) = true.
Proof.
  unfold quote_unit. repeat (case_match; [done|]).
  case_match; [by apply ascii_no_lone, unicode_escape_ascii|].
  zbool. rewrite no_lone_cons; [done|]. unfold is_high, is_low in *. zbool. lia.
Qed.

Lemma quote_units_no_lone s : no_lone (quote_units s) = true.
Proof.
  remember (length s) as n eqn:Hn. revert s Hn.
  induction n as [n IH] using lt_wf_ind. intros [|c t] Hn; [done|]. simpl length in Hn. cbn [quote_units].
  assert (Hr : no_lone (quote_units t) = true) by (apply (IH (length t)); [lia|done]).
  case_match; [|by apply no_lone_app; [apply quote_unit_no_lone|]].
  destruct t as [|d t']; [apply quote_unit_no_lone|].
  case_match; [|by apply no_lone_app; [apply quote_unit_no_lone|]].
  simpl length in Hn. cbn [no_lone]. rewrite H, H0. simpl. apply (IH (length t')); [lia|done].
Qed.

Lemma json_stringify_no_lone `{NL : JsNumberLaws} v space t :
  jwf v = true -> json_stringify v space = Some t -> no_lone t = true.
Proof.
  apply json_stringify_text; [done|apply no_lone_app| |intros s _; apply quote_units_no_lone].
  intros c Hc. rewrite no_lone_cons by lia. done.
Qed.

(** ** Reading the file decodes it *)

Lemma read_file_ok f : disk_ok f = true -> file_ok (read_file_utf8 f) = true.
Proof. destruct f as [[bs|]]; [apply utf8_decode_bounded|done]. Qed.

(** ** The bytes written decode to the text written *)

Section DiskLaws.
Context `{NM : JsNumber} `{NL : !JsNumberLaws}.

(** The bytes of [JSON.stringify(v)] decode to its text. *)
Lemma stringify_decode_encode v space t :
  jwf v = true -> json_stringify v space = Some t -> utf8_decode (utf8_encode t) = t.
Proof using NL.
  intros Hv Ht. apply utf8_roundtrip_exact;
    [exact (json_stringify_units _ _ _ Hv Ht)|exact (json_stringify_no_lone _ _ _ Hv Ht)].
Qed.

Lemma read_file_encoded v text :
  jwf v = true -> json_stringify v 2 = Some text ->
  read_file_utf8 (DiskFile (Some (utf8_encode text))) = Some text.
Proof using NL.
  intros Hv Ht. cbn [read_file_utf8 disk_bytes fmap option_fmap option_map]. f_equal.
  exact (stringify_decode_encode v 2 text Hv Ht).
Qed.

Lemma write_bytes_decodes f v wo :
  jwf v = true -> (forall k, wo <> WriteFailsAfter k) ->
  read_file_utf8 (writeStudentData_bytes f v wo).1 = (writeStudentData (read_file_utf8 f) v wo).1.
Proof using NL.
  intros Hv Hwo. unfold writeStudentData_bytes, writeStudentData.
  destruct (json_stringify v 2) as [text|] eqn:Ht; [|done].
  destruct wo as [| |k]; [|done|by destruct (Hwo k)]. exact (read_file_encoded v text Hv Ht).
Qed.

(** A write cut short leaves bytes that read as an array. *)
Lemma read_truncated_array xs text k :
  json_stringify (JArr xs) 2 = Some text ->
  exists zs, readStudentData_bytes (DiskFile (Some (take k (utf8_encode text)))) ReadOk = JArr zs.
Proof.
  intros Ht. destruct (json_stringify_array_head _ _ _ Ht) as [t' ->].
  unfold readStudentData_bytes, read_file_utf8. cbn [disk_bytes fmap option_fmap option_map readStudentData].
  destruct k as [|k].
  - rewrite take_0. by exists [].
  - rewrite encode_ascii by (unfold c_lbrack; lia). cbn [take]. unfold utf8_decode. rewrite go_ascii by (unfold c_lbrack; lia).
    destruct (json_parse _) as [v|] eqn:Ep; [|by exists []].
    destruct (json_parse_lbrack _ _ Ep) as [zs ->]. by exists zs.
Qed.

#[export] Instance disk_store_laws : RecordStoreLaws disk_file.
Proof using NL.
  split; cbn [store_read store_write store_ok disk_store].
  - intros [f] ro Hok. unfold readStudentData_bytes.
    apply (@store_read_wf _ _ file_store file_store_laws). cbn [store_ok file_store file_ok].
    exact (read_file_ok (DiskFile f) Hok).
  - intros f xs wo Hok Hwf. unfold writeStudentData_bytes.
    destruct (json_stringify (JArr xs) 2) as [text|] eqn:E; [|done].
    pose proof (utf8_encode_bytes _ (json_stringify_units _ _ _ Hwf E)) as Hb.
    destruct wo as [| |k]; [exact Hb|exact Hok|]. cbn [disk_ok disk_bytes fst].
    rewrite <- (take_drop k (utf8_encode text)), forallb_app in Hb. by apply andb_true_iff in Hb as [? _].
  - intros f xs wo Hys Hwf. destruct wo as [| |k].
    + unfold readStudentData_bytes. rewrite (write_bytes_decodes f _ WriteOk Hwf ltac:(done)).
      exists (map jnorm xs). rewrite <- jnorm_arr_wf by done.
      exact (@store_read_write _ _ file_store file_store_laws (read_file_utf8 f) xs Hwf).
    + unfold writeStudentData_bytes. destruct (json_stringify _ _); exact Hys.
    + unfold writeStudentData_bytes. destruct (json_stringify (JArr xs) 2) as [text|] eqn:E; [|done].
      exact (read_truncated_array xs text k E).
  - intros [f]. unfold readStudentData_bytes. by destruct (read_file_utf8 _).
  - intros f xs Hwf. unfold readStudentData_bytes. rewrite (write_bytes_decodes f _ WriteOk Hwf ltac:(done)).
    exact (@store_read_write _ _ file_store file_store_laws (read_file_utf8 f) xs Hwf).
  - intros f xs. unfold writeStudentData_bytes, json_stringify. by cbn [ser].
  - intros f xs. unfold writeStudentData_bytes, json_stringify. by cbn [ser].
Qed.

(** ** The theorems on the bytes *)

(** C14: through the decoder, the byte-level file is the text file: for a
    write of JSON data that completes or fails before opening, the bytes
    left on disk decode to the text [RecordStore.writeStudentData] leaves,
    and the same lines are logged; reads decode by definition. *)
Theorem disk_refines_text f v wo :
  jwf v = true -> (forall k, wo <> WriteFailsAfter k) ->
  read_file_utf8 (writeStudentData_bytes f v wo).1 = (writeStudentData (read_file_utf8 f) v wo).1 /\
  (writeStudentData_bytes f v wo).2 = (writeStudentData (read_file_utf8 f) v wo).2.
Proof using NL.
  intros Hv Hwo. split; [by apply write_bytes_decodes|].
  unfold writeStudentData_bytes, writeStudentData. by destruct (json_stringify v 2), wo.
Qed.

(** C7: what [writeStudentData] writes to disk, [readStudentData] reads
    back as [jnorm] of the collection, through [JSON.stringify], the UTF-8
    encoder, the decoder and [JSON.parse]: strings with characters beyond
    U+FFFF come back as they were, and lone surrogates, which
    [JSON.stringify] escapes, too. *)
Theorem data_file_roundtrip f xs :
  jwf (JArr xs) = true ->
  readStudentData_bytes (writeStudentData_bytes f (JArr xs) WriteOk).1 ReadOk = jnorm (JArr xs).
Proof using NL. exact (store_read_write f xs). Qed.

Lemma json_parse_bom t : json_parse (65279 :: t) = None.
Proof. reflexivity. Qed.

(** C19: a data file that starts with a UTF-8 byte-order mark (EF BB BF),
    as some editors save it, reads as [[]] whatever follows: the decoder
    keeps U+FEFF and [JSON.parse] rejects it.  The next valid submission
    is then answered 201 with [id = 1] and replaces the whole file by the
    array of that one record: every earlier record is lost. *)
Theorem bom_file_replaced bs ps line text :
  jwf (JObj ps) = true -> required_present ps = true -> submit_log_line (JObj ps) = inr line ->
  json_stringify (JArr [JObj ps]) 2 = Some text ->
  readStudentData_bytes (DiskFile (Some (239 :: 187 :: 191 :: bs))) ReadOk = JArr [] /\
  submit_quiz (DiskFile (Some (239 :: 187 :: 191 :: bs))) (JObj ps) ReadOk WriteOk =
    (DiskFile (Some (utf8_encode text)), [LogOut line], Respond (submit_created 1 ps)).
Proof using NL.
  intros Hwf Hreq Hline Ht.
  assert (Hr : readStudentData_bytes (DiskFile (Some (239 :: 187 :: 191 :: bs))) ReadOk = JArr []).
  { unfold readStudentData_bytes, read_file_utf8. cbn [disk_bytes fmap option_fmap option_map readStudentData].
    by rewrite utf8_decode_bom, json_parse_bom. }
  split; [done|]. change (store_read (DiskFile (Some (239 :: 187 :: 191 :: bs))) ReadOk = JArr []) in Hr. rewrite (submit_quiz_valid_step (DiskFile (Some (239 :: 187 :: 191 :: bs))) ps ReadOk WriteOk [] Hwf Hreq Hr ltac:(done)), Hline.
  cbn [store_write disk_store app length]. unfold writeStudentData_bytes. by rewrite Ht.
Qed.

End DiskLaws.

(** C33: a file written as UTF-8 reads back as the text written, each
    lone surrogate replaced by U+FFFD: [readFileSync(DATA_FILE, 'utf8')]
    of the bytes [writeFileSync(DATA_FILE, s, 'utf8')] leaves is [s]
    scrubbed, for every text [s] of 16-bit units. *)
Theorem utf8_file_roundtrip s :
  bounded s = true -> read_file_utf8 (DiskFile (Some (utf8_encode s))) = Some (scrub s).
Proof.
  intros Hs. cbn [read_file_utf8 disk_bytes fmap option_fmap option_map]. f_equal.
  by apply utf8_decode_encode.
Qed.

(** C34: whatever bytes [data.json] holds, [readFileSync(DATA_FILE, 'utf8')]
    decodes them to well-formed UTF-16: every surrogate it produces is in
    a pair (the encoding of a surrogate, an overlong or out-of-range
    sequence and a cut one become U+FFFD), so the text it reads is one
    [writeFileSync(DATA_FILE, text, 'utf8')] writes as bytes that read back
    as the same text. *)
Theorem read_file_well_formed f t :
  disk_ok f = true -> read_file_utf8 f = Some t ->
  no_lone t = true /\ read_file_utf8 (DiskFile (Some (utf8_encode t))) = Some t.
Proof.
  destruct f as [[bs|]]; [|done]. cbn [disk_ok disk_bytes read_file_utf8 fmap option_fmap option_map].
  intros Hb [= <-]. split; [by apply utf8_decode_no_lone|]. f_equal.
  apply utf8_roundtrip_exact; [by apply utf8_decode_bounded|by apply utf8_decode_no_lone].
Qed.

(** ** The theorems on concrete files *)

Section DiskWitnesses.
#[local] Existing Instances decimal_number decimal_laws.

(** A record whose name has a character beyond U+FFFF and a lone
    surrogate. *)
Definition astral_record : jsval := JObj [(⟪"name"⟫, JStr [65; 55357; 56832; 55296])].

Lemma disk_refines_text_witness :
  jwf (JArr [astral_record]) = true /\
  read_file_utf8 (writeStudentData_bytes (DiskFile None) (JArr [astral_record]) WriteOk).1 =
    (writeStudentData (read_file_utf8 (DiskFile None)) (JArr [astral_record]) WriteOk).1 /\
  (writeStudentData_bytes (DiskFile None) (JArr [astral_record]) WriteOk).2 =
    (writeStudentData (read_file_utf8 (DiskFile None)) (JArr [astral_record]) WriteOk).2.
Proof.
  assert (H : jwf (JArr [astral_record]) = true) by reflexivity.
  assert (Hw : forall k, WriteOk <> WriteFailsAfter k) by (intros k; discriminate).
  split; [exact H|]. exact (disk_refines_text _ _ _ H Hw).
Defined.

Lemma data_file_roundtrip_witness :
  jwf (JArr [astral_record]) = true /\
  readStudentData_bytes (writeStudentData_bytes (DiskFile None) (JArr [astral_record]) WriteOk).1 ReadOk =
    JArr [astral_record].
Proof.
  assert (H : jwf (JArr [astral_record]) = true) by reflexivity.
  split; [exact H|]. rewrite (data_file_roundtrip _ _ H). reflexivity.
Defined.

Lemma bom_file_replaced_witness :
  exists text, json_stringify (JArr [JObj ana_body]) 2 = Some text /\
  readStudentData_bytes (DiskFile (Some [239; 187; 191; 91; 93])) ReadOk = JArr [] /\
  submit_quiz (DiskFile (Some [239; 187; 191; 91; 93])) (JObj ana_body) ReadOk WriteOk =
    (DiskFile (Some (utf8_encode text)), [LogOut ana_line], Respond (submit_created 1 ana_body)).
Proof.
  eexists. split; [reflexivity|]. apply (bom_file_replaced [91; 93] ana_body ana_line); reflexivity.
Defined.

(** "H", U+1F600 (a surrogate pair), a lone high surrogate, "i". *)
Definition sample_text : jstr := [72; 55357; 56832; 55296; 105].

Lemma utf8_file_roundtrip_witness :
  bounded sample_text = true /\
  read_file_utf8 (DiskFile (Some (utf8_encode sample_text))) =
    Some [72; 55357; 56832; replacement_char; 105].
Proof.
  assert (H : bounded sample_text = true) by reflexivity.
  split; [exact H|]. rewrite (utf8_file_roundtrip _ H). reflexivity.
Defined.

(** A byte-order mark, the four bytes of U+1F600, and the encoding of a
    surrogate (ED A0 80), which is ill-formed. *)
Definition sample_bytes : bytes := [239; 187; 191; 240; 159; 152; 128; 237; 160; 128].

Lemma read_file_well_formed_witness :
  disk_ok (DiskFile (Some sample_bytes)) = true /\
  read_file_utf8 (DiskFile (Some sample_bytes)) =
    Some [65279; 55357; 56832; replacement_char; replacement_char; replacement_char] /\
  no_lone [65279; 55357; 56832; replacement_char; replacement_char; replacement_char] = true.
Proof.
  assert (H : disk_ok (DiskFile (Some sample_bytes)) = true) by reflexivity.
  assert (Hr : read_file_utf8 (DiskFile (Some sample_bytes)) =
               Some [65279; 55357; 56832; replacement_char; replacement_char; replacement_char])
    by reflexivity.
  split_and!; [exact H|exact Hr|exact (proj1 (read_file_well_formed _ _ H Hr))].
Defined.

End DiskWitnesses.
