(* ===== verification/Wire.v ===== *)
(** * The HTTP exchange on the wire

    [Server.serve] decides the status of an answer and the value handed to
    [res.json].  Here is what the client and the server exchange as bytes:
    - a request's JSON body arrives as bytes; [bodyParser.json()] (line
      15) decodes it as UTF-8 with [iconv-lite], which drops a leading
      byte-order mark, and counts its bytes against the limit
      ([to_request]);
    - every answer carries the headers Express, [cors()] (line 12) and the
      responder set, in the order Node sends them ([set_header] replaces a
      header of the same name, ignoring case, where it stands): first
      [X-Powered-By: Express] (Express's own first middleware), then
      [Access-Control-Allow-Origin: *];
    - a preflight ([OPTIONS]) ends in [cors()]: 204, the allowed methods,
      [Vary], the requested headers echoed, [Content-Length: 0];
    - [res.json(v)] prints [JSON.stringify(v)] without indentation, sets
      [Content-Type: application/json; charset=utf-8], encodes the text as
      UTF-8 and sets [Content-Length] to the number of bytes and a weak
      [ETag] over them ([json_send]);
    - an error (400, 413, 404, 500) is answered by Express's final
      handler with an HTML page around the error's text, and its
      [Content-Security-Policy], [X-Content-Type-Options], [Content-Type]
      and [Content-Length] ([page_send]);
    - the body is not sent to a [HEAD] request, whose headers are those of
      the [GET] answer.

    [serve_wire] composes the decoding of the request, [Server.serve] and
    the sending of the answer.  The theorems: the client's [JSON.parse]
    of the bytes of every JSON answer gives back the value sent, and
    [Content-Length] counts them; every answer, errors and preflights
    included, allows every origin; a [HEAD] request to the data route is
    answered as the [GET] request, headers and all, without the body (a
    [HEAD] no route takes is not: its 404 page names the method).

    The SHA-1 digest inside the [ETag] is a parameter ([sha1_base64]), and
    so is the stack of an error the final handler prints; its 404 text,
    [Cannot <method> <path>], is computed ([page_message]), the path taken
    as the part of the request target before [?] (Node's parser refuses
    spaces and controls there; a client sends no [#]).  Not modelled: conditional requests
    ([If-None-Match], [If-Modified-Since]: every request here has neither,
    so no answer is a 304), the [Date], [Connection] and [Keep-Alive]
    headers Node adds, and the status line's reason phrase. *)

From stdpp Require Import relations.
From S2P Require Import Prelude Utf8 JsNumber JsDecimal JsValue JsonText RecordStore Handlers Server DataFile.

(** ** Headers *)

Abbreviation header := (jstr * jstr)%type.

(** Two header names are the same up to ASCII case. *)
Definition same_name (a b : jstr) : bool := bool_decide (map lower a = map lower b).

(** [res.setHeader(name, v)]: Node keeps the headers in an object keyed by
    the lower-cased name, so a name already set keeps its place and takes
    the new value; a new name goes last. *)
Fixpoint set_header (name v : jstr) (hs : list header) : list header :=
  match hs with
  | [] => [(name, v)]
  | (k, w) :: t => if same_name k name then (name, v) :: t else (k, w) :: set_header name v t
  end.

(** [res.getHeader(name)]. *)
Fixpoint get_header (name : jstr) (hs : list header) : option jstr :=
  match hs with
  | [] => None
  | (k, w) :: t => if same_name k name then Some w else get_header name t
  end.

Definition dq : Z := 34.
Definition nl : jstr := [10].

Definition h_powered_by : jstr := ⟪"X-Powered-By"⟫.
Definition h_allow_origin : jstr := ⟪"Access-Control-Allow-Origin"⟫.
Definition h_allow_methods : jstr := ⟪"Access-Control-Allow-Methods"⟫.
Definition h_allow_headers : jstr := ⟪"Access-Control-Allow-Headers"⟫.
Definition h_vary : jstr := ⟪"Vary"⟫.
Definition h_content_type : jstr := ⟪"Content-Type"⟫.
Definition h_content_length : jstr := ⟪"Content-Length"⟫.
Definition h_etag : jstr := ⟪"ETag"⟫.
Definition h_csp : jstr := ⟪"Content-Security-Policy"⟫.
Definition h_nosniff : jstr := ⟪"X-Content-Type-Options"⟫.

(** [cors()]'s default [methods]. *)
Definition cors_methods : jstr := ⟪"GET,HEAD,PUT,PATCH,POST,DELETE"⟫.

Definition json_type : jstr := ⟪"application/json; charset=utf-8"⟫.
Definition html_type : jstr := ⟪"text/html; charset=utf-8"⟫.

(** Express's [x-powered-by] setting, on by default, sets the first header
    of every answer. *)
Definition express_headers : list header := [(h_powered_by, ⟪"Express"⟫)].

(** [cors()] with its default [origin: '*'], for any request. *)
Definition cors_origin (hs : list header) : list header := set_header h_allow_origin ⟪"*"⟫ hs.

(** [cors()] on a preflight: the origin, the methods, then (no
    [allowedHeaders] option) [Vary: Access-Control-Request-Headers] and
    the [Access-Control-Request-Headers] of the request echoed when it is
    not empty; [preflightContinue] is off, so it ends the request with
    [optionsSuccessStatus] 204 and [Content-Length: 0]. *)
Definition preflight_headers (acrh : option jstr) : list header :=
  let hs := set_header h_allow_methods cors_methods (cors_origin express_headers) in
  let hs := set_header h_vary ⟪"Access-Control-Request-Headers"⟫ hs in
  let hs := match acrh with Some ((_ :: _) as v) => set_header h_allow_headers v hs | _ => hs end in
  set_header h_content_length ⟪"0"⟫ hs.

(** ** The body of an answer *)

Definition hex_digit (d : Z) : Z := if d <? 10 then 48 + d else 87 + d.

(** [n.toString(16)], with fuel: [n] has at most [n + 1] digits. *)
Fixpoint hex_go (fuel : nat) (n : Z) : jstr :=
  match fuel with
  | O => []
  | S f => if n <? 16 then [hex_digit n] else hex_go f (n / 16) ++ [hex_digit (n mod 16)]
  end.

Definition to_hex (n : nat) : jstr := hex_go (S n) (Z.of_nat n).

(** [escapeHtml] of the final handler. *)
Definition escape_unit (c : Z) : jstr :=
  if c =? 38 then ⟪"&amp;"⟫ else if c =? 60 then ⟪"&lt;"⟫ else if c =? 62 then ⟪"&gt;"⟫
  else if c =? dq then ⟪"&quot;"⟫ else if c =? 39 then ⟪"&#39;"⟫ else [c].

(** The two [replace]s that follow it: each line feed becomes [<br>],
    then each pair of spaces, from the left, becomes [ &nbsp;]. *)
Fixpoint br_lines (t : jstr) : jstr :=
  match t with [] => [] | c :: r => (if c =? 10 then ⟪"<br>"⟫ else [c]) ++ br_lines r end.

Fixpoint nbsp_pairs (t : jstr) : jstr :=
  match t with
  | 32 :: 32 :: r => ⟪" &nbsp;"⟫ ++ nbsp_pairs r
  | c :: r => c :: nbsp_pairs r
  | [] => []
  end.

(** [createHtmlDocument(message)] of the final handler. *)
Definition html_document (message : jstr) : jstr :=
  ⟪"<!DOCTYPE html>"⟫ ++ nl ++ ⟪"<html lang="⟫ ++ [dq] ++ ⟪"en"⟫ ++ [dq] ++ ⟪">"⟫ ++ nl ++
  ⟪"<head>"⟫ ++ nl ++ ⟪"<meta charset="⟫ ++ [dq] ++ ⟪"utf-8"⟫ ++ [dq] ++ ⟪">"⟫ ++ nl ++
  ⟪"<title>Error</title>"⟫ ++ nl ++ ⟪"</head>"⟫ ++ nl ++ ⟪"<body>"⟫ ++ nl ++
  ⟪"<pre>"⟫ ++ nbsp_pairs (br_lines (flat_map escape_unit message)) ++ ⟪"</pre>"⟫ ++ nl ++
  ⟪"</body>"⟫ ++ nl ++ ⟪"</html>"⟫ ++ nl.

(** [encodeurl], which the final handler applies to the path it names:
    a character outside [! #-; = ?-_ a-z | ~], or a [%] not followed by
    two hex digits, is written as the [%XX] escapes of its UTF-8 bytes
    (a lone surrogate as those of U+FFFD); a surrogate pair is one
    character. *)
Definition url_char_ok (c : Z) : bool :=
  (c =? 33) || ((35 <=? c) && (c <=? 59)) || (c =? 61) || ((63 <=? c) && (c <=? 95)) ||
  ((97 <=? c) && (c <=? 122)) || (c =? 124) || (c =? 126).

Definition is_hex (c : Z) : bool := is_digit c || ((65 <=? c) && (c <=? 70)) || ((97 <=? c) && (c <=? 102)).

Definition hex_upper (d : Z) : Z := if d <? 10 then 48 + d else 55 + d.

Definition pct_bytes (bs : bytes) : jstr := flat_map (fun b => [37; hex_upper (b / 16); hex_upper (b mod 16)]) bs.

Definition pct_ok (r : jstr) : bool := match r with a :: b :: _ => is_hex a && is_hex b | _ => false end.

Fixpoint encode_url (t : jstr) : jstr :=
  match t with
  | [] => []
  | c :: r =>
      if (if c =? 37 then pct_ok r else url_char_ok c) then c :: encode_url r
      else match r with
           | d :: r' => if is_high c && is_low d then pct_bytes (utf8_encode [c; d]) ++ encode_url r'
                        else pct_bytes (utf8_encode [c]) ++ encode_url r
           | [] => pct_bytes (utf8_encode [c])
           end
  end.

Definition method_name (m : http_method) : jstr :=
  match m with
  | GET => ⟪"GET"⟫ | HEAD => ⟪"HEAD"⟫ | POST => ⟪"POST"⟫ | PUT => ⟪"PUT"⟫
  | DELETE => ⟪"DELETE"⟫ | PATCH => ⟪"PATCH"⟫ | OPTIONS => ⟪"OPTIONS"⟫
  end.

(** ** Requests and answers as bytes *)

(** A request as it arrives: the body of one sent as [application/json],
    as bytes, and its [Access-Control-Request-Headers] header. *)
Record wire_request := {
  wr_method : http_method; wr_url : jstr; wr_json : option bytes; wr_acrh : option jstr }.

(** An answer as it leaves: status, headers, body. *)
Record wire_response := { ws_status : Z; ws_headers : list header; ws_bytes : bytes }.

(** [iconv-lite]'s UTF-8 decoder, with its default [stripBOM]. *)
Definition strip_bom (t : jstr) : jstr := match t with c :: r => if c =? 65279 then r else t | [] => [] end.

Definition decode_body (bs : bytes) : jstr := strip_bom (utf8_decode bs).

(** What [bodyParser.json()] reads: the decoded text, and the bytes it
    counts against its limit. *)
Definition to_request (w : wire_request) : request :=
  {| req_method := wr_method w; req_url := wr_url w; req_body := decode_body <$> wr_json w;
     req_length := N.of_nat (default 0%nat (length <$> wr_json w)) |}.

(** The body of a request is bytes. *)
Definition wire_ok (w : wire_request) : bool :=
  match wr_json w with Some bs => forallb byte_ok bs | None => true end.

Section Send.
Context `{NM : JsNumber}.

(** The first 27 characters of the base64 SHA-1 digest of the bytes. *)
Variable sha1_base64 : bytes -> jstr.

(** Express's [etag] setting, [weak]: [W/"<length in hex>-<digest>"]. *)
Definition etag (bs : bytes) : jstr :=
  ⟪"W/"⟫ ++ [dq] ++ to_hex (length bs) ++ ⟪"-"⟫ ++ sha1_base64 bs ++ [dq].

(** [String(n)] of a byte count, as [res.set] and Node print it. *)
Definition decimal (n : nat) : jstr := num_to_string (num_of_nat n).

(** The body is not written for a [HEAD] request. *)
Definition body_for (m : http_method) (bs : bytes) : bytes :=
  if bool_decide (m = HEAD) then [] else bs.

(** [res.status(c).json(v)]: [JSON.stringify(v)] (the [json spaces]
    setting is unset), the type, then [res.send] encodes the string,
    counts its bytes and tags them; [undefined] sends no body. *)
Definition json_send (hs : list header) (c : Z) (m : http_method) (v : jsval) : wire_response :=
  let hs := set_header h_content_type json_type hs in
  match json_stringify v 0 with
  | None => {| ws_status := c; ws_headers := hs; ws_bytes := [] |}
  | Some text =>
      let bs := utf8_encode text in
      let hs := set_header h_etag (etag bs) (set_header h_content_length (decimal (length bs)) hs) in
      {| ws_status := c; ws_headers := hs; ws_bytes := body_for m bs |}
  end.

(** The final handler's page for status [c] around [message]. *)
Definition page_send (hs : list header) (c : Z) (m : http_method) (message : jstr) : wire_response :=
  let bs := utf8_encode (html_document message) in
  let hs := set_header h_csp ⟪"default-src 'none'"⟫ hs in
  let hs := set_header h_nosniff ⟪"nosniff"⟫ hs in
  let hs := set_header h_content_type html_type hs in
  let hs := set_header h_content_length (decimal (length bs)) hs in
  {| ws_status := c; ws_headers := hs; ws_bytes := body_for m bs |}.

(** The final handler's text ([NODE_ENV] unset, so not [production]):
    for a request no route took (404), [Cannot <method> <path>] with the
    path of the URL encoded; otherwise the error's stack, [stack]. *)
Definition page_message (w : wire_request) (stack : jstr) (c : Z) : jstr :=
  if c =? 404 then ⟪"Cannot "⟫ ++ method_name (wr_method w) ++ ⟪" "⟫ ++ encode_url (url_path (wr_url w))
  else stack.

(** The answer [Server.serve] computed, as it leaves. *)
Definition wire_send (w : wire_request) (stack : jstr) (resp : http_response) : wire_response :=
  if bool_decide (wr_method w = OPTIONS) then
    {| ws_status := 204; ws_headers := preflight_headers (wr_acrh w); ws_bytes := [] |}
  else
    let hs := cors_origin express_headers in
    match payload resp with
    | Some v => json_send hs (code resp) (wr_method w) v
    | None => page_send hs (code resp) (wr_method w) (page_message w stack (code resp))
    end.

Context {St : Type} `{!RecordStore St}.

(** One request from its bytes to the bytes of its answer; [stack] is
    the stack of the error, if one is raised, as the final handler prints
    it: the environment chooses it, as it chooses the I/O outcomes. *)
Definition serve_wire (s : St) (w : wire_request) (stack : jstr) (ro : read_outcome)
    (wo : write_outcome) : St * list log_line * wire_response :=
  let '(s', logs, resp) := serve s (to_request w) ro wo in (s', logs, wire_send w stack resp).

End Send.

(** ** Headers set and read *)

Lemma same_name_refl a : same_name a a = true.
Proof. unfold same_name. by apply bool_decide_eq_true. Qed.

Lemma same_name_sym a b : same_name a b = same_name b a.
Proof. unfold same_name. apply bool_decide_ext. split; by intros ->. Qed.

Lemma same_name_trans a b c : same_name a b = true -> same_name a c = same_name b c.
Proof. unfold same_name. intros ?%bool_decide_eq_true. apply bool_decide_ext. by split; congruence. Qed.

Lemma get_set_same name v hs : get_header name (set_header name v hs) = Some v.
Proof.
  induction hs as [|[k w] t IH]; cbn [set_header get_header]; [by rewrite same_name_refl|].
  destruct (same_name k name) eqn:E; cbn [get_header]; [by rewrite same_name_refl|].
  by rewrite E.
Qed.

Lemma get_set_other name k v hs :
  same_name name k = false -> get_header k (set_header name v hs) = get_header k hs.
Proof.
  intros Hn. induction hs as [|[k' w] t IH]; cbn [set_header get_header]; [by rewrite Hn|].
  destruct (same_name k' name) eqn:E; cbn [get_header]; [|by rewrite IH].
  by rewrite Hn, (same_name_trans k' name k E), Hn.
Qed.

(** Reading a header through the ones set after it, by their names. *)
Ltac get_headers :=
  repeat first [rewrite get_set_same | rewrite get_set_other by reflexivity].

Lemma bounded_strip_bom t : bounded t = true -> bounded (strip_bom t) = true.
Proof.
  destruct t as [|c t]; [done|]. cbn [strip_bom]. rewrite bounded_cons.
  intros [Hc Ht]%andb_true_iff. destruct (c =? 65279); [done|]. by rewrite bounded_cons, Hc, Ht.
Qed.

(** [bodyParser.json()] hands the routes text of 16-bit units. *)
Lemma to_request_ok `{NM : JsNumber} w : wire_ok w = true -> request_ok (to_request w) = true.
Proof.
  unfold wire_ok, request_ok, to_request. cbn [req_body]. destruct (wr_json w) as [bs|]; [|done].
  intros Hb. apply bounded_strip_bom, utf8_decode_bounded, Hb.
Qed.

Lemma body_for_get m bs : m <> HEAD -> body_for m bs = bs.
Proof. intros Hm. unfold body_for. by rewrite bool_decide_false. Qed.

Lemma serve_options `{NM : JsNumber} {St : Type} `{!RecordStore St} (s : St) r ro wo v :
  payload (serve s r ro wo).2 = Some v -> req_method r <> OPTIONS.
Proof. unfold serve. case_bool_decide; [done|]. by intros _. Qed.

(** ** What the client reads *)

Section WireTheorems.
Context `{NM : JsNumber} `{NL : !JsNumberLaws} {St : Type} `{!RecordStore St} `{HL : !RecordStoreLaws St}.
Variable sha1_base64 : bytes -> jstr.

(** [res.json(v)] for JSON data [v]: the text's bytes, their count and
    the type. *)
Lemma json_send_wf hs c m v :
  jwf v = true -> m <> HEAD ->
  let a := json_send sha1_base64 hs c m v in
  json_parse (utf8_decode (ws_bytes a)) = Some (jnorm v) /\
  get_header h_content_length (ws_headers a) = Some (decimal (length (ws_bytes a))) /\
  get_header h_content_type (ws_headers a) = Some json_type.
Proof using NL.
  intros Hv Hm. destruct (ser_some (gap_of_space 0) [] v Hv) as [t Ht].
  fold (json_stringify v 0) in Ht. unfold json_send. rewrite Ht. cbn [ws_bytes ws_headers].
  rewrite body_for_get by done. get_headers.
  split_and!; [|done|done]. rewrite (stringify_decode_encode v 0 t Hv Ht).
  exact (json_roundtrip v 0 t Hv Ht).
Qed.

(** C10: the bytes of every JSON answer the server sends, for any request
    and any I/O outcome, decode and parse on the client to the value
    handed to [res.json] (as [jnorm] reads it), [Content-Length] is their
    number, and the type is [application/json; charset=utf-8]. *)
Theorem wire_json_roundtrip s w stack ro wo v :
  store_ok s = true -> wire_ok w = true -> wr_method w <> HEAD ->
  payload (serve s (to_request w) ro wo).2 = Some v ->
  let a := (serve_wire sha1_base64 s w stack ro wo).2 in
  json_parse (utf8_decode (ws_bytes a)) = Some (jnorm v) /\
  get_header h_content_length (ws_headers a) = Some (decimal (length (ws_bytes a))) /\
  get_header h_content_type (ws_headers a) = Some json_type.
Proof using NL HL.
  intros Hs Hw Hm Hp. pose proof (serve_options s _ ro wo v Hp) as Ho.
  pose proof (serve_payload_wf s _ ro wo v Hs (to_request_ok w Hw) Hp) as Hv.
  unfold serve_wire. destruct (serve s (to_request w) ro wo) as [[s' logs] resp]. cbn [snd] in *.
  unfold wire_send. rewrite bool_decide_false by done. rewrite Hp. by apply json_send_wf.
Qed.

(** Every answer [wire_send] builds, preflight or not. *)
Lemma wire_send_cors w stack resp :
  let a := wire_send sha1_base64 w stack resp in
  get_header h_allow_origin (ws_headers a) = Some ⟪"*"⟫ /\
  (wr_method w = OPTIONS ->
   ws_status a = 204 /\ get_header h_allow_methods (ws_headers a) = Some cors_methods /\ ws_bytes a = []).
Proof.
  unfold wire_send. case_bool_decide as Ho.
  - cbn [ws_headers ws_status ws_bytes]. unfold preflight_headers, cors_origin.
    destruct (wr_acrh w) as [[|c v]|]; get_headers; done.
  - split; [|done]. destruct (payload resp) as [v|].
    + unfold json_send, cors_origin. destruct (json_stringify v 0); cbn [ws_headers]; get_headers; done.
    + unfold page_send, cors_origin. cbn [ws_headers]. get_headers. done.
Qed.

(** C28: every answer the server sends, whatever the request, the route,
    the status and the I/O outcomes (errors, pages and 404s included),
    carries [Access-Control-Allow-Origin: *]; a preflight is answered 204
    with no body, allowing the methods [GET,HEAD,PUT,PATCH,POST,DELETE]. *)
Theorem wire_cors s w stack ro wo :
  let a := (serve_wire sha1_base64 s w stack ro wo).2 in
  get_header h_allow_origin (ws_headers a) = Some ⟪"*"⟫ /\
  (wr_method w = OPTIONS ->
   ws_status a = 204 /\ get_header h_allow_methods (ws_headers a) = Some cors_methods /\ ws_bytes a = []).
Proof.
  unfold serve_wire. destruct (serve s (to_request w) ro wo) as [[s' logs] resp].
  apply wire_send_cors.
Qed.

(** [HEAD] takes the [GET] route, wherever it goes. *)
Definition as_get (w : wire_request) : wire_request :=
  {| wr_method := GET; wr_url := wr_url w; wr_json := wr_json w; wr_acrh := wr_acrh w |}.

Lemma serve_head s w ro wo :
  wr_method w = HEAD -> serve s (to_request w) ro wo = serve s (to_request (as_get w)) ro wo.
Proof. destruct w as [m u b a]. cbn. intros ->. reflexivity. Qed.

Lemma wire_send_head w stack resp :
  wr_method w = HEAD -> code resp <> 404 ->
  wire_send sha1_base64 w stack resp =
    let a := wire_send sha1_base64 (as_get w) stack resp in
    {| ws_status := ws_status a; ws_headers := ws_headers a; ws_bytes := [] |}.
Proof.
  intros Hm Hc. unfold wire_send. cbn [wr_method as_get]. rewrite Hm. cbn -[json_send page_send].
  destruct (payload resp) as [v|].
  - unfold json_send. by destruct (json_stringify v 0).
  - unfold page_message. rewrite (proj2 (Z.eqb_neq _ _) Hc). done.
Qed.

Lemma admin_data_code s ro : code (respond (admin_data s ro).2).2 <> 404.
Proof. unfold admin_data. case_match; simpl; lia. Qed.

(** [GET] and [HEAD] of the data route never reach the 404 of the final
    handler. *)
Lemma serve_data_route_code s r ro wo :
  req_method r = GET \/ req_method r = HEAD -> route_is data_route (req_url r) = true ->
  code (serve s r ro wo).2 <> 404.
Proof.
  intros Hm Hr. unfold serve. rewrite Hr.
  rewrite (bool_decide_false (req_method r = OPTIONS)) by (destruct Hm as [-> | ->]; done).
  destruct (body_too_large r); [simpl; lia|]. destruct (parse_body (req_body r)); [|simpl; lia].
  rewrite (bool_decide_false (req_method r = POST)) by (destruct Hm as [-> | ->]; done).
  rewrite bool_decide_true by done. cbn [andb].
  pose proof (admin_data_code s ro). by destruct (admin_data s ro).
Qed.

(** C29: a [HEAD] request to [/api/admin/data] is served as the [GET]
    request with the same URL and body: the same store, log lines (the
    file is read and the line of line 67 printed), status and headers,
    [Content-Length] and [ETag] those of the body it does not send, and no
    body.  (On a path no route takes, the two 404 pages differ: they name
    the method.) *)
Theorem head_as_get s w stack ro wo :
  wr_method w = HEAD -> route_is data_route (wr_url w) = true ->
  (serve_wire sha1_base64 s w stack ro wo).1 = (serve_wire sha1_base64 s (as_get w) stack ro wo).1 /\
  (serve_wire sha1_base64 s w stack ro wo).2 =
    let a := (serve_wire sha1_base64 s (as_get w) stack ro wo).2 in
    {| ws_status := ws_status a; ws_headers := ws_headers a; ws_bytes := [] |}.
Proof.
  intros Hm Hr. unfold serve_wire. rewrite (serve_head s w ro wo Hm).
  pose proof (serve_data_route_code s (to_request (as_get w)) ro wo (or_introl eq_refl) Hr) as Hc.
  destruct (serve s (to_request (as_get w)) ro wo) as [[s' logs] resp].
  split; [done|]. exact (wire_send_head w stack resp Hm Hc).
Qed.

(** A [HEAD] to a path no route takes is answered with a page naming
    [HEAD], whose length is not the [GET] page's. *)
Lemma head_not_found s w stack ro wo :
  wr_method w = HEAD -> code (serve s (to_request w) ro wo).2 = 404 ->
  payload (serve s (to_request w) ro wo).2 = None ->
  (serve_wire sha1_base64 s w stack ro wo).2 =
    page_send (cors_origin express_headers) 404 HEAD
      (⟪"Cannot HEAD "⟫ ++ encode_url (url_path (wr_url w))).
Proof.
  intros Hm Hc Hp. unfold serve_wire. destruct (serve s (to_request w) ro wo) as [[s' logs] resp].
  cbn [snd] in *. unfold wire_send, page_message. rewrite Hm, Hp, Hc. cbn -[page_send]. done.
Qed.

End WireTheorems.

(** ** The exchange on concrete requests *)

Section WireWitnesses.
#[local] Existing Instances decimal_number decimal_laws.

(** A digest stands in for SHA-1 in the examples: no theorem depends on
    its value. *)
Definition no_digest (bs : bytes) : jstr := [].

(** A submission whose body starts with a byte-order mark, which
    [bodyParser.json()] drops. *)
Definition bom_submit (ps : list (jstr * jsval)) : wire_request :=
  {| wr_method := POST; wr_url := submit_route;
     wr_json := (fun t => [239; 187; 191] ++ utf8_encode t) <$> json_stringify (JObj ps) 0; wr_acrh := None |}.

Definition head_data : wire_request :=
  {| wr_method := HEAD; wr_url := data_route; wr_json := None; wr_acrh := None |}.

Definition preflight_submit : wire_request :=
  {| wr_method := OPTIONS; wr_url := submit_route; wr_json := None; wr_acrh := Some ⟪"content-type"⟫ |}.

Lemma preflight_submit_headers :
  (serve_wire no_digest (None : data_file) preflight_submit [] ReadOk WriteOk).2 =
    {| ws_status := 204;
       ws_headers := [(h_powered_by, ⟪"Express"⟫); (h_allow_origin, ⟪"*"⟫); (h_allow_methods, cors_methods);
                      (h_vary, ⟪"Access-Control-Request-Headers"⟫); (h_allow_headers, ⟪"content-type"⟫);
                      (h_content_length, ⟪"0"⟫)];
       ws_bytes := [] |}.
Proof. reflexivity. Qed.

Lemma wire_json_roundtrip_witness :
  store_ok (None : data_file) = true /\ wire_ok (bom_submit ana_body) = true /\
  wr_method (bom_submit ana_body) <> HEAD /\
  payload (serve None (to_request (bom_submit ana_body)) ReadOk WriteOk).2 =
    Some (body (submit_created 1 ana_body)) /\
  json_parse (utf8_decode (ws_bytes (serve_wire no_digest None (bom_submit ana_body) [] ReadOk WriteOk).2)) =
    Some (jnorm (body (submit_created 1 ana_body))).
Proof.
  assert (H1 : store_ok (None : data_file) = true) by reflexivity.
  assert (H2 : wire_ok (bom_submit ana_body) = true) by reflexivity.
  assert (H3 : wr_method (bom_submit ana_body) <> HEAD) by discriminate.
  assert (H4 : payload (serve None (to_request (bom_submit ana_body)) ReadOk WriteOk).2 =
               Some (body (submit_created 1 ana_body))) by reflexivity.
  split_and!; [exact H1|exact H2|exact H3|exact H4|].
  exact (proj1 (wire_json_roundtrip no_digest None _ [] ReadOk WriteOk _ H1 H2 H3 H4)).
Defined.

Lemma head_as_get_witness :
  wr_method head_data = HEAD /\ route_is data_route (wr_url head_data) = true /\
  (serve_wire no_digest (None : data_file) head_data [] ReadOk WriteOk).1 =
    (serve_wire no_digest None (as_get head_data) [] ReadOk WriteOk).1 /\
  (serve_wire no_digest (None : data_file) head_data [] ReadOk WriteOk).2 =
    let a := (serve_wire no_digest None (as_get head_data) [] ReadOk WriteOk).2 in
    {| ws_status := ws_status a; ws_headers := ws_headers a; ws_bytes := [] |}.
Proof.
  assert (H : wr_method head_data = HEAD) by reflexivity.
  assert (Hr : route_is data_route (wr_url head_data) = true) by reflexivity.
  split_and!; [exact H|exact Hr|..]; apply (head_as_get no_digest None head_data [] ReadOk WriteOk H Hr).
Defined.

(** On an unknown path the [HEAD] and [GET] pages differ in length. *)
Lemma head_get_not_found_lengths :
  let w := {| wr_method := HEAD; wr_url := ⟪"/nope"⟫; wr_json := None; wr_acrh := None |} in
  get_header h_content_length (ws_headers (serve_wire no_digest (None : data_file) w [] ReadOk WriteOk).2) =
    Some ⟪"144"⟫ /\
  get_header h_content_length (ws_headers (serve_wire no_digest (None : data_file) (as_get w) [] ReadOk WriteOk).2) =
    Some ⟪"143"⟫.
Proof. split; reflexivity. Qed.

End WireWitnesses.
